(** * douyin-sync-skill: the identifier extractor, the batch fetch adapter,
      the sync planner and the brand registry, embedded from the Python
      sources under [scripts/].

    Conventions of the embedding.
    - A Python [str] is a [string] holding its UTF-8 bytes.  Equality,
      [startswith] and the substring test [in] agree with Python on such
      strings.  The character classes of [str.strip], [\s] and [\d] are given
      on ASCII; Python also puts some code points above 127 in these classes,
      and inputs that contain those are outside the model.
    - A JSON value (what [response.json()] and the spreadsheet backend hand
      over) is a [json]; numbers are integers.  A Python [dict] keeps its
      insertion order, so it is an association list whose first binding of a
      key is the live one.
    - [None] is [JNull].
    - Code that talks to the network runs in the monad [M]: a state monad over
      the [world] (how many requests were sent, and the log of requests and
      sleeps) with exceptions.  The replies of the network are given by an
      oracle indexed by the number of requests sent so far.
    - Logging has no effect on results and is left out, except where the
      logged expression itself can raise. *)

From Stdlib Require Import ZArith List String Ascii Bool Lia.
From Stdlib Require Import Numbers.DecimalString.
From stdpp Require Import base gmap strings.
Import ListNotations.

Set Warnings "-register-all".
Local Open Scope string_scope.
Local Open Scope list_scope.
#[local] Arguments String.append : simpl nomatch.

(** ** Strings *)

(** [str.isspace] on ASCII: tab, LF, VT, FF, CR, FS, GS, RS, US and space. *)
Definition is_space (c : ascii) : bool :=
  let n := nat_of_ascii c in
  (((9 <=? n) && (n <=? 13)) || ((28 <=? n) && (n <=? 32)))%nat.

(** [\d] on ASCII. *)
Definition is_digit (c : ascii) : bool :=
  let n := nat_of_ascii c in ((48 <=? n) && (n <=? 57))%nat.

Fixpoint all_chars (p : ascii -> bool) (s : string) : bool :=
  match s with
  | EmptyString => true
  | String c s' => p c && all_chars p s'
  end.

Fixpoint take_while (p : ascii -> bool) (s : string) : string :=
  match s with
  | EmptyString => EmptyString
  | String c s' => if p c then String c (take_while p s') else EmptyString
  end.

Fixpoint skip (n : nat) (s : string) : string :=
  match n, s with
  | O, _ => s
  | S n', EmptyString => EmptyString
  | S n', String _ s' => skip n' s'
  end.

Fixpoint take (n : nat) (s : string) : string :=
  match n, s with
  | O, _ => EmptyString
  | S n', EmptyString => EmptyString
  | S n', String c s' => String c (take n' s')
  end.

Definition is_empty (s : string) : bool :=
  match s with EmptyString => true | _ => false end.

(** [s.startswith(p)] *)
Definition startswith (p s : string) : bool := String.prefix p s.

(** [sub in s] *)
Fixpoint contains (sub s : string) : bool :=
  startswith sub s ||
  match s with
  | EmptyString => false
  | String _ s' => contains sub s'
  end.

Fixpoint lstrip (s : string) : string :=
  match s with
  | EmptyString => EmptyString
  | String c s' => if is_space c then lstrip s' else s
  end.

Fixpoint rstrip (s : string) : string :=
  match s with
  | EmptyString => EmptyString
  | String c s' =>
      let r := rstrip s' in
      if is_space c && is_empty r then EmptyString else String c r
  end.

(** [s.strip()] *)
Definition strip (s : string) : string := rstrip (lstrip s).

(** [re.search]: the pattern is tried at every position from the left, and
    the first position where it matches wins.  [here] is the pattern anchored
    at the start of its argument; it returns the text the caller reads off the
    match ([group(0)] or [group(1)]). *)
Fixpoint re_search (here : string -> option string) (s : string) : option string :=
  match here s with
  | Some m => Some m
  | None =>
      match s with
      | EmptyString => None
      | String _ s' => re_search here s'
      end
  end.

(** [\d{19}], anchored; [group(0)]. *)
Definition d19_here (s : string) : option string :=
  let m := take 19 s in
  if (String.length m =? 19)%nat && all_chars is_digit m then Some m else None.

(** [lit(\d+)], anchored; [group(1)].  [\d+] is greedy and there is nothing
    after it, so the group is the whole digit run. *)
Definition lit_digits_here (lit s : string) : option string :=
  if startswith lit s then
    let r := take_while is_digit (skip (String.length lit) s) in
    if is_empty r then None else Some r
  else None.

(** [(https?://[^\s]+)], anchored; [group(1)]. *)
Definition url_here (s : string) : option string :=
  let rest_of (scheme : string) :=
    let r := take_while (fun c => negb (is_space c)) (skip (String.length scheme) s) in
    if is_empty r then None else Some (scheme +:+ r) in
  if startswith "https://" s then rest_of "https://"
  else if startswith "http://" s then rest_of "http://"
  else None.



(** ** JSON values and the Python built-ins used on them *)

Inductive json : Type :=
| JNull
| JBool (b : bool)
| JInt (z : Z)
| JStr (s : string)
| JList (l : list json)
| JDict (d : list (string * json)).

Abbreviation dict := (list (string * json)).

(** An insertion-ordered dict with string keys. *)
Fixpoint dget {V} (k : string) (d : list (string * V)) : option V :=
  match d with
  | [] => None
  | (k', v) :: d' => if String.eqb k k' then Some v else dget k d'
  end.

(** [d[k] = v]: an existing key keeps its place, a new one goes last. *)
Fixpoint dset {V} (k : string) (v : V) (d : list (string * V)) : list (string * V) :=
  match d with
  | [] => [(k, v)]
  | (k', v') :: d' =>
      if String.eqb k k' then (k', v) :: d' else (k', v') :: dset k v d'
  end.

Definition has_key {V} (k : string) (d : list (string * V)) : bool :=
  match dget k d with Some _ => true | None => false end.

(** [d.get(k, default)] on a dict. *)
Definition dget_or (k : string) (default : json) (d : dict) : json :=
  match dget k d with Some v => v | None => default end.

(** [bool(x)] *)
Definition truthy (j : json) : bool :=
  match j with
  | JNull => false
  | JBool b => b
  | JInt z => negb (z =? 0)%Z
  | JStr s => negb (is_empty s)
  | JList l => match l with [] => false | _ => true end
  | JDict d => match d with [] => false | _ => true end
  end.

(** The integer a Python number stands for ([True] is 1, [False] is 0). *)
Definition as_number (j : json) : option Z :=
  match j with
  | JInt z => Some z
  | JBool b => Some (Z.b2z b)
  | _ => None
  end.

(** [x == n] for an integer literal [n]. *)
Definition eq_int (n : Z) (j : json) : bool :=
  match as_number j with Some z => (z =? n)%Z | None => false end.

(** [x == s] for a string literal [s]. *)
Definition eq_str (s : string) (j : json) : bool :=
  match j with JStr t => String.eqb t s | _ => false end.

Definition is_none (j : json) : bool :=
  match j with JNull => true | _ => false end.

Definition str_of_Z (z : Z) : string := NilZero.string_of_int (Z.to_int z).

(** ** Exceptions, the world and the monad *)

Inductive exn : Type :=
| Timeout            (* requests.exceptions.Timeout *)
| RequestException   (* any other requests.exceptions.RequestException *)
| AttributeError
| TypeError
| ValueError
| KeyError
| OtherError.

(** [except requests.exceptions.RequestException] also catches [Timeout]. *)
Definition is_request_exception (e : exn) : bool :=
  match e with Timeout | RequestException => true | _ => false end.

Inductive result (A : Type) : Type :=
| Ok (a : A)
| Raise (e : exn).
Arguments Ok {A} a.
Arguments Raise {A} e.

(** What the program does to the outside, in the order it does it. *)
Inductive event : Type :=
| EvHead (url : string) (timeout : Z)
| EvGet (url : string) (timeout : Z)
| EvPost (url : string) (timeout : Z)
| EvSleep (secs : Z).

(** A reply of the HTTP layer: the status code, what [.json()] gives (or the
    exception it raises) and the final URL after redirects ([.url]). *)
Record reply : Type := {
  status_code : Z;
  body : result json;
  final_url : string
}.

Record world : Type := {
  tick : nat;            (* requests sent so far *)
  trace : list event     (* oldest first *)
}.

Definition M (A : Type) : Type := world -> result A * world.

Definition ret {A} (a : A) : M A := fun w => (Ok a, w).

Definition raise {A} (e : exn) : M A := fun w => (Raise e, w).

Definition bind {A B} (m : M A) (f : A -> M B) : M B :=
  fun w =>
    match m w with
    | (Ok a, w') => f a w'
    | (Raise e, w') => (Raise e, w')
    end.

(** [try: m  except <those e with handles e>: h e] *)
Definition catch {A} (handles : exn -> bool) (m : M A) (h : exn -> M A) : M A :=
  fun w =>
    match m w with
    | (Ok a, w') => (Ok a, w')
    | (Raise e, w') => if handles e then h e w' else (Raise e, w')
    end.

Definition any_exception (e : exn) : bool := true.

Definition lift {A} (r : result A) : M A := fun w => (r, w).

(** Runs [m] and hands its outcome over as a value, so that the caller keeps
    the variables it assigned before the exception. *)
Definition reify {A} (m : M A) : M (result A) :=
  fun w => let (r, w') := m w in (Ok r, w').

Notation "'let*' x ':=' m 'in' k" := (bind m (fun x => k))
  (at level 10, x pattern, m at level 100, k at level 200).

(** [time.sleep(secs)] *)
Definition sleep (secs : Z) : M unit :=
  fun w => (Ok tt, {| tick := tick w; trace := trace w ++ [EvSleep secs] |}).

(** [x.get(k, default)]: raises [AttributeError] unless [x] is a dict. *)
Definition py_get (j : json) (k : string) (default : json) : result json :=
  match j with
  | JDict d => Ok (dget_or k default d)
  | _ => Raise AttributeError
  end.

Definition rbind {A B} (r : result A) (f : A -> result B) : result B :=
  match r with Ok a => f a | Raise e => Raise e end.

Notation "'let+' x ':=' r 'in' k" := (rbind r (fun x => k))
  (at level 10, x pattern, r at level 100, k at level 200).

(** [range(0, len(l), n)] with the slices [l[i:i+n]]. *)
Fixpoint chunks_fuel {A} (fuel n : nat) (l : list A) : list (list A) :=
  match fuel with
  | O => []
  | S fuel' =>
      match l with
      | [] => []
      | _ => firstn n l :: chunks_fuel fuel' n (skipn n l)
      end
  end.

Definition chunks {A} (n : nat) (l : list A) : list (list A) :=
  chunks_fuel (List.length l) n l.

(** ** What the program takes from its runtime

    The text of [str(x)] for a list or a dict, [int(s)] and [json.loads(s)]
    for a string, the replies of the network, and the endpoint the client was
    built with. *)
Record env : Type := {
  py_repr : json -> string;            (* str(x), x a list or a dict *)
  py_int_of_str : string -> option Z;  (* int(s); None: it raises ValueError *)
  json_loads : string -> option json;  (* json.loads(s); None: it raises *)
  net : nat -> result reply;           (* the outcome of the i-th request *)
  api_url : option string              (* self.api_url *)
}.

(** An instance of the runtime for examples.  [repr_plain] writes strings
    between single quotes without escapes, as Python does for strings that hold
    no quote, backslash or control character. *)
Fixpoint repr_plain (j : json) : string :=
  match j with
  | JNull => "None"
  | JBool true => "True"
  | JBool false => "False"
  | JInt z => str_of_Z z
  | JStr s => "'" +:+ s +:+ "'"
  | JList l => "[" +:+ String.concat ", " (map repr_plain l) +:+ "]"
  | JDict d =>
      "{" +:+ String.concat ", "
                (map (fun kv => let '(k, v) := kv in "'" +:+ k +:+ "': " +:+ repr_plain v) d)
          +:+ "}"
  end.

(** [int(s)] on a plain decimal numeral; other texts are given as raising. *)
Definition int_of_numeral (s : string) : option Z :=
  if negb (is_empty s) && all_chars is_digit s
  then option_map (fun d => Z.of_N (N.of_uint d)) (NilZero.uint_of_string s)
  else None.


(** ** scripts/douyin_api.py *)

Definition mobile_url : string :=
  "https://api.tikhub.io/api/v1/douyin/app/v3/fetch_one_video".
Definition stats_url : string :=
  "https://api.tikhub.io/api/v1/douyin/app/v3/fetch_video_statistics".
Definition web_batch_url : string :=
  "https://api.tikhub.io/api/v1/douyin/web/fetch_multi_video".

(** The record [fetch_video] builds for a video the API reports as gone. *)
Definition deleted_record (aweme_id : json) (desc : string) : json :=
  JDict [("code", JInt 0);
         ("data", JDict [("aweme_id", aweme_id);
                         ("desc", JStr desc);
                         ("create_time", JInt 0);
                         ("status", JDict [("is_delete", JBool true)]);
                         ("statistics", JDict []);
                         ("author", JDict []);
                         ("share_url", JStr "")])].

(** [(x or {})] *)
Definition or_empty_dict (j : json) : json :=
  if truthy j then j else JDict [].

(** [{"nickname": (d.get('author') or {}).get('nickname'), "unique_id": ...}] *)
Definition author_of (detail : json) : result json :=
  let+ a := py_get detail "author" JNull in
  let+ nickname := py_get (or_empty_dict a) "nickname" JNull in
  let+ unique_id := py_get (or_empty_dict a) "unique_id" JNull in
  Ok (JDict [("nickname", nickname); ("unique_id", unique_id)]).

(** The five counters, each [d.get('statistics', {}).get(key, 0)]. *)
Definition statistics_of (detail : json) : result json :=
  let+ s := py_get detail "statistics" (JDict []) in
  let+ digg := py_get s "digg_count" (JInt 0) in
  let+ comment := py_get s "comment_count" (JInt 0) in
  let+ share := py_get s "share_count" (JInt 0) in
  let+ collect := py_get s "collect_count" (JInt 0) in
  let+ play := py_get s "play_count" (JInt 0) in
  Ok (JDict [("digg_count", digg); ("comment_count", comment);
             ("share_count", share); ("collect_count", collect);
             ("play_count", play)]).

Definition duration_of (detail : json) : result json :=
  let+ v := py_get detail "video" (JDict []) in
  py_get v "duration" (JInt 0).

(** [converted_data] of [fetch_video]. *)
Definition converted_single (share_url_value : string) (tik_data : json) : result json :=
  let+ aweme_id := py_get tik_data "aweme_id" JNull in
  let+ desc := py_get tik_data "desc" JNull in
  let+ create_time := py_get tik_data "create_time" JNull in
  let+ duration := duration_of tik_data in
  let+ author := author_of tik_data in
  let+ statistics := statistics_of tik_data in
  let+ text_extra := py_get tik_data "text_extra" (JList []) in
  Ok (JDict [("code", JInt 0);
             ("data", JDict [("aweme_id", aweme_id);
                             ("share_url", JStr share_url_value);
                             ("desc", desc);
                             ("create_time", create_time);
                             ("duration", duration);
                             ("author", author);
                             ("statistics", statistics);
                             ("text_extra", text_extra);
                             ("promotions", JList [])])]).

(** [converted_data] of [fetch_videos_batch]. *)
Definition converted_web (share_url_value : string) (aweme_detail : json) : result json :=
  let+ aweme_id := py_get aweme_detail "aweme_id" JNull in
  let+ desc := py_get aweme_detail "desc" JNull in
  let+ create_time := py_get aweme_detail "create_time" JNull in
  let+ duration := duration_of aweme_detail in
  let+ author := author_of aweme_detail in
  let+ statistics := statistics_of aweme_detail in
  let+ text_extra := py_get aweme_detail "text_extra" (JList []) in
  Ok (JDict [("code", JInt 0);
             ("data", JDict [("aweme_id", aweme_id);
                             ("share_url", JStr share_url_value);
                             ("desc", desc);
                             ("create_time", create_time);
                             ("duration", duration);
                             ("author", author);
                             ("_data_source", JStr "Web API");
                             ("statistics", statistics);
                             ("text_extra", text_extra);
                             ("promotions", JList [])])]).

Definition stat_keys : list string :=
  ["play_count"; "digg_count"; "comment_count"; "share_count"; "collect_count"].

(** One round of the loop over the keys in [_supplement_statistics]:
    [final_val = max(app_val, web_val)], written when [final_val > 0].
    [max] gives its first argument unless the second is greater.  Two values
    that are not both numbers raise at [max] or at [> 0], before the write. *)
Definition merge_key (app_stats : dict) (key : string) (statistics : dict) : result dict :=
  let app_val := dget_or key (JInt 0) app_stats in
  let web_val := dget_or key (JInt 0) statistics in
  match as_number app_val, as_number web_val with
  | Some a, Some w =>
      let final_val := if (a <? w)%Z then web_val else app_val in
      let final_num := Z.max a w in
      if (0 <? final_num)%Z then Ok (dset key final_val statistics) else Ok statistics
  | _, _ => Raise TypeError
  end.

(** The loop over the keys; an exception leaves the keys written so far. *)
Fixpoint merge_keys (keys : list string) (app_stats statistics : dict) : dict * option exn :=
  match keys with
  | [] => (statistics, None)
  | key :: rest =>
      match merge_key app_stats key statistics with
      | Ok statistics' => merge_keys rest app_stats statistics'
      | Raise e => (statistics, Some e)
      end
  end.

(** From [if 'statistics' not in tik_data] to [break]: the new [tik_data] and
    whether [break] was reached. *)
Definition merge_into (app_stats : dict) (tik_data : json) : bool * json :=
  match tik_data with
  | JDict t =>
      let t1 := if has_key "statistics" t then t else dset "statistics" (JDict []) t in
      match dget "statistics" t1 with
      | Some (JDict statistics) =>
          let '(statistics', e) := merge_keys stat_keys app_stats statistics in
          (match e with None => true | Some _ => false end,
           JDict (dset "statistics" (JDict statistics') t1))
      | _ => (false, JDict t1)
      end
  | _ => (false, tik_data)
  end.

(** [stats_list[0]] followed by the logged [app_stats.get('play_count')]:
    a dict, or an exception. *)
Definition first_stats (stats_list : json) : result dict :=
  match stats_list with
  | JList (JDict app_stats :: _) => Ok app_stats
  | JList (_ :: _) => Raise AttributeError
  | JList [] => Raise OtherError   (* not reached: the list is truthy *)
  | JStr _ => Raise AttributeError
  | JDict _ => Raise KeyError
  | _ => Raise TypeError
  end.

(** The try block of [_supplement_statistics] up to [app_stats]. *)
Definition app_stats_of (stats_response : reply) : result (option dict) :=
  if (status_code stats_response =? 200)%Z then
    let+ stats_data := body stats_response in
    let+ code := py_get stats_data "code" JNull in
    if eq_int 200 code then
      let+ d := py_get stats_data "data" (JDict []) in
      let+ stats_list := py_get d "statistics_list" (JList []) in
      if truthy stats_list then
        let+ app_stats := first_stats stats_list in Ok (Some app_stats)
      else Ok None
    else Ok None
  else Ok None.

(** The try block of the play-count supplement in [fetch_videos_batch] up to
    [stats_list]. *)
Definition stats_list_of (stats_response : reply) : result json :=
  if (status_code stats_response =? 200)%Z then
    let+ stats_data := body stats_response in
    let+ code := py_get stats_data "code" JNull in
    if eq_int 200 code then
      let+ d := py_get stats_data "data" (JDict []) in
      py_get d "statistics_list" (JList [])
    else Ok (JList [])
  else Ok (JList []).

(** [results[vid]['data']['statistics']['play_count'] = play_count] and
    [results[vid]['data']['_data_source'] = "App API"], under
    [if vid in results and results[vid]]. *)
Definition set_play_count (vid : string) (play_count : Z) (results : dict) : result dict :=
  match dget vid results with
  | None => Ok results
  | Some record =>
      if truthy record then
        match record with
        | JDict r =>
            match dget "data" r with
            | Some (JDict dd) =>
                match dget "statistics" dd with
                | Some (JDict st) =>
                    let dd1 := dset "statistics" (JDict (dset "play_count" (JInt play_count) st)) dd in
                    let dd2 := dset "_data_source" (JStr "App API") dd1 in
                    Ok (dset vid (JDict (dset "data" (JDict dd2) r)) results)
                | Some _ => Raise TypeError
                | None => Raise KeyError
                end
            | Some _ => Raise TypeError
            | None => Raise KeyError
            end
        | _ => Raise TypeError
        end
      else Ok results
  end.

(** ** scripts/yuntu_scraper.py: the brand registry *)

Definition yuntu_base : string :=
  "https://yuntu.oceanengine.com/yuntu_brand/ecom/strategy/medium/talent_markting/hotcontent?aadvid=".

(** The configuration file, when it exists, and the module's [DEFAULT_BRANDS]
    object. *)
Record brand_store : Type := {
  config_file : option (gmap string json);
  DEFAULT_BRANDS : gmap string json
}.

Definition load_brands_config (st : brand_store) : gmap string json :=
  match config_file st with
  | Some brands => brands
  | None => DEFAULT_BRANDS st
  end.

Definition brand_entry (name aadvid industry : string) : json :=
  JDict [("name", JStr name);
         ("aadvid", JStr aadvid);
         ("industry", JStr industry);
         ("yuntu_url", JStr (yuntu_base +:+ aadvid))].

(** Without a file, [load_brands_config] hands out [DEFAULT_BRANDS] itself,
    so the assignment [brands[brand_key] = ...] also changes that object. *)
Definition add_brand (brand_key name aadvid industry : string) (st : brand_store)
  : brand_store :=
  let brands := <[brand_key := brand_entry name aadvid industry]> (load_brands_config st) in
  {| config_file := Some brands;
     DEFAULT_BRANDS := match config_file st with
                       | Some _ => DEFAULT_BRANDS st
                       | None => brands
                       end |}.

Definition get_brand_url (brand_key : string) (st : brand_store) : result json :=
  match load_brands_config st !! brand_key with
  | None => Ok JNull
  | Some (JDict entry) =>
      match dget "yuntu_url" entry with
      | Some url => Ok url
      | None => Raise KeyError
      end
  | Some _ => Raise TypeError
  end.

(** [DEFAULT_BRANDS] as the module defines it, and the state of a process
    that starts without a configuration file. *)
Definition default_brands : gmap string json :=
  {[ "lego" :=
       JDict [("name", JStr "乐高/LEGO");
              ("aadvid", JStr "1731407744628743");
              ("industry", JStr "母婴/母婴");
              ("yuntu_url",
               JStr "https://yuntu.oceanengine.com/yuntu_brand/ecom/strategy/medium/talent_markting/hotcontent?aadvid=1731407744628743")] ]}.

Definition initial_store : brand_store :=
  {| config_file := None; DEFAULT_BRANDS := default_brands |}.

(** An entry as [add_brand] writes it: a name, an advertiser id, and the URL
    derived from that id. *)
Definition well_formed_entry (e : json) : Prop :=
  exists d name aadvid,
    e = JDict d /\
    dget "name" d = Some (JStr name) /\
    dget "aadvid" d = Some (JStr aadvid) /\
    dget "yuntu_url" d = Some (JStr (yuntu_base +:+ aadvid)).

Definition well_formed (brands : gmap string json) : Prop :=
  forall k e, brands !! k = Some e -> well_formed_entry e.

(** ** The spreadsheet *)

(** A row of the spreadsheet, a group of rows with one video id, and an
    update sent back to the spreadsheet. *)
Record record : Type := {
  record_id : string;
  fields : dict
}.

Record group : Type := {
  master : record;
  duplicates : list record
}.

Record update : Type := {
  update_record_id : string;
  update_fields : json
}.

Definition removed_title : string := "视频已下架".
Definition warning_mark : string := "⚠️".

(** What the parser of scripts/douyin_parser.py takes from its runtime: it
    rounds two quotients to floating-point values and reads the clock. *)
Record parser_env : Type := {
  round2 : Z -> Z -> json;   (* round(n / d, 2) *)
  now_ms : Z                 (* int(time.time() * 1000) *)
}.

(** ** Example runtimes *)

Definition default_api_url : string :=
  "https://api.tikhub.io/api/v1/douyin/web/fetch_video_detail".

Definition runtime_with (replies : nat -> result reply) : env :=
  {| py_repr := repr_plain;
     py_int_of_str := int_of_numeral;
     json_loads := fun _ => None;
     net := replies;
     api_url := Some default_api_url |}.

(** Every request times out. *)
Definition offline : env := runtime_with (fun _ => Raise Timeout).

Definition fresh_world : world := {| tick := 0; trace := [] |}.

Definition json_reply (j : json) : reply :=
  {| status_code := 200; body := Ok j; final_url := "" |}.

(** The Web API reports one video with [web_play] plays, the App API then
    reports [app_play] plays for it. *)
Definition video_a : string := "7000000000000000001".

Definition web_reports (web_play : Z) : reply :=
  json_reply
    (JDict [("code", JInt 200);
            ("data", JDict [("aweme_list",
               JList [JDict [("aweme_id", JStr video_a);
                             ("desc", JStr "a");
                             ("statistics", JDict [("play_count", JInt web_play)])]])])]).

Definition app_reports (app_play : Z) : reply :=
  json_reply
    (JDict [("code", JInt 200);
            ("data", JDict [("statistics_list",
               JList [JDict [("aweme_id", JStr video_a);
                             ("play_count", JInt app_play)]])])]).

Definition two_sources (web_play app_play : Z) : env :=
  runtime_with (fun i => match i with
                         | 0 => Ok (web_reports web_play)
                         | 1 => Ok (app_reports app_play)
                         | _ => Raise Timeout
                         end).

Definition video_b : string := "7000000000000000002".

(** A small table: two rows for [video_a] (the first with a title and a like
    count), one row for [video_b] without title, one row without video id. *)
Definition row_a1 : record :=
  {| record_id := "recA1";
     fields := [("视频ID", JStr video_a); ("标题描述", JStr "某标题"); ("点赞数", JInt 120)] |}.
Definition row_a2 : record :=
  {| record_id := "recA2";
     fields := [("视频ID", JList [JDict [("text", JStr video_a); ("type", JStr "text")]])] |}.
Definition row_b : record :=
  {| record_id := "recB";
     fields := [("视频ID", JStr video_b); ("标题描述", JStr "")] |}.
Definition row_blank : record :=
  {| record_id := "recX"; fields := [("标题描述", JStr "no id")] |}.

Definition table : list record := [row_a1; row_blank; row_a2; row_b].

(** A parser for examples: it passes the [data] of the record on. *)
Definition parse_data (raw_data : json) : result json := py_get raw_data "data" JNull.

(** The Web API answers 404 with detail "Not Found"; every later request
    times out. *)
Definition gone_reply : reply :=
  {| status_code := 404;
     body := Ok (JDict [("detail", JStr "Not Found")]);
     final_url := "" |}.

Definition gone_runtime : env :=
  runtime_with (fun i => match i with 0 => Ok gone_reply | _ => Raise Timeout end).

(** [results[vid]['data']['statistics'].get(key, 0)] of a batch result. *)
Definition statistic_of (results : dict) (vid key : string) : result json :=
  match dget vid results with
  | None => Raise KeyError
  | Some record =>
      let+ d := py_get record "data" JNull in
      let+ s := py_get d "statistics" JNull in
      py_get s key (JInt 0)
  end.

(** [str(e)] for the examples: the name of the exception. *)
Definition exn_name (e : exn) : string :=
  match e with
  | Timeout => "Timeout"
  | RequestException => "RequestException"
  | AttributeError => "AttributeError"
  | TypeError => "TypeError"
  | ValueError => "ValueError"
  | KeyError => "KeyError"
  | OtherError => "Exception"
  end.

(** The translation endpoint answers every request with code 200. *)
Definition translated_reply : reply :=
  json_reply (JDict [("code", JInt 200);
                     ("data", JDict [("translated_text", JStr "hello")])]).

Definition translator : env := runtime_with (fun _ => Ok translated_reply).

(** The table service accepts every request. *)
Definition accepting : env :=
  runtime_with (fun _ => Ok (json_reply (JDict [("code", JInt 0)]))).

Definition two_updates : list update :=
  [ {| update_record_id := "recA1"; update_fields := JDict [("标题描述", JStr "a")] |};
    {| update_record_id := "recB"; update_fields := JDict [("标题描述", JStr "b")] |} ].

(** An environment with the API key set, the Feishu application id set to the
    empty string and nothing else. *)
Definition key_only_environ (name : string) : option string :=
  if (name =? "DOUYIN_API_KEY")%string then Some "sk-1"
  else if (name =? "FEISHU_APP_ID")%string then Some ""
  else None.

(** The App API reports 80 plays and 5 likes where the record holds 100 plays
    and no likes. *)
Definition app_example : dict := [("play_count", JInt 80); ("digg_count", JInt 5)].
Definition tik_example : dict :=
  [("desc", JStr "a");
   ("statistics", JDict [("play_count", JInt 100); ("digg_count", JInt 0)])].

(** A parser runtime for the examples: quotients are cut to whole numbers
    and the clock stands still. *)
Definition whole_quotients : parser_env :=
  {| round2 := fun n d => JInt (n / d); now_ms := 1700000000000 |}.

(** A response with 100 plays and a like count that is not a number. *)
Definition response_with_bad_count : json :=
  JDict [("code", JInt 0);
         ("data", JDict [("aweme_id", JStr video_a);
                         ("desc", JStr "a");
                         ("statistics", JDict [("play_count", JInt 100);
                                               ("digg_count", JStr "many")])])].

Inductive ctl : Type :=
| Next                (* the loop goes on *)
| Break
| Return (v : json).

(** The variables of [fetch_video] that its retry loop assigns. *)
Record attempt_state : Type := {
  data : json;
  response : option reply
}.

Section Program.

Variable rt : env.

(** [str(x)] *)
Definition py_str (j : json) : string :=
  match j with
  | JStr s => s
  | JInt z => str_of_Z z
  | JBool true => "True"
  | JBool false => "False"
  | JNull => "None"
  | _ => py_repr rt j
  end.

(** [try: int(x)  except Exception: 0] *)
Definition int_or_zero (j : json) : Z :=
  match j with
  | JInt z => z
  | JBool b => Z.b2z b
  | JStr s => match py_int_of_str rt s with Some z => z | None => 0%Z end
  | _ => 0%Z
  end.

(** One HTTP request: it is logged, counted, and answered by the oracle. *)
Definition request (e : event) : M reply :=
  fun w => (net rt (tick w), {| tick := S (tick w); trace := trace w ++ [e] |}).

Definition _resolve_redirects (url : string) : M string :=
  if contains "v.douyin.com" url || contains "douyin.com/share/" url then
    catch any_exception
      (let* resp := request (EvHead url 10) in ret (final_url resp))
      (fun _ => ret url)
  else ret url.

(** Step 1 of [_extract_aweme_id]: the string that steps 2 and 3 search. *)
Definition redirect_resolved (input_str : string) : M string :=
  let input_str := strip input_str in
  if contains "http" input_str then
    match re_search url_here input_str with
    | Some url => _resolve_redirects url
    | None => ret input_str
    end
  else ret input_str.

Definition legacy_patterns : list string := ["/video/"; "aweme_id="; "modal_id="].

Fixpoint first_legacy_match (patterns : list string) (s : string) : option string :=
  match patterns with
  | [] => None
  | pattern :: rest =>
      match re_search (lit_digits_here pattern) s with
      | Some m => Some m
      | None => first_legacy_match rest s
      end
  end.

(** Steps 2 and 3 of [_extract_aweme_id]. *)
Definition extract_from (s : string) : option string :=
  match re_search d19_here s with
  | Some m => Some m
  | None => first_legacy_match legacy_patterns s
  end.

Definition _extract_aweme_id (input_str : string) : M (option string) :=
  let* s := redirect_resolved input_str in
  ret (extract_from s).

(** The Mobile API V3 fallback of the 404 branch; [Some mobile_data] when it
    reaches [data = mobile_data; break]. *)
Definition mobile_fallback : M (option json) :=
  catch any_exception
    (let* mobile_resp := request (EvGet mobile_url 20) in
     if (status_code mobile_resp =? 200)%Z then
       let* mobile_data := lift (body mobile_resp) in
       let* code := lift (py_get mobile_data "code" JNull) in
       if eq_int 200 code then
         let* d := lift (py_get mobile_data "data" (JDict [])) in
         let* detail := lift (py_get d "aweme_detail" JNull) in
         ret (if truthy detail then Some mobile_data else None)
       else ret None
     else ret None)
    (fun _ => ret None).

(** [err_data.get("detail") == "Not Found"], any exception read as no. *)
Definition is_not_found (response : reply) : bool :=
  match (let+ err_data := body response in
         let+ detail := py_get err_data "detail" JNull in
         Ok (eq_str "Not Found" detail)) with
  | Ok b => b
  | Raise _ => false
  end.

(** The body of the retry loop of [fetch_video] up to, and without, the
    sleep.  [Timeout] and [RequestException] end the attempt; any other
    exception leaves the loop. *)
Definition try_once (url aweme_id : string) (st : attempt_state) : M (ctl * attempt_state) :=
  let* r := reify (request (EvGet url 30)) in
  match r with
  | Raise e => if is_request_exception e then ret (Next, st) else raise e
  | Ok resp =>
      let st := {| data := data st; response := Some resp |} in
      if (status_code resp =? 200)%Z then
        match body resp with
        | Raise e => if is_request_exception e then ret (Next, st) else raise e
        | Ok d =>
            ret (if truthy d then Break else Next,
                 {| data := d; response := response st |})
        end
      else if (status_code resp =? 404)%Z then
        let* mobile := mobile_fallback in
        match mobile with
        | Some mobile_data =>
            ret (Break, {| data := mobile_data; response := response st |})
        | None =>
            if is_not_found resp
            then ret (Return (deleted_record (JStr aweme_id) "视频不存在或已下架"), st)
            else ret (Next, st)
        end
      else ret (Next, st)
  end.

(** [for attempt in range(3)], with [if attempt < 2: time.sleep(2)]. *)
Fixpoint attempts (url aweme_id : string) (todo : list nat) (st : attempt_state)
  : M (ctl * attempt_state) :=
  match todo with
  | [] => ret (Next, st)
  | attempt :: rest =>
      let* (c, st') := try_once url aweme_id st in
      match c with
      | Next =>
          let* _ := (if (attempt <? 2)%nat then sleep 2 else ret tt) in
          attempts url aweme_id rest st'
      | _ => ret (c, st')
      end
  end.

(** One attempt of [_supplement_statistics]: whether [break] was reached, and
    [tik_data] as the attempt leaves it. *)
Definition supplement_once (tik_data : json) : M (bool * json) :=
  let* r := reify (request (EvGet stats_url 10)) in
  match (let+ stats_response := r in app_stats_of stats_response) with
  | Ok (Some app_stats) => ret (merge_into app_stats tik_data)
  | Ok None => ret (false, tik_data)
  | Raise _ => ret (false, tik_data)
  end.

Fixpoint supplement_attempts (todo : list nat) (tik_data : json) : M json :=
  match todo with
  | [] => ret tik_data
  | attempt :: rest =>
      let* (done, tik_data') := supplement_once tik_data in
      if (done : bool) then ret tik_data'
      else
        let* _ := (if (attempt <? 2)%nat then sleep 1 else ret tt) in
        supplement_attempts rest tik_data'
  end.

(** [_supplement_statistics] mutates [tik_data]; here it returns it. *)
Definition _supplement_statistics (tik_data : json) : M json :=
  supplement_attempts [0; 1; 2] tik_data.

(** [fetch_video] after the retry loop. *)
Definition after_attempts (aweme_id : string) (st : attempt_state) : M json :=
  match response st with
  | None => ret JNull
  | Some _ =>
      if negb (truthy (data st)) then ret JNull
      else
        let* code := lift (py_get (data st) "code" JNull) in
        if negb (eq_int 200 code) then ret JNull
        else
          let* data_data := lift (py_get (data st) "data" (JDict [])) in
          let* tik_data := lift (py_get data_data "aweme_detail" (JDict [])) in
          if negb (truthy tik_data) then
            let* filter_detail := lift (py_get data_data "filter_detail" (JDict [])) in
            if truthy filter_detail then
              let* _ := lift (py_get filter_detail "detail_msg" JNull) in
              let* id := lift (py_get filter_detail "aweme_id" (JStr aweme_id)) in
              ret (deleted_record id "视频已下架")
            else ret JNull
          else
            let* tik_data := _supplement_statistics tik_data in
            lift (converted_single ("https://www.douyin.com/video/" +:+ aweme_id) tik_data)
  end.

Definition fetch_video (url : string) : M json :=
  match api_url rt with
  | None => ret JNull
  | Some api =>
      if is_empty api then ret JNull
      else
        catch any_exception
          (let* id := _extract_aweme_id url in
           match id with
           | None => ret JNull
           | Some aweme_id =>
               if is_empty aweme_id then ret JNull
               else
                 let* (c, st) := attempts api aweme_id [0; 1; 2]
                                    {| data := JNull; response := None |} in
                 match c with
                 | Return v => ret v
                 | _ => after_attempts aweme_id st
                 end
           end)
          (fun _ => ret JNull)
  end.

(** [aweme_list] of a Web API batch reply, as the try block computes it. *)
Definition aweme_list_of (resp : reply) : result json :=
  let+ data := body resp in
  let+ code := py_get data "code" JNull in
  if eq_int 200 code then
    let+ data_field := py_get data "data" JNull in
    let data_field :=
      match data_field with
      | JStr s => match json_loads rt s with Some j => j | None => JNull end
      | _ => data_field
      end in
    if truthy data_field then
      match data_field with
      | JList _ => Ok data_field
      | _ =>
          let+ a := py_get data_field "aweme_list" JNull in
          if truthy a then Ok a
          else
            let+ b := py_get data_field "aweme_details" JNull in
            Ok (if truthy b then b else JList [])
      end
    else Ok (JList [])
  else Ok (JList []).

(** [for aweme_detail in aweme_list]: every record is written to [results]
    as soon as it is built; an exception ends the loop and keeps them. *)
Fixpoint absorb_details (aweme_list : list json) (results : dict) : dict :=
  match aweme_list with
  | [] => results
  | aweme_detail :: rest =>
      match (let+ id := py_get aweme_detail "aweme_id" JNull in
             let aweme_id := py_str id in
             if is_empty aweme_id then Ok results
             else
               let+ converted_data :=
                 converted_web ("https://www.douyin.com/video/" +:+ aweme_id) aweme_detail in
               Ok (dset aweme_id converted_data results)) with
      | Ok results' => absorb_details rest results'
      | Raise _ => results
      end
  end.

(** The try block on a Web API reply of status 200.  A truthy [aweme_list]
    that is not a list raises on its first element, before any write. *)
Definition absorb_web_reply (resp : reply) (results : dict) : dict :=
  match aweme_list_of resp with
  | Ok (JList aweme_list) => absorb_details aweme_list results
  | _ => results
  end.

(** [for aweme_id in batch_ids: if aweme_id not in results: ...] *)
Fixpoint mark_missing (batch_ids : list string) (results : dict) : M dict :=
  match batch_ids with
  | [] => ret results
  | aweme_id :: rest =>
      if has_key aweme_id results then mark_missing rest results
      else
        let results := dset aweme_id JNull results in
        let* single_data := fetch_video ("https://www.douyin.com/video/" +:+ aweme_id) in
        let* rescued :=
          (if truthy single_data then
             let* code := lift (py_get single_data "code" JNull) in ret (eq_int 0 code)
           else ret false) in
        mark_missing rest (if (rescued : bool) then dset aweme_id single_data results else results)
  end.

(** [for i in range(0, len(aweme_ids), batch_size)] *)
Fixpoint web_batches (batches : list (list string)) (results : dict) : M dict :=
  match batches with
  | [] => ret results
  | batch_ids :: rest =>
      let* resp := request (EvPost web_batch_url 60) in
      let results :=
        if (status_code resp =? 200)%Z then absorb_web_reply resp results else results in
      let* results := mark_missing batch_ids results in
      web_batches rest results
  end.

(** [for stat in stats_list] *)
Fixpoint absorb_stats (stats_list : list json) (results : dict) : dict :=
  match stats_list with
  | [] => results
  | stat :: rest =>
      match (let+ id := py_get stat "aweme_id" JNull in
             let vid := py_str id in
             let+ raw := py_get stat "play_count" (JInt 0) in
             let play_count := int_or_zero raw in
             set_play_count vid play_count results) with
      | Ok results' => absorb_stats rest results'
      | Raise _ => results
      end
  end.

(** [for i in range(0, len(successful_ids), 2)] *)
Fixpoint stats_batches (batches : list (list string)) (results : dict) : M dict :=
  match batches with
  | [] => ret results
  | batch_ids :: rest =>
      let* r := reify (request (EvGet stats_url 30)) in
      let results :=
        match (let+ stats_response := r in stats_list_of stats_response) with
        | Ok (JList stats_list) => absorb_stats stats_list results
        | _ => results
        end in
      stats_batches rest results
  end.

Definition successful_ids (results : dict) : list string :=
  map fst (List.filter (fun kv => negb (is_none (snd kv))) results).

(** The try block of [fetch_videos_batch]. *)
Definition fetch_videos_batch_try (aweme_ids : list string) : M dict :=
  let* results := web_batches (chunks 50 aweme_ids) [] in
  let ids := successful_ids results in
  match ids with
  | [] => ret results
  | _ => stats_batches (chunks 2 ids) results
  end.

(** [{aweme_id: None for aweme_id in aweme_ids}] *)
Definition all_none (aweme_ids : list string) : dict :=
  fold_left (fun d aweme_id => dset aweme_id JNull d) aweme_ids [].

Definition fetch_videos_batch (aweme_ids : list string) : M dict :=
  match aweme_ids with
  | [] => ret []
  | _ =>
      catch any_exception
        (fetch_videos_batch_try aweme_ids)
        (fun _ => ret (all_none aweme_ids))
  end.

(** ** scripts/sync.py *)

Definition extract_video_id (raw_value : json) : string :=
  if negb (truthy raw_value) then ""
  else
    match raw_value with
    | JList [] => ""
    | JList (JDict first_item :: _) => strip (py_str (dget_or "text" (JStr "") first_item))
    | JList (first_item :: _) => strip (py_str first_item)
    | _ => strip (py_str raw_value)
    end.

(** [record.get("fields", {}).get("视频ID")] *)
Definition video_id_of (r : record) : string :=
  extract_video_id (dget_or "视频ID" JNull (fields r)).

(** The body of the grouping loop of [cmd_sync]. *)
Definition add_record (video_groups : list (string * group)) (r : record)
  : list (string * group) :=
  let video_id := video_id_of r in
  if is_empty video_id then video_groups
  else
    match dget video_id video_groups with
    | None => dset video_id {| master := r; duplicates := [] |} video_groups
    | Some g =>
        dset video_id {| master := master g; duplicates := duplicates g ++ [r] |}
          video_groups
    end.

Definition group_records (records : list record) : list (string * group) :=
  fold_left add_record records [].

(** [desc_value], from [desc_raw]. *)
Definition desc_value_of (desc_raw : json) : json :=
  match desc_raw with
  | JList [] => JStr ""
  | JList (JDict first_item :: _) => dget_or "text" (JStr "") first_item
  | JList (first_item :: _) => JStr (py_str first_item)
  | _ => if truthy desc_raw then JStr (py_str desc_raw) else JStr ""
  end.

(** [desc_value in ["视频已下架", ""] or desc_value.startswith("⚠️")]:
    a value that is not a string is in no list of strings and has no
    [startswith]. *)
Definition is_error_desc (desc_value : json) : result bool :=
  match desc_value with
  | JStr s => Ok (String.eqb s removed_title || String.eqb s "" || startswith warning_mark s)
  | _ => Raise AttributeError
  end.

Definition is_complete (master_fields : dict) : result bool :=
  let has_likes := truthy (dget_or "点赞数" JNull master_fields) in
  let has_plays := truthy (dget_or "播放量" JNull master_fields) in
  let desc_raw := dget_or "标题描述" (JStr "") master_fields in
  let desc_value := desc_value_of desc_raw in
  let+ is_error := is_error_desc desc_value in
  let has_valid_desc := truthy desc_value && negb is_error in
  Ok (has_valid_desc && (has_likes || has_plays)).

(** The loop that fills [videos_to_fetch]. *)
Fixpoint select_videos_to_fetch (force : bool) (video_groups : list (string * group))
  : result (list string) :=
  match video_groups with
  | [] => Ok []
  | (vid, g) :: rest =>
      let+ complete := is_complete (fields (master g)) in
      let+ more := select_videos_to_fetch force rest in
      Ok (if force || negb complete then vid :: more else more)
  end.

(** [DouyinParser.parse_video]: it reads the clock and rounds floating-point
    values; the planner only tests its result for truthiness and passes it on,
    so it is a parameter here. *)
Variable parse_video : json -> result json.

(** [parsed_results], built from [batch_results]: the entries with a truthy
    record that the parser accepts. *)
Definition parse_results (batch_results : gmap string json) : gmap string json :=
  omap (fun raw_data =>
          if truthy raw_data then
            match parse_video raw_data with
            | Ok parsed_data => Some parsed_data
            | Raise _ => None
            end
          else None) batch_results.

Definition removed_update (master_record : record) : update :=
  {| update_record_id := record_id master_record;
     update_fields := JDict [("标题描述", JStr removed_title)] |}.

(** The body of the loop that fills [updates]: what one group contributes. *)
Definition update_for (videos_to_fetch : list string) (parsed_results : gmap string json)
    (video_id : string) (g : group) : list update :=
  if existsb (String.eqb video_id) videos_to_fetch then
    match parsed_results !! video_id with
    | Some parsed_data =>
        if truthy parsed_data
        then [{| update_record_id := record_id (master g); update_fields := parsed_data |}]
        else [removed_update (master g)]
    | None => [removed_update (master g)]
    end
  else [].

Fixpoint build_updates (videos_to_fetch : list string) (parsed_results : gmap string json)
    (video_groups : list (string * group)) : list update :=
  match video_groups with
  | [] => []
  | (video_id, g) :: rest =>
      update_for videos_to_fetch parsed_results video_id g
        ++ build_updates videos_to_fetch parsed_results rest
  end.


(** ** Notions used to state the properties *)



(** The normalized record of the fetch adapter: [code] is 0 and [data] holds
    the fields that all its producers write. *)
Definition record_keys : list string :=
  ["aweme_id"; "share_url"; "desc"; "create_time"; "author"; "statistics"].

Definition is_metadata_record (v : json) : bool :=
  match v with
  | JDict r =>
      match dget "code" r, dget "data" r with
      | Some (JInt 0), Some (JDict dd) =>
          forallb (fun k => has_key k dd) record_keys &&
          match dget "statistics" dd with Some (JDict _) => true | _ => false end
      | _, _ => false
      end
  | _ => false
  end.

(** What a value of the batch mapping may be. *)
Definition none_or_record (v : json) : Prop :=
  v = JNull \/ is_metadata_record v = true.

(** The log of a retry loop: the blocks of the attempts, a 2-second sleep
    between one block and the next. *)
Fixpoint join_sleeps (blocks : list (list event)) : list event :=
  match blocks with
  | [] => []
  | [b] => b
  | b :: rest => b ++ EvSleep 2 :: join_sleeps rest
  end.

(** One attempt of [fetch_video]: the request, and on a 404 the fallback
    request. *)
Definition is_attempt_block (api : string) (b : list event) : Prop :=
  b = [EvGet api 30] \/ b = [EvGet api 30; EvGet mobile_url 20].

Definition is_head (e : event) : Prop := exists url, e = EvHead url 10.

Definition is_supplement_event (e : event) : Prop :=
  e = EvGet stats_url 10 \/ e = EvSleep 1.


(** [post m Q]: when [m] returns, its value satisfies [Q]. *)
Definition post {A} (m : M A) (Q : A -> Prop) : Prop :=
  forall w, match m w with (Ok a, _) => Q a | (Raise _, _) => True end.

(** [total m]: [m] returns, whatever the world. *)
Definition total {A} (m : M A) : Prop :=
  forall w, exists a w', m w = (Ok a, w').

Definition returns_record (r : ctl * attempt_state) : Prop :=
  match fst r with
  | Return v => is_metadata_record v = true
  | _ => True
  end.

(** Every value of [results] is [None] or a record. *)
Definition good (results : dict) : Prop :=
  forall k v, dget k results = Some v -> none_or_record v.

(** [results'] has the keys of [results], and maybe more. *)
Definition keeps_keys (results results' : dict) : Prop :=
  forall k, has_key k results = true -> has_key k results' = true.

(** What one pass of [mark_missing] guarantees. *)
Definition marked (batch_ids : list string) (results results' : dict) : Prop :=
  good results' /\ keeps_keys results results' /\
  forall id, In id batch_ids -> has_key id results' = true.

(** [quiet p m]: whatever its outcome, [m] adds to the log only events that
    satisfy [p]. *)
Definition quiet {A} (p : event -> Prop) (m : M A) : Prop :=
  forall w, exists evs, trace (snd (m w)) = trace w ++ evs /\ Forall p evs.

(** ** Notions for the further properties *)

(** The [statistics] dict of [tik_data]; empty when there is none in use. *)
Definition statistics_in (tik_data : json) : dict :=
  match tik_data with
  | JDict t =>
      match dget "statistics" t with
      | Some (JDict statistics) => statistics
      | _ => []
      end
  | _ => []
  end.

(** No counter that was a number went down ([.get(key, 0)] on both sides). *)
Definition not_lowered (old new : dict) : Prop :=
  forall key w,
    as_number (dget_or key (JInt 0) old) = Some w ->
    exists w', as_number (dget_or key (JInt 0) new) = Some w' /\ (w <= w')%Z.

(** [k] times the event [e], with [pause] between one and the next. *)
Fixpoint request_train (e pause : event) (k : nat) : list event :=
  match k with
  | O => []
  | S O => [e]
  | S k' => e :: pause :: request_train e pause k'
  end.

(** What [merge_into] can do to [tik_data]. *)
Definition gently_changed (tik_data tik_data' : json) : Prop :=
  not_lowered (statistics_in tik_data) (statistics_in tik_data') /\
  (forall t, tik_data = JDict t ->
     exists t', tik_data' = JDict t' /\
                forall k, k <> "statistics" -> dget k t' = dget k t) /\
  ((forall t, tik_data <> JDict t) -> tik_data' = tik_data).

(** [updated_count], as the update loop of [cmd_sync] counts it. *)
Fixpoint updated_count (videos_to_fetch : list string) (parsed_results : gmap string json)
    (video_groups : list (string * group)) : Z :=
  match video_groups with
  | [] => 0
  | (video_id, g) :: rest =>
      ((if existsb (String.eqb video_id) videos_to_fetch then
          match parsed_results !! video_id with
          | Some parsed_data => if truthy parsed_data then 1 else 0
          | None => 0
          end
        else 0)
       + updated_count videos_to_fetch parsed_results rest)%Z
  end.

(** The [result] that [cmd_sync] reports. *)
Record sync_result : Type := {
  total_records : Z;
  unique_videos : Z;
  updated : Z;
  skipped : Z;
  failed : Z
}.

Definition sync_result_of (records : list record) (video_groups : list (string * group))
    (videos_to_fetch : list string) (parsed_results : gmap string json) : sync_result :=
  let updated_count := updated_count videos_to_fetch parsed_results video_groups in
  {| total_records := Z.of_nat (List.length records);
     unique_videos := Z.of_nat (List.length video_groups);
     updated := updated_count;
     skipped := (Z.of_nat (List.length video_groups)
                 - Z.of_nat (List.length videos_to_fetch))%Z;
     failed := (Z.of_nat (List.length videos_to_fetch) - updated_count)%Z |}.

(** The groups whose id is in [videos_to_fetch], in group order. *)
Definition fetched_groups (videos_to_fetch : list string)
    (video_groups : list (string * group)) : list (string * group) :=
  List.filter (fun kg => existsb (String.eqb (fst kg)) videos_to_fetch) video_groups.

(** ** scripts/config.py *)

(** [os.environ.get(name)] *)
Definition environ_get (environ : string -> option string) (name : string) : json :=
  match environ name with
  | Some v => JStr v
  | None => JNull
  end.

Definition get_config (environ : string -> option string) : dict :=
  [("feishu_app_id", environ_get environ "FEISHU_APP_ID");
   ("feishu_app_secret", environ_get environ "FEISHU_APP_SECRET");
   ("douyin_api_key", environ_get environ "DOUYIN_API_KEY");
   ("douyin_api_url",
    match environ "DOUYIN_API_URL" with
    | Some v => JStr v
    | None => JStr default_api_url
    end)].

(** The list [missing] of [validate_config]. *)
Definition missing_variables (config : dict) (require_feishu : bool) : list string :=
  (if truthy (dget_or "douyin_api_key" JNull config) then [] else ["DOUYIN_API_KEY"]) ++
  (if require_feishu then
     (if truthy (dget_or "feishu_app_id" JNull config) then [] else ["FEISHU_APP_ID"]) ++
     (if truthy (dget_or "feishu_app_secret" JNull config) then [] else ["FEISHU_APP_SECRET"])
   else []).

Definition validate_config (config : dict) (require_feishu : bool) : bool * string :=
  match missing_variables config require_feishu with
  | [] => (true, "")
  | missing => (false, "缺少必需的环境变量: " +:+ String.concat ", " missing)
  end.

(** The variable is set, and not to the empty string. *)
Definition is_set (environ : string -> option string) (name : string) : bool :=
  match environ name with
  | Some v => negb (is_empty v)
  | None => false
  end.

(** ** scripts/yuntu_scraper.py: the TikHub fallback *)

(** The dict that [fetch_video_from_tikhub] builds from [video_data];
    [scraped_at] is [datetime.now().isoformat()]. *)
Definition tikhub_record (video_id scraped_at : string) (video_data : json) : result json :=
  let+ title := py_get video_data "desc" (JStr "") in
  let+ statistics := py_get video_data "statistics" (JDict []) in
  let+ views := py_get statistics "play_count" (JStr "") in
  let+ author := py_get video_data "author" (JDict []) in
  let+ talent_name := py_get author "nickname" (JStr "") in
  let+ followers := py_get author "follower_count" (JStr "") in
  let+ douyin_id := py_get author "unique_id" (JStr "") in
  Ok (JDict [("video_id", JStr video_id);
             ("title", title);
             ("publish_date", JStr "");
             ("views", JStr (py_str views));
             ("interaction_rate", JStr "");
             ("completion_rate", JStr "");
             ("talent_name", talent_name);
             ("talent_followers", JStr (py_str followers));
             ("douyin_id", douyin_id);
             ("content_formula", JList []);
             ("raw_script", JStr "");
             ("source", JStr "tikhub");
             ("source_url", JStr ("https://www.douyin.com/video/" +:+ video_id));
             ("scraped_at", JStr scraped_at);
             ("note", JStr "TikHub API 不提供视频脚本/字幕，仅返回元数据")]).

(** [rt] is the runtime of the client that the function builds with
    [DouyinAPI(api_key)]. *)
Definition fetch_video_from_tikhub (video_id scraped_at : string) : M json :=
  catch any_exception
    (let* video_data := fetch_video video_id in
     if truthy video_data then lift (tikhub_record video_id scraped_at video_data)
     else ret JNull)
    (fun _ => ret JNull).

(** What [fetch_video] returns for the id [aweme_id], when not [None]: [code]
    0 and a [data] dict whose [share_url] is empty (a removed video) or the
    canonical URL of the id. *)
Definition is_envelope (aweme_id : string) (v : json) : Prop :=
  exists d,
    v = JDict [("code", JInt 0); ("data", JDict d)] /\
    (dget "share_url" d = Some (JStr "") \/
     dget "share_url" d = Some (JStr ("https://www.douyin.com/video/" +:+ aweme_id))).

Definition none_or_envelope (aweme_id : string) (v : json) : Prop :=
  v = JNull \/ is_envelope aweme_id v.

Definition returns_envelope (aweme_id : string) (r : ctl * attempt_state) : Prop :=
  match fst r with
  | Return v => is_envelope aweme_id v
  | _ => True
  end.

(** ** scripts/feishu_client.py: [update_records] *)

Definition FEISHU_OPEN_API_URL : string := "https://open.feishu.cn/open-apis/bitable/v1/apps".

(** [response.raise_for_status()]: an [HTTPError], which is a
    [RequestException], for a status from 400 to 599. *)
Definition raise_for_status (resp : reply) : M unit :=
  if ((400 <=? status_code resp) && (status_code resp <? 600))%Z
  then raise RequestException
  else ret tt.

(** [for i in range(0, len(records_updates), batch_size)]; the reply's [code]
    only decides what is logged. *)
Fixpoint update_batches (url : string) (batches : list (list update)) : M unit :=
  match batches with
  | [] => ret tt
  | batch :: rest =>
      let* resp := request (EvPost url 60) in
      let* _ := raise_for_status resp in
      let* data := lift (body resp) in
      let* code := lift (py_get data "code" JNull) in
      update_batches url rest
  end.

Definition batch_update_url (app_token table_id : string) : string :=
  FEISHU_OPEN_API_URL +:+ "/" +:+ app_token +:+ "/tables/" +:+ table_id
    +:+ "/records/batch_update".

Definition update_records (app_token table_id : string) (records_updates : list update)
  : M unit :=
  match records_updates with
  | [] => ret tt
  | _ => update_batches (batch_update_url app_token table_id) (chunks 500 records_updates)
  end.

(** A reply that [update_records] goes past: no exception, a status outside
    400..599, a body that is a JSON object. *)
Definition accepted (r : result reply) : bool :=
  match r with
  | Ok resp =>
      negb ((400 <=? status_code resp) && (status_code resp <? 600))%Z &&
      match body resp with Ok (JDict _) => true | _ => false end
  | Raise _ => false
  end.

(** ** scripts/douyin_api.py: [translate_content] *)

(** [len(s)] and [s[:n]] count code points; in UTF-8 those are the bytes that
    are not continuation bytes (128 to 191). *)
Definition is_continuation (c : ascii) : bool :=
  let n := nat_of_ascii c in ((128 <=? n) && (n <=? 191))%nat.

Fixpoint py_len (s : string) : nat :=
  match s with
  | EmptyString => 0
  | String c s' => (if is_continuation c then 0 else 1) + py_len s'
  end.

Fixpoint py_prefix (n : nat) (s : string) : string :=
  match s with
  | EmptyString => EmptyString
  | String c s' =>
      if is_continuation c then String c (py_prefix n s')
      else
        match n with
        | O => EmptyString
        | S n' => String c (py_prefix n' s')
        end
  end.

Definition translate_url : string :=
  "https://api.tikhub.io/api/v1/tiktok/app/v3/fetch_content_translate".

(** [str(e)] for an exception. *)
Variable exn_text : exn -> string.

Definition translate_failure (error : json) (content : string) : json :=
  JDict [("success", JBool false); ("error", error); ("source", JStr content)].

Definition translate_content (content target_lang : string) : M json :=
  if is_empty content then ret JNull
  else
    let content :=
      if (5000 <? py_len content)%nat then py_prefix 5000 content else content in
    catch any_exception
      (let* resp := request (EvPost translate_url 30) in
       if (status_code resp =? 200)%Z then
         let* data := lift (body resp) in
         let* code := lift (py_get data "code" JNull) in
         if eq_int 200 code then
           let* translated := lift (py_get data "data" JNull) in
           ret (JDict [("success", JBool true);
                       ("source", JStr content);
                       ("target_lang", JStr target_lang);
                       ("translated", translated);
                       ("raw_response", data)])
         else
           let* message := lift (py_get data "message" JNull) in
           ret (translate_failure message content)
       else
         ret (translate_failure (JStr ("HTTP " +:+ str_of_Z (status_code resp))) content))
      (fun e => ret (translate_failure (JStr (exn_text e)) content)).

(** ** scripts/douyin_parser.py

    The parser itself; the rounding and the clock come from [parser_env]. *)

(** [x or y] *)
Definition py_or (x y : json) : json := if truthy x then x else y.

(** [int(x)] *)
Definition py_int (x : json) : result Z :=
  match x with
  | JInt z => Ok z
  | JBool b => Ok (Z.b2z b)
  | JStr s =>
      match py_int_of_str rt s with
      | Some z => Ok z
      | None => Raise ValueError
      end
  | _ => Raise TypeError
  end.

(** [round(x / d, 2)]: a [TypeError] unless [x] is a number. *)
Definition div_round2 (pe : parser_env) (x : json) (d : Z) : result json :=
  match as_number x with
  | Some n => Ok (round2 pe n d)
  | None => Raise TypeError
  end.

Definition _timestamp_to_datetime (timestamp : json) : Z :=
  if truthy timestamp then
    match py_int timestamp with
    | Ok z => (z * 1000)%Z
    | Raise _ => 0%Z
    end
  else 0%Z.

(** The loop of [_extract_hashtags] over the items of a list. *)
Fixpoint hashtags_of (items : list json) : result (list string) :=
  match items with
  | [] => Ok []
  | item :: rest =>
      let+ type := py_get item "type" JNull in
      let+ here :=
        (if eq_int 1 type then
           let+ tag := py_get item "hashtag_name" (JStr "") in
           Ok (if truthy tag then ["#" +:+ py_str tag] else [])
         else Ok []) in
      let+ more := hashtags_of rest in
      Ok (here ++ more)
  end.

(** [for item in text_extra]: a list gives its items; the items of a string
    or of a dict are strings, which have no [get]; [None] and numbers cannot
    be iterated. *)
Definition _extract_hashtags (text_extra : json) : result string :=
  match text_extra with
  | JList items =>
      let+ hashtags := hashtags_of items in
      Ok (String.concat " " hashtags)
  | JStr s => if is_empty s then Ok "" else Raise AttributeError
  | JDict [] => Ok ""
  | JDict _ => Raise AttributeError
  | _ => Raise TypeError
  end.

(** [{"text": text, "link": url} if url else None] *)
Definition link_cell (text : string) (url : json) : json :=
  if truthy url then JDict [("text", JStr text); ("link", url)] else JNull.

(** The dict of the first [result.update]: [int(stats.get(key, 0))] for the
    five counters in turn. *)
Definition read_counters (stats : json) : result dict :=
  let+ play := rbind (py_get stats "play_count" (JInt 0)) py_int in
  let+ digg := rbind (py_get stats "digg_count" (JInt 0)) py_int in
  let+ comment := rbind (py_get stats "comment_count" (JInt 0)) py_int in
  let+ share := rbind (py_get stats "share_count" (JInt 0)) py_int in
  let+ collect := rbind (py_get stats "collect_count" (JInt 0)) py_int in
  Ok [("播放量", JInt play); ("点赞数", JInt digg); ("评论数", JInt comment);
      ("分享数", JInt share); ("收藏数", JInt collect)].

Definition zero_counters : dict :=
  [("播放量", JInt 0); ("点赞数", JInt 0); ("评论数", JInt 0);
   ("分享数", JInt 0); ("收藏数", JInt 0)].

(** [try: result.update(...)  except (ValueError, TypeError): result.update(zeros)] *)
Definition counters_of (stats : json) : result dict :=
  match read_counters stats with
  | Ok counters => Ok counters
  | Raise ValueError | Raise TypeError => Ok zero_counters
  | Raise e => Raise e
  end.

(** The five product columns.  [len] of a number raises; a dict from JSON has
    no key [0]; the first item of a string is a string, which has no [get]. *)
Definition product_columns (pe : parser_env) (promotions : json) : result dict :=
  if truthy promotions then
    let+ product :=
      match promotions with
      | JList (product :: _) => Ok product
      | JStr _ => Raise AttributeError
      | JDict _ => Raise KeyError
      | _ => Raise TypeError
      end in
    let+ title := py_get product "title" (JStr "") in
    let+ price := py_get product "price" (JInt 0) in
    let+ price_yuan := div_round2 pe price 100 in
    let+ sales := py_get product "sales" (JInt 0) in
    let+ product_url := py_get product "url" (JStr "") in
    Ok [("是否挂车", JBool true); ("商品标题", title); ("商品价格(元)", price_yuan);
        ("商品销量", sales); ("商品链接", link_cell "查看商品" product_url)]
  else
    Ok [("是否挂车", JBool false); ("商品标题", JStr ""); ("商品价格(元)", JInt 0);
        ("商品销量", JInt 0); ("商品链接", JNull)].

(** [result['标题描述'][:30] if result['标题描述'] else '无标题'] of the log
    line: a truthy title that is neither a string nor a list cannot be
    sliced. *)
Definition title_for_log (desc : json) : result unit :=
  if truthy desc then
    match desc with
    | JStr _ | JList _ => Ok tt
    | _ => Raise TypeError
    end
  else Ok tt.

(** The body of the [try] of [DouyinParser.parse_video]. *)
Definition parse_video_body (pe : parser_env) (api_response : json) : result json :=
  let+ video_data := py_get api_response "data" (JDict []) in
  if negb (truthy video_data) then Ok JNull
  else
    let+ share_url := py_get video_data "share_url" JNull in
    let video_url := py_or share_url (JStr "") in
    let+ status_obj := py_get video_data "status" (JDict []) in
    let+ is_deleted :=
      (if truthy status_obj then
         let+ is_delete := py_get status_obj "is_delete" JNull in
         Ok (match is_delete with JBool true => true | _ => false end)
       else Ok false) in
    let+ desc := py_get video_data "desc" JNull in
    let desc := py_or desc (JStr "") in
    let+ aweme_id := py_get video_data "aweme_id" JNull in
    let aweme_id := py_str (py_or aweme_id (JStr "")) in
    let+ create_time := py_get video_data "create_time" JNull in
    let desc :=
      if is_deleted
         || (negb (is_empty aweme_id) && negb (truthy desc) && negb (truthy create_time))
      then JStr "视频已下架" else desc in
    let+ author := py_get video_data "author" JNull in
    let+ nickname := py_get (or_empty_dict author) "nickname" JNull in
    let+ unique_id := py_get (or_empty_dict author) "unique_id" JNull in
    let+ created := py_get video_data "create_time" (JInt 0) in
    let+ duration := py_get video_data "duration" JNull in
    let+ seconds := div_round2 pe (py_or duration (JInt 0)) 1000 in
    let result :=
      [("视频ID", JStr aweme_id);
       ("视频链接", link_cell "查看视频" video_url);
       ("标题描述", desc);
       ("作者昵称", py_or nickname (JStr ""));
       ("作者ID", py_or unique_id (JStr ""));
       ("发布时间", JInt (_timestamp_to_datetime created));
       ("视频时长(秒)", seconds);
       ("采集时间", JInt (now_ms pe))] in
    let+ stats := py_get video_data "statistics" (JDict []) in
    let+ counters := counters_of stats in
    let+ data_source := py_get video_data "_data_source" (JStr "Web API") in
    let+ text_extra := py_get video_data "text_extra" (JList []) in
    let+ hashtags := _extract_hashtags text_extra in
    let+ promotions := py_get video_data "promotions" (JList []) in
    let+ product := product_columns pe promotions in
    let result :=
      result ++ counters ++
      [("数据来源", data_source); ("话题标签", JStr hashtags)] ++ product in
    let+ _ := title_for_log (dget_or "标题描述" JNull result) in
    Ok (JDict result).

(** [DouyinParser.parse_video]: any exception gives [None]. *)
Definition DouyinParser_parse_video (pe : parser_env) (api_response : json) : json :=
  match parse_video_body pe api_response with
  | Ok result => result
  | Raise _ => JNull
  end.

(** The twenty columns of a parsed record, in the order they are written. *)
Definition parsed_columns : list string :=
  ["视频ID"; "视频链接"; "标题描述"; "作者昵称"; "作者ID"; "发布时间"; "视频时长(秒)";
   "采集时间"; "播放量"; "点赞数"; "评论数"; "分享数"; "收藏数"; "数据来源"; "话题标签";
   "是否挂车"; "商品标题"; "商品价格(元)"; "商品销量"; "商品链接"].

Definition counter_columns : list (string * string) :=
  [("播放量", "play_count"); ("点赞数", "digg_count"); ("评论数", "comment_count");
   ("分享数", "share_count"); ("收藏数", "collect_count")].

(** * Properties *)

(** ** Strings and regular-expression search *)

Lemma skip_empty (n : nat) : skip n EmptyString = EmptyString.
Proof. destruct n; reflexivity. Qed.

Lemma skip_skip (a b : nat) (s : string) : skip a (skip b s) = skip (b + a) s.
Proof.
  revert s; induction b as [|b IH]; intros s; simpl; [reflexivity|].
  destruct s; simpl; [apply skip_empty | apply IH].
Qed.


Lemma take_app_exact (a b : string) : take (String.length a) (a +:+ b) = a.
Proof. induction a as [|c a IH]; simpl; [destruct b; reflexivity | now rewrite IH]. Qed.

Lemma skip_app_exact (a b : string) : skip (String.length a) (a +:+ b) = b.
Proof. induction a as [|c a IH]; simpl; [reflexivity | exact IH]. Qed.



Lemma all_chars_app (p : ascii -> bool) (a b : string) :
  all_chars p (a +:+ b) = all_chars p a && all_chars p b.
Proof. induction a as [|c a IH]; simpl; [reflexivity | now rewrite IH, andb_assoc]. Qed.

Lemma take_while_all (p : ascii -> bool) (s : string) : all_chars p (take_while p s) = true.
Proof. induction s as [|c s IH]; simpl; [reflexivity|]. destruct (p c) eqn:E; simpl; [now rewrite E|reflexivity]. Qed.

Lemma take_while_prefix (p : ascii -> bool) (s : string) :
  exists rest, s = take_while p s +:+ rest.
Proof.
  induction s as [|c s [rest IH]]; simpl; [now exists EmptyString|].
  destruct (p c); [exists rest; simpl; now rewrite <- IH | now exists (String c s)].
Qed.

Lemma take_take_app (n : nat) (a b : string) :
  n <= String.length a -> take n (a +:+ b) = take n a.
Proof.
  revert a; induction n as [|n IH]; intros [|c a] H; simpl in *; try reflexivity; try lia.
  rewrite IH; [reflexivity | lia].
Qed.

Lemma take_length_exact (n : nat) (s : string) :
  n <= String.length s -> String.length (take n s) = n.
Proof.
  revert s; induction n as [|n IH]; intros [|c s] H; simpl in *; try reflexivity; try lia.
  rewrite IH; [reflexivity | lia].
Qed.

Lemma all_chars_take (p : ascii -> bool) (n : nat) (s : string) :
  all_chars p s = true -> all_chars p (take n s) = true.
Proof.
  revert s; induction n as [|n IH]; intros [|c s] H; simpl in *; try reflexivity.
  apply andb_true_iff in H as [-> H]; simpl; now apply IH.
Qed.

Lemma startswith_app (p s : string) : startswith p (p +:+ s) = true.
Proof.
  unfold startswith; induction p as [|c p IH]; simpl; [now destruct s|].
  destruct (ascii_dec c c); [exact IH | congruence].
Qed.

Lemma startswith_split (p s : string) :
  startswith p s = true -> s = p +:+ skip (String.length p) s.
Proof.
  unfold startswith; revert s; induction p as [|c p IH]; intros [|d s] H;
    simpl in *; try reflexivity; try discriminate.
  destruct (ascii_dec c d) as [->|]; [|discriminate].
  f_equal; now apply IH.
Qed.

Lemma contains_unfold (sub s : string) :
  contains sub s =
  startswith sub s || match s with EmptyString => false | String _ s' => contains sub s' end.
Proof. destruct s; reflexivity. Qed.

Lemma contains_skip (sub s : string) (i : nat) :
  startswith sub (skip i s) = true -> contains sub s = true.
Proof.
  revert s; induction i as [|i IH]; intros s H; rewrite contains_unfold.
  - change (skip 0 s) with s in H. now rewrite H.
  - destruct s as [|c s].
    + rewrite skip_empty in H. now rewrite H.
    + change (skip (S i) (String c s)) with (skip i s) in H.
      rewrite (IH _ H); apply orb_true_r.
Qed.

Section Search.

Variable here : string -> option string.

Lemma re_search_none (s : string) :
  re_search here s = None -> forall i, here (skip i s) = None.
Proof.
  induction s as [|c s IH]; simpl; intros H i.
  - rewrite skip_empty. now destruct (here EmptyString).
  - destruct (here (String c s)) eqn:E; [discriminate|].
    destruct i; simpl; [exact E | now apply IH].
Qed.

Lemma re_search_some (s m : string) :
  re_search here s = Some m ->
  exists i, here (skip i s) = Some m /\ forall j, j < i -> here (skip j s) = None.
Proof.
  induction s as [|c s IH]; simpl; intros H.
  - destruct (here EmptyString) eqn:E; [|discriminate].
    exists 0; simpl; split; [congruence | intros; lia].
  - destruct (here (String c s)) eqn:E.
    + exists 0; simpl; split; [congruence | intros; lia].
    + destruct (IH H) as (i & Hi & Hmin).
      exists (S i); simpl; split; [exact Hi|].
      intros [|j] Hj; simpl; [exact E | apply Hmin; lia].
Qed.

Lemma re_search_first (s m : string) (i : nat) :
  here (skip i s) = Some m ->
  (forall j, j < i -> here (skip j s) = None) ->
  re_search here s = Some m.
Proof.
  revert s; induction i as [|i IH]; intros s Hi Hmin; simpl in Hi.
  - destruct s; simpl; now rewrite Hi.
  - destruct s as [|c s]; simpl in *.
    + now rewrite Hi.
    + specialize (Hmin 0 ltac:(lia)) as H0; simpl in H0; rewrite H0.
      apply IH; [exact Hi|].
      intros j Hj; apply (Hmin (S j)); lia.
Qed.


End Search.

Lemma d19_here_spec (s m : string) :
  d19_here s = Some m <->
  take 19 s = m /\ String.length m = 19 /\ all_chars is_digit m = true.
Proof.
  unfold d19_here; cbv zeta. remember (take 19 s) as t eqn:T. split.
  - destruct (String.length t =? 19)%nat eqn:L;
      destruct (all_chars is_digit t) eqn:D; cbn [andb]; intros H; try discriminate.
    injection H as <-. apply Nat.eqb_eq in L. auto.
  - intros (<- & L & D). rewrite D. apply Nat.eqb_eq in L. rewrite L. reflexivity.
Qed.


Lemma space_not_digit (c : ascii) : is_space c = true -> is_digit c = false.
Proof.
  unfold is_space, is_digit; intros H.
  destruct (48 <=? nat_of_ascii c)%nat eqn:A; [|reflexivity].
  destruct (nat_of_ascii c <=? 57)%nat eqn:B; [|reflexivity].
  apply Nat.leb_le in A, B.
  apply orb_true_iff in H as [H|H]; apply andb_true_iff in H as [H1 H2];
    apply Nat.leb_le in H1, H2; lia.
Qed.












(** ** The identifier extractor *)

Lemma _resolve_redirects_ok (url : string) (w : world) :
  exists s w', _resolve_redirects url w = (Ok s, w').
Proof.
  unfold _resolve_redirects.
  destruct (contains "v.douyin.com" url || contains "douyin.com/share/" url);
    [|unfold ret; eauto].
  unfold catch, bind, request, ret, any_exception.
  destruct (net rt (tick w)); eauto.
Qed.

Lemma redirect_resolved_ok (input_str : string) (w : world) :
  exists s w', redirect_resolved input_str w = (Ok s, w').
Proof.
  unfold redirect_resolved.
  destruct (contains "http" (strip input_str)); [|unfold ret; eauto].
  destruct (re_search url_here (strip input_str)); [|unfold ret; eauto].
  apply _resolve_redirects_ok.
Qed.

Lemma redirect_resolved_plain (input_str : string) (w : world) :
  contains "http" (strip input_str) = false ->
  redirect_resolved input_str w = (Ok (strip input_str), w).
Proof. unfold redirect_resolved; intros ->; reflexivity. Qed.

Lemma _extract_aweme_id_eq (input_str s : string) (w w' : world) :
  redirect_resolved input_str w = (Ok s, w') ->
  _extract_aweme_id input_str w = (Ok (extract_from s), w').
Proof. unfold _extract_aweme_id, bind, ret; now intros ->. Qed.

Lemma lit_digits_here_spec (lit t id : string) :
  lit_digits_here lit t = Some id ->
  startswith lit t = true /\
  id = take_while is_digit (skip (String.length lit) t) /\
  id <> EmptyString.
Proof.
  unfold lit_digits_here. destruct (startswith lit t); [|discriminate].
  destruct (take_while is_digit (skip (String.length lit) t)) eqn:E; simpl; [discriminate|].
  intros [= <-]; repeat split; congruence.
Qed.

Lemma first_legacy_match_spec (patterns : list string) (s id : string) :
  first_legacy_match patterns s = Some id ->
  exists p i, In p patterns /\ lit_digits_here p (skip i s) = Some id.
Proof.
  induction patterns as [|p ps IH]; simpl; [discriminate|].
  destruct (re_search (lit_digits_here p) s) eqn:E.
  - intros [= <-]. apply re_search_some in E as (i & Hi & _). eauto.
  - intros H. destruct (IH H) as (q & i & Hq & Hi). eauto.
Qed.

(** A digit run of 19 or more characters starts with a 19-digit window. *)
Lemma long_run_has_window (t : string) :
  19 <= String.length (take_while is_digit t) -> exists m, d19_here t = Some m.
Proof.
  intros L. destruct (take_while_prefix is_digit t) as (rest & E).
  exists (take 19 (take_while is_digit t)).
  apply d19_here_spec. repeat split.
  - rewrite E at 1. now apply take_take_app.
  - now apply take_length_exact.
  - apply all_chars_take, take_while_all.
Qed.

(** What steps 2 and 3 can return. *)
Lemma extract_from_shape (s id : string) :
  extract_from s = Some id ->
  all_chars is_digit id = true /\
  ((re_search d19_here s = Some id /\ String.length id = 19) \/
   (re_search d19_here s = None /\ 1 <= String.length id <= 18 /\
    exists p, In p legacy_patterns /\ contains (p +:+ id) s = true)).
Proof.
  unfold extract_from. destruct (re_search d19_here s) eqn:E.
  - intros [= <-]. pose proof E as E'.
    apply re_search_some in E' as (i & Hi & _).
    apply d19_here_spec in Hi as (_ & L & D). auto.
  - intros H. apply first_legacy_match_spec in H as (p & i & Hp & Hi).
    apply lit_digits_here_spec in Hi as (Hpre & Hid & Hne).
    assert (D : all_chars is_digit id = true) by (subst id; apply take_while_all).
    split; [exact D|]. right. split; [reflexivity|]. split.
    + split; [destruct id; [congruence | simpl; lia]|].
      destruct (le_lt_dec 19 (String.length id)) as [L|L]; [|lia].
      exfalso. rewrite Hid in L. apply long_run_has_window in L as (m & Hm).
      rewrite skip_skip in Hm.
      pose proof (re_search_none _ _ E (i + String.length p)). congruence.
    + exists p. split; [exact Hp|]. apply (contains_skip _ _ i).
      apply startswith_split in Hpre. rewrite Hpre.
      destruct (take_while_prefix is_digit (skip (String.length p) (skip i s))) as (rest & R).
      rewrite R, <- Hid.
      replace (p +:+ id +:+ rest) with ((p +:+ id) +:+ rest).
      * apply startswith_app.
      * clear. induction p as [|c p IH]; simpl; [reflexivity | now rewrite IH].
Qed.



(** ** Insertion-ordered dicts *)

Section Dict.

Context {V : Type}.
Implicit Types (d : list (string * V)) (k : string) (v : V).

Lemma dget_dset d k k' v :
  dget k (dset k' v d) = if String.eqb k k' then Some v else dget k d.
Proof.
  induction d as [|[k0 v0] d IH]; simpl.
  - destruct (String.eqb k k'); reflexivity.
  - destruct (String.eqb_spec k' k0) as [->|N]; simpl.
    + destruct (String.eqb k k0); reflexivity.
    + destruct (String.eqb_spec k k0) as [->|N'].
      * destruct (String.eqb_spec k0 k'); [congruence | reflexivity].
      * exact IH.
Qed.

Lemma dget_dset_same d k v : dget k (dset k v d) = Some v.
Proof. rewrite dget_dset. now rewrite String.eqb_refl. Qed.

Lemma dget_dset_other d k k' v : k <> k' -> dget k (dset k' v d) = dget k d.
Proof. intros N. rewrite dget_dset. now destruct (String.eqb_spec k k'). Qed.

Lemma has_key_dset d k k' v : has_key k d = true -> has_key k (dset k' v d) = true.
Proof.
  unfold has_key. rewrite dget_dset.
  destruct (String.eqb k k'); [reflexivity | auto].
Qed.


Lemma dget_none_keys d k : dget k d = None -> ~ In k (map fst d).
Proof.
  induction d as [|[k0 v0] d IH]; simpl; [tauto|].
  destruct (String.eqb_spec k k0) as [->|N]; [discriminate|].
  intros H [E|E]; [congruence | now apply IH].
Qed.

Lemma in_keys_dget d k : In k (map fst d) -> exists v, dget k d = Some v.
Proof.
  intros H. destruct (dget k d) eqn:E; [eauto|].
  now apply dget_none_keys in E.
Qed.

Lemma keys_dset d k v :
  map fst (dset k v d) = if has_key k d then map fst d else map fst d ++ [k].
Proof.
  unfold has_key. induction d as [|[k0 v0] d IH]; simpl; [reflexivity|].
  destruct (String.eqb_spec k k0) as [->|N]; simpl; [reflexivity|].
  rewrite IH. destruct (dget k d); reflexivity.
Qed.

Lemma NoDup_keys_dset d k v : NoDup (map fst d) -> NoDup (map fst (dset k v d)).
Proof.
  intros H. rewrite keys_dset. unfold has_key.
  destruct (dget k d) eqn:E; [exact H|].
  apply dget_none_keys in E.
  apply NoDup_app; rewrite ?list_elem_of_In; repeat split; auto.
  - intros x Hx Hk. apply list_elem_of_In in Hx, Hk.
    destruct Hk as [<-|[]]. contradiction.
  - apply NoDup_singleton.
Qed.


End Dict.

(** ** The sync planner *)



Lemma add_record_keys (video_groups : list (string * group)) (r : record) :
  NoDup (map fst video_groups) -> NoDup (map fst (add_record video_groups r)).
Proof.
  intros H. unfold add_record.
  destruct (is_empty (video_id_of r)); [exact H|].
  destruct (dget (video_id_of r) video_groups); now apply NoDup_keys_dset.
Qed.




Lemma fold_add_record_keys (records : list record) (acc : list (string * group)) :
  NoDup (map fst acc) -> NoDup (map fst (fold_left add_record records acc)).
Proof.
  revert acc; induction records as [|r rs IH]; intros acc H; simpl; [exact H|].
  apply IH. now apply add_record_keys.
Qed.



(** The normalized title is a string, unless the cell is rich text whose
    first segment carries a [text] that is not a string. *)
Lemma desc_value_of_string (desc_raw : json) :
  (forall first_item rest,
      desc_raw = JList (JDict first_item :: rest) ->
      exists t, dget_or "text" (JStr "") first_item = JStr t) ->
  exists s, desc_value_of desc_raw = JStr s.
Proof.
  intros H. destruct desc_raw as [| | | |l|]; simpl; eauto;
    try (match goal with |- context [if ?c then _ else _] => destruct c end; eauto).
  destruct l as [|[| | | | |first_item] rest]; eauto.
Qed.


Lemma select_forced (video_groups : list (string * group)) (ids : list string) :
  select_videos_to_fetch true video_groups = Ok ids -> ids = map fst video_groups.
Proof.
  revert ids; induction video_groups as [|[vid g] rest IH]; simpl; intros ids.
  - now intros [= <-].
  - destruct (is_complete (fields (master g))); simpl; [|discriminate].
    destruct (select_videos_to_fetch true rest); simpl; [|discriminate].
    intros [= <-]. f_equal. now apply IH.
Qed.

(** C7.  With [force], every group is marked for refresh whatever its
    classification: the planner can only return the ids of all the groups, in
    group order, and it does return them when the classification of every
    master row goes through. *)
Theorem force_marks_every_group (video_groups : list (string * group)) :
  (forall ids,
      select_videos_to_fetch true video_groups = Ok ids -> ids = map fst video_groups) /\
  ((forall k g,
       In (k, g) video_groups -> exists b, is_complete (fields (master g)) = Ok b) ->
   exists ids,
     select_videos_to_fetch true video_groups = Ok ids /\
     forall k g, In (k, g) video_groups -> In k ids).
Proof.
  split; [apply select_forced|].
  intros H. exists (map fst video_groups). split.
  - induction video_groups as [|[vid g] rest IH]; simpl; [reflexivity|].
    destruct (H vid g (or_introl eq_refl)) as [b ->]. simpl.
    rewrite IH; [reflexivity|]. intros k g' Hk. apply (H k g'). now right.
  - intros k g Hk. now apply (in_map fst) in Hk.
Qed.

Lemma in_build_updates (ids : list string) (parsed : gmap string json)
    (video_groups : list (string * group)) (u : update) :
  In u (build_updates ids parsed video_groups) <->
  exists vid g, In (vid, g) video_groups /\ In u (update_for ids parsed vid g).
Proof.
  induction video_groups as [|[vid g] rest IH]; simpl.
  - split; [tauto | now intros (? & ? & [] & _)].
  - rewrite in_app_iff, IH. split.
    + intros [H|(v & g' & H1 & H2)]; [exists vid, g; auto | exists v, g'; auto].
    + intros (v & g' & [E|H1] & H2); [injection E as -> ->; auto | right; eauto].
Qed.

Lemma existsb_eqb_in (k : string) (l : list string) :
  existsb (String.eqb k) l = true <-> In k l.
Proof.
  rewrite existsb_exists. split.
  - intros (x & Hx & E). apply String.eqb_eq in E. now subst.
  - intros H. exists k. split; [exact H | apply String.eqb_refl].
Qed.

(** C6.  An update comes from a group whose id is in [videos_to_fetch]: a
    group whose id is not there contributes none.  A group whose id is there
    and for which the fetch gave nothing ([None], or no entry) contributes one
    update, on its master row, whose fields are the title field alone, set to
    the sentinel. *)
Theorem updates_for_fetched_groups_only (videos_to_fetch : list string)
    (batch_results : gmap string json) (video_groups : list (string * group)) :
  let parsed_results := parse_results batch_results in
  (forall u,
      In u (build_updates videos_to_fetch parsed_results video_groups) <->
      exists vid g,
        In (vid, g) video_groups /\ In vid videos_to_fetch /\
        In u (update_for videos_to_fetch parsed_results vid g)) /\
  (forall vid g,
      ~ In vid videos_to_fetch ->
      update_for videos_to_fetch parsed_results vid g = []) /\
  (forall vid g,
      In vid videos_to_fetch ->
      batch_results !! vid = None \/ batch_results !! vid = Some JNull ->
      update_for videos_to_fetch parsed_results vid g =
      [{| update_record_id := record_id (master g);
          update_fields := JDict [("标题描述", JStr "视频已下架")] |}]).
Proof.
  intros parsed_results.
  assert (Off : forall vid g,
             ~ In vid videos_to_fetch ->
             update_for videos_to_fetch parsed_results vid g = []).
  { intros vid g N. unfold update_for.
    destruct (existsb (String.eqb vid) videos_to_fetch) eqn:E; [|reflexivity].
    apply existsb_eqb_in in E. contradiction. }
  split; [|split; [exact Off|]].
  - intros u. rewrite in_build_updates. split.
    + intros (vid & g & H1 & H2). exists vid, g. repeat split; auto.
      destruct (existsb (String.eqb vid) videos_to_fetch) eqn:E;
        [now apply existsb_eqb_in|].
      unfold update_for in H2. rewrite E in H2. destruct H2.
    + intros (vid & g & H1 & _ & H2). eauto.
  - intros vid g Hin Hnone. unfold update_for.
    apply existsb_eqb_in in Hin. rewrite Hin.
    assert (parsed_results !! vid = None) as ->; [|reflexivity].
    unfold parsed_results, parse_results. rewrite lookup_omap.
    destruct Hnone as [-> | ->]; reflexivity.
Qed.

(** ** The brand registry *)

(** C10.  After [add_brand], [get_brand_url] of the same key returns the
    dashboard URL that ends in "aadvid=" followed by the advertiser id, and
    the entries of all other keys are as before. *)
Theorem add_brand_then_get_brand_url (brand_key name aadvid industry : string)
    (st : brand_store) :
  get_brand_url brand_key (add_brand brand_key name aadvid industry st)
  = Ok (JStr ("https://yuntu.oceanengine.com/yuntu_brand/ecom/strategy/medium/talent_markting/hotcontent?"
              +:+ "aadvid=" +:+ aadvid)) /\
  (forall k,
      k <> brand_key ->
      load_brands_config (add_brand brand_key name aadvid industry st) !! k
      = load_brands_config st !! k).
Proof.
  split.
  - unfold get_brand_url, add_brand, load_brands_config at 1. cbn [config_file].
    rewrite lookup_insert_eq. reflexivity.
  - intros k N. unfold add_brand, load_brands_config at 1. cbn [config_file].
    now rewrite lookup_insert_ne.
Qed.

(** ** Reasoning about the monad *)


Lemma post_ret {A} (a : A) (Q : A -> Prop) : Q a -> post (ret a) Q.
Proof. intros H w. exact H. Qed.

Lemma post_raise {A} (e : exn) (Q : A -> Prop) : post (raise e) Q.
Proof. intros w. exact I. Qed.

Lemma post_lift {A} (r : result A) (Q : A -> Prop) :
  (forall a, r = Ok a -> Q a) -> post (lift r) Q.
Proof. intros H w. unfold lift. destruct r; auto. Qed.

Lemma post_bind {A B} (m : M A) (f : A -> M B) (P : A -> Prop) (Q : B -> Prop) :
  post m P -> (forall a, P a -> post (f a) Q) -> post (bind m f) Q.
Proof.
  intros Hm Hf w. unfold bind. specialize (Hm w).
  destruct (m w) as [[a|e] w1]; [|exact I]. apply (Hf a Hm w1).
Qed.

Lemma post_bind_any {A B} (m : M A) (f : A -> M B) (Q : B -> Prop) :
  (forall a, post (f a) Q) -> post (bind m f) Q.
Proof.
  intros Hf. apply (post_bind m f (fun _ => True)); [|auto].
  intros w. now destruct (m w) as [[a|e] w1].
Qed.

Lemma post_catch {A} (handles : exn -> bool) (m : M A) (h : exn -> M A) (Q : A -> Prop) :
  post m Q -> (forall e, post (h e) Q) -> post (catch handles m h) Q.
Proof.
  intros Hm Hh w. unfold catch. specialize (Hm w).
  destruct (m w) as [[a|e] w1]; [exact Hm|].
  destruct (handles e); [apply Hh | exact I].
Qed.

Lemma total_ret {A} (a : A) : total (ret a).
Proof. intros w. now exists a, w. Qed.

Lemma total_bind {A B} (m : M A) (f : A -> M B) :
  total m -> (forall a, total (f a)) -> total (bind m f).
Proof.
  intros Hm Hf w. unfold bind. destruct (Hm w) as (a & w1 & ->). apply Hf.
Qed.

Lemma total_catch_all {A} (m : M A) (h : exn -> M A) :
  (forall e, total (h e)) -> total (catch any_exception m h).
Proof.
  intros Hh w. unfold catch, any_exception.
  destruct (m w) as [[a|e] w1]; [now exists a, w1 | apply Hh].
Qed.

Lemma total_reify {A} (m : M A) : total (reify m).
Proof. intros w. unfold reify. destruct (m w) as [r w1]. now exists r, w1. Qed.

Lemma total_sleep (secs : Z) : total (sleep secs).
Proof. intros w. unfold sleep. eauto. Qed.

Lemma total_post {A} (m : M A) (Q : A -> Prop) (w : world) :
  total m -> post m Q -> exists a w', m w = (Ok a, w') /\ Q a.
Proof.
  intros T P. destruct (T w) as (a & w1 & E). exists a, w1. split; [exact E|].
  specialize (P w). now rewrite E in P.
Qed.

(** ** The records of the fetch adapter *)

Ltac split_gets H :=
  unfold rbind in H;
  repeat match type of H with
         | context [py_get ?a ?b ?c] =>
             let E := fresh "E" in
             destruct (py_get a b c) eqn:E; try discriminate H
         end.

Lemma converted_web_record (share_url_value : string) (aweme_detail v : json) :
  converted_web share_url_value aweme_detail = Ok v -> is_metadata_record v = true.
Proof.
  unfold converted_web, duration_of, author_of, statistics_of. intros H.
  split_gets H. injection H as <-. reflexivity.
Qed.

Lemma converted_single_record (share_url_value : string) (tik_data v : json) :
  converted_single share_url_value tik_data = Ok v -> is_metadata_record v = true.
Proof.
  unfold converted_single, duration_of, author_of, statistics_of. intros H.
  split_gets H. injection H as <-. reflexivity.
Qed.

Lemma deleted_record_record (aweme_id : json) (desc : string) :
  is_metadata_record (deleted_record aweme_id desc) = true.
Proof. reflexivity. Qed.


Lemma try_once_returns_record (url aweme_id : string) (st : attempt_state) :
  post (try_once url aweme_id st) returns_record.
Proof.
  unfold try_once. apply post_bind_any. intros [resp|e].
  - destruct (status_code resp =? 200)%Z.
    + destruct (body resp) as [d|e].
      * apply post_ret. unfold returns_record. simpl. now destruct (truthy d).
      * destruct (is_request_exception e); [now apply post_ret | apply post_raise].
    + destruct (status_code resp =? 404)%Z; [|now apply post_ret].
      apply post_bind_any. intros [mobile_data|]; [now apply post_ret|].
      destruct (is_not_found resp); now apply post_ret.
  - destruct (is_request_exception e); [now apply post_ret | apply post_raise].
Qed.

Lemma attempts_returns_record (url aweme_id : string) (todo : list nat) (st : attempt_state) :
  post (attempts url aweme_id todo st) returns_record.
Proof.
  revert st; induction todo as [|attempt rest IH]; intros st; simpl.
  - now apply post_ret.
  - eapply post_bind; [apply try_once_returns_record|].
    intros [c st'] Hc. destruct c.
    + apply post_bind_any. intros _. apply IH.
    + now apply post_ret.
    + now apply post_ret.
Qed.

Lemma after_attempts_none_or_record (aweme_id : string) (st : attempt_state) :
  post (after_attempts aweme_id st) none_or_record.
Proof.
  unfold after_attempts.
  destruct (response st); [|apply post_ret; now left].
  destruct (negb (truthy (data st))); [apply post_ret; now left|].
  apply post_bind_any; intros code.
  destruct (negb (eq_int 200 code)); [apply post_ret; now left|].
  apply post_bind_any; intros data_data.
  apply post_bind_any; intros tik_data.
  destruct (negb (truthy tik_data)).
  - apply post_bind_any; intros filter_detail.
    destruct (truthy filter_detail); [|apply post_ret; now left].
    apply post_bind_any; intros _.
    apply post_bind_any; intros id.
    apply post_ret. right. reflexivity.
  - apply post_bind_any; intros tik_data'.
    apply post_lift. intros v Hv. right. now apply converted_single_record in Hv.
Qed.

Lemma fetch_video_total (url : string) : total (fetch_video url).
Proof.
  unfold fetch_video.
  destruct (api_url rt) as [api|]; [|apply total_ret].
  destruct (is_empty api); [apply total_ret|].
  apply total_catch_all. intros _. apply total_ret.
Qed.

Lemma fetch_video_none_or_record (url : string) : post (fetch_video url) none_or_record.
Proof.
  unfold fetch_video.
  destruct (api_url rt) as [api|]; [|apply post_ret; now left].
  destruct (is_empty api); [apply post_ret; now left|].
  apply post_catch; [|intros _; apply post_ret; now left].
  apply post_bind_any. intros [aweme_id|]; [|apply post_ret; now left].
  destruct (is_empty aweme_id); [apply post_ret; now left|].
  eapply post_bind; [apply attempts_returns_record|].
  intros [c st] Hc. destruct c.
  - apply after_attempts_none_or_record.
  - apply after_attempts_none_or_record.
  - apply post_ret. right. exact Hc.
Qed.

(** ** The batch mapping *)


Lemma good_nil : good [].
Proof. intros k v H. discriminate. Qed.

Lemma good_dset (results : dict) (k : string) (v : json) :
  good results -> none_or_record v -> good (dset k v results).
Proof.
  intros G Hv k' v'. rewrite dget_dset.
  destruct (String.eqb k' k); [now intros [= <-] | apply G].
Qed.

Lemma keeps_keys_refl (results : dict) : keeps_keys results results.
Proof. intros k H. exact H. Qed.

Lemma keeps_keys_trans (a b c : dict) : keeps_keys a b -> keeps_keys b c -> keeps_keys a c.
Proof. intros H1 H2 k H. auto. Qed.

Lemma keeps_keys_dset (results : dict) (k : string) (v : json) :
  keeps_keys results (dset k v results).
Proof. intros k' H. now apply has_key_dset. Qed.

Lemma has_key_dset_same (results : dict) (k : string) (v : json) :
  has_key k (dset k v results) = true.
Proof. unfold has_key. now rewrite dget_dset_same. Qed.

Lemma record_after_play_count (r dd st : dict) (play_count : Z) :
  is_metadata_record (JDict r) = true ->
  dget "data" r = Some (JDict dd) ->
  dget "statistics" dd = Some (JDict st) ->
  is_metadata_record
    (JDict (dset "data"
              (JDict (dset "_data_source" (JStr "App API")
                        (dset "statistics"
                           (JDict (dset "play_count" (JInt play_count) st)) dd))) r))
  = true.
Proof.
  intros R D S. unfold is_metadata_record in *.
  rewrite dget_dset_other by discriminate. rewrite dget_dset_same.
  destruct (dget "code" r) as [[| |[| |]| | |]|]; try discriminate R.
  rewrite D in R. apply andb_true_iff in R as [K _].
  apply andb_true_iff. split.
  - unfold record_keys, forallb, has_key in *.
    rewrite !dget_dset. simpl. rewrite !andb_true_r in *.
    repeat (apply andb_true_iff in K as [? K]).
    repeat (apply andb_true_iff; split); auto.
  - rewrite dget_dset_other by discriminate. now rewrite dget_dset_same.
Qed.

Lemma set_play_count_good (vid : string) (play_count : Z) (results results' : dict) :
  set_play_count vid play_count results = Ok results' ->
  good results -> good results' /\ keeps_keys results results'.
Proof.
  unfold set_play_count. intros H G.
  destruct (dget vid results) as [record|] eqn:V;
    [|injection H as <-; split; [exact G | apply keeps_keys_refl]].
  destruct (truthy record) eqn:T;
    [|injection H as <-; split; [exact G | apply keeps_keys_refl]].
  destruct record as [| | | | |r]; try discriminate H.
  destruct (dget "data" r) as [[| | | | |dd]|] eqn:D; try discriminate H.
  destruct (dget "statistics" dd) as [[| | | | |st]|] eqn:S; try discriminate H.
  injection H as <-. split; [|apply keeps_keys_dset].
  apply good_dset; [exact G|]. right.
  destruct (G _ _ V) as [N|R]; [discriminate|].
  now apply record_after_play_count.
Qed.

Lemma absorb_stats_good (stats_list : list json) (results : dict) :
  good results ->
  good (absorb_stats stats_list results) /\
  keeps_keys results (absorb_stats stats_list results).
Proof.
  revert results; induction stats_list as [|stat rest IH]; intros results G; simpl.
  - split; [exact G | apply keeps_keys_refl].
  - unfold rbind.
    destruct (py_get stat "aweme_id" JNull) as [id|]; [|split; [exact G | apply keeps_keys_refl]].
    destruct (py_get stat "play_count" (JInt 0)) as [raw|];
      [|split; [exact G | apply keeps_keys_refl]].
    destruct (set_play_count (py_str id) (int_or_zero raw) results) as [results'|] eqn:E;
      [|split; [exact G | apply keeps_keys_refl]].
    destruct (set_play_count_good _ _ _ _ E G) as [G' K'].
    destruct (IH _ G') as [G'' K'']. split; [exact G''|].
    eapply keeps_keys_trans; eauto.
Qed.

Lemma absorb_details_good (aweme_list : list json) (results : dict) :
  good results ->
  good (absorb_details aweme_list results) /\
  keeps_keys results (absorb_details aweme_list results).
Proof.
  revert results; induction aweme_list as [|d rest IH]; intros results G; simpl.
  - split; [exact G | apply keeps_keys_refl].
  - unfold rbind.
    destruct (py_get d "aweme_id" JNull) as [id|]; [|split; [exact G | apply keeps_keys_refl]].
    destruct (is_empty (py_str id)); [now apply IH|].
    destruct (converted_web _ d) as [c|] eqn:E; [|split; [exact G | apply keeps_keys_refl]].
    apply converted_web_record in E.
    destruct (IH (dset (py_str id) c results)) as [G' K'].
    { apply good_dset; [exact G | now right]. }
    split; [exact G'|]. eapply keeps_keys_trans; [apply keeps_keys_dset | exact K'].
Qed.

Lemma absorb_web_reply_good (resp : reply) (results : dict) :
  good results ->
  good (absorb_web_reply resp results) /\
  keeps_keys results (absorb_web_reply resp results).
Proof.
  intros G. unfold absorb_web_reply.
  destruct (aweme_list_of resp) as [[| | | |l|]|];
    try (split; [exact G | apply keeps_keys_refl]).
  now apply absorb_details_good.
Qed.


Lemma mark_missing_spec (batch_ids : list string) (results : dict) (w : world) :
  good results ->
  exists results' w',
    mark_missing batch_ids results w = (Ok results', w') /\
    marked batch_ids results results'.
Proof.
  revert results w; induction batch_ids as [|aweme_id rest IH]; intros results w G;
    cbn [mark_missing].
  - exists results, w. split; [reflexivity|].
    split; [exact G|]. split; [apply keeps_keys_refl | intros id []].
  - destruct (has_key aweme_id results) eqn:K.
    + destruct (IH results w G) as (r' & w' & E & G' & K' & A').
      exists r', w'. split; [exact E|]. split; [exact G'|]. split; [exact K'|].
      intros id [<-|H]; [now apply K' | now apply A'].
    + unfold bind at 1.
      destruct (total_post _ _ w (fetch_video_total _) (fetch_video_none_or_record
                  ("https://www.douyin.com/video/" +:+ aweme_id)))
        as (single_data & w1 & -> & S).
      set (marked_none := dset aweme_id JNull results).
      assert (G0 : good marked_none) by (apply good_dset; [exact G | now left]).
      assert (exists rescued,
                 (if truthy single_data
                  then let* code := lift (py_get single_data "code" JNull) in
                       ret (eq_int 0 code)
                  else ret false) w1 = (Ok rescued, w1)) as (rescued & R).
      { destruct S as [->|S]; [now exists false|].
        destruct single_data; try discriminate S.
        destruct (truthy (JDict d)); [|now exists false].
        unfold bind, lift, ret. simpl. eauto. }
      unfold bind at 1. rewrite R.
      destruct (IH (if rescued then dset aweme_id single_data marked_none else marked_none) w1)
        as (r' & w' & E & G' & K' & A').
      { destruct rescued; [now apply good_dset | exact G0]. }
      exists r', w'. split; [exact E|]. split; [exact G'|].
      assert (K0 : keeps_keys results
                     (if rescued then dset aweme_id single_data marked_none else marked_none)).
      { destruct rescued;
          [eapply keeps_keys_trans; apply keeps_keys_dset | apply keeps_keys_dset]. }
      split; [eapply keeps_keys_trans; eauto|].
      intros id [<-|H]; [|now apply A'].
      apply K'. destruct rescued; apply has_key_dset_same || (apply has_key_dset_same).
Qed.

Lemma web_batches_spec (batches : list (list string)) (results : dict) (w : world) :
  good results ->
  match web_batches batches results w with
  | (Ok results', _) =>
      good results' /\ keeps_keys results results' /\
      forall batch_ids id, In batch_ids batches -> In id batch_ids -> has_key id results' = true
  | (Raise _, _) => True
  end.
Proof.
  revert results w; induction batches as [|batch_ids rest IH]; intros results w G; simpl.
  - split; [exact G|]. split; [apply keeps_keys_refl | intros ? ? []].
  - unfold bind at 1. unfold request at 1.
    destruct (net rt (tick w)) as [resp|e]; [|exact I].
    set (w1 := {| tick := S (tick w); trace := trace w ++ [EvPost web_batch_url 60] |}).
    set (absorbed := if (status_code resp =? 200)%Z
                     then absorb_web_reply resp results else results).
    assert (good absorbed /\ keeps_keys results absorbed) as [Ga Ka].
    { unfold absorbed. destruct (status_code resp =? 200)%Z;
        [now apply absorb_web_reply_good | split; [exact G | apply keeps_keys_refl]]. }
    unfold bind at 1.
    destruct (mark_missing_spec batch_ids absorbed w1 Ga) as (r1 & w2 & -> & G1 & K1 & A1).
    specialize (IH r1 w2 G1).
    destruct (web_batches rest r1 w2) as [[r2|e] w3]; [|exact I].
    destruct IH as (G2 & K2 & A2). split; [exact G2|]. split.
    + eapply keeps_keys_trans; [exact Ka|]. eapply keeps_keys_trans; eauto.
    + intros b id [<-|Hb] Hid; [apply K2; now apply A1 | eapply A2; eauto].
Qed.

Lemma stats_batches_spec (batches : list (list string)) (results : dict) (w : world) :
  good results ->
  exists results' w',
    stats_batches batches results w = (Ok results', w') /\
    good results' /\ keeps_keys results results'.
Proof.
  revert results w; induction batches as [|batch_ids rest IH]; intros results w G; simpl.
  - exists results, w. split; [reflexivity|]. split; [exact G | apply keeps_keys_refl].
  - unfold bind at 1, reify, request.
    set (w1 := {| tick := S (tick w); trace := trace w ++ [EvGet stats_url 30] |}).
    set (absorbed :=
           match (let+ stats_response := net rt (tick w) in stats_list_of stats_response) with
           | Ok (JList stats_list) => absorb_stats stats_list results
           | _ => results
           end).
    assert (good absorbed /\ keeps_keys results absorbed) as [Ga Ka].
    { unfold absorbed.
      destruct (let+ stats_response := net rt (tick w) in stats_list_of stats_response)
        as [[| | | |l|]|]; try (split; [exact G | apply keeps_keys_refl]).
      now apply absorb_stats_good. }
    destruct (IH absorbed w1 Ga) as (r' & w' & E & G' & K').
    exists r', w'. split; [exact E|]. split; [exact G'|].
    eapply keeps_keys_trans; eauto.
Qed.

Lemma chunks_fuel_cover {A} (fuel n : nat) (l : list A) (x : A) :
  0 < n -> List.length l <= fuel -> In x l ->
  exists c, In c (chunks_fuel fuel n l) /\ In x c.
Proof.
  intros Hn. revert l; induction fuel as [|fuel IH]; intros l Hl Hx.
  - destruct l; [destruct Hx | simpl in Hl; lia].
  - destruct l as [|y l]; [destruct Hx|].
    cbn [chunks_fuel].
    rewrite <- (firstn_skipn n (y :: l)) in Hx. apply in_app_or in Hx as [Hx|Hx].
    + eexists. split; [left; reflexivity | exact Hx].
    + destruct (IH (skipn n (y :: l))) as (c & Hc & Hxc); [|exact Hx|].
      * rewrite length_skipn. simpl in *. lia.
      * exists c. split; [now right | exact Hxc].
Qed.

Lemma chunks_cover {A} (n : nat) (l : list A) (x : A) :
  0 < n -> In x l -> exists c, In c (chunks n l) /\ In x c.
Proof. intros Hn Hx. now apply chunks_fuel_cover. Qed.

Lemma all_none_spec (aweme_ids : list string) (id : string) :
  In id aweme_ids -> dget id (all_none aweme_ids) = Some JNull.
Proof.
  unfold all_none.
  assert (forall acc,
             (dget id acc = Some JNull \/ In id aweme_ids) ->
             (forall k v, dget k acc = Some v -> v = JNull) ->
             dget id (fold_left (fun d a => dset a JNull d) aweme_ids acc) = Some JNull) as H.
  { induction aweme_ids as [|a rest IH]; intros acc Hid Hacc; simpl.
    - destruct Hid as [H|[]]. exact H.
    - apply IH.
      + rewrite dget_dset. destruct (String.eqb_spec id a) as [->|N]; [now left|].
        destruct Hid as [H|[->|H]]; [now left | congruence | now right].
      + intros k v. rewrite dget_dset. destruct (String.eqb k a); [now intros [= <-] | apply Hacc]. }
  intros Hin. apply H; [now right | intros k v E; discriminate].
Qed.

(** C9.  [fetch_videos_batch] always returns a mapping, and every requested
    id is a key of it, bound to [None] or to a normalized record.  The empty
    request gives the empty mapping.  When the try block raises, the mapping
    binds every requested id to [None]. *)
Theorem batch_binds_every_requested_id (aweme_ids : list string) (w : world) :
  exists results w',
    fetch_videos_batch aweme_ids w = (Ok results, w') /\
    (forall id,
        In id aweme_ids ->
        exists v, dget id results = Some v /\ none_or_record v) /\
    (aweme_ids = [] -> results = []) /\
    (forall e w1,
        aweme_ids <> [] ->
        fetch_videos_batch_try aweme_ids w = (Raise e, w1) ->
        results = all_none aweme_ids /\ w' = w1 /\
        forall id, In id aweme_ids -> dget id results = Some JNull).
Proof.
  destruct aweme_ids as [|a ids].
  { exists [], w. split; [reflexivity|]. split; [intros id []|].
    split; [reflexivity | congruence]. }
  set (aweme_ids := a :: ids).
  change (fetch_videos_batch aweme_ids w)
    with (catch any_exception (fetch_videos_batch_try aweme_ids)
            (fun _ => ret (all_none aweme_ids)) w).
  unfold catch, any_exception.
  destruct (fetch_videos_batch_try aweme_ids w) as [[results|e] w1] eqn:T.
  - exists results, w1. split; [reflexivity|].
    split; [|split; [discriminate | discriminate]].
    unfold fetch_videos_batch_try, bind in T.
    pose proof (web_batches_spec (chunks 50 aweme_ids) [] w good_nil) as W.
    destruct (web_batches (chunks 50 aweme_ids) [] w) as [[r1|e1] w2]; [|discriminate].
    destruct W as (G1 & _ & A1).
    assert (good results /\ keeps_keys r1 results) as [G K].
    { destruct (successful_ids r1) as [|s ss].
      - injection T as <- <-. split; [exact G1 | apply keeps_keys_refl].
      - destruct (stats_batches_spec (chunks 2 (s :: ss)) r1 w2 G1) as (r' & w' & E & G' & K').
        rewrite E in T. injection T as <- <-. auto. }
    intros id Hid.
    destruct (chunks_cover 50 aweme_ids id ltac:(lia) Hid) as (c & Hc & Hidc).
    specialize (A1 c id Hc Hidc). apply K in A1.
    unfold has_key in A1. destruct (dget id results) as [v|] eqn:V; [|discriminate].
    exists v. split; [reflexivity | now apply (G id)].
  - exists (all_none aweme_ids), w1. split; [reflexivity|]. split; [|split].
    + intros id Hid. exists JNull. split; [now apply all_none_spec | now left].
    + discriminate.
    + intros e' w1' _ [= <- <-]. repeat split. intros id Hid. now apply all_none_spec.
Qed.

(** ** The log of [fetch_video] *)


Lemma quiet_ret {A} (p : event -> Prop) (a : A) : quiet p (ret a).
Proof. intros w. exists []. simpl. now rewrite app_nil_r. Qed.

Lemma quiet_raise {A} (p : event -> Prop) (e : exn) : quiet p (@raise A e).
Proof. intros w. exists []. simpl. now rewrite app_nil_r. Qed.

Lemma quiet_lift {A} (p : event -> Prop) (r : result A) : quiet p (lift r).
Proof. intros w. exists []. simpl. now rewrite app_nil_r. Qed.

Lemma quiet_bind {A B} (p : event -> Prop) (m : M A) (f : A -> M B) :
  quiet p m -> (forall a, quiet p (f a)) -> quiet p (bind m f).
Proof.
  intros Hm Hf w. unfold bind. destruct (Hm w) as (e1 & T1 & P1).
  destruct (m w) as [[a|e] w1]; simpl in T1.
  - destruct (Hf a w1) as (e2 & T2 & P2). exists (e1 ++ e2). split.
    + now rewrite T2, T1, <- app_assoc.
    + now apply Forall_app.
  - exists e1. auto.
Qed.

Lemma quiet_catch {A} (p : event -> Prop) (handles : exn -> bool) (m : M A) (h : exn -> M A) :
  quiet p m -> (forall e, quiet p (h e)) -> quiet p (catch handles m h).
Proof.
  intros Hm Hh w. unfold catch. destruct (Hm w) as (e1 & T1 & P1).
  destruct (m w) as [[a|e] w1]; simpl in T1; [exists e1; auto|].
  destruct (handles e); [|exists e1; auto].
  destruct (Hh e w1) as (e2 & T2 & P2). exists (e1 ++ e2). split.
  - now rewrite T2, T1, <- app_assoc.
  - now apply Forall_app.
Qed.

Lemma quiet_reify {A} (p : event -> Prop) (m : M A) : quiet p m -> quiet p (reify m).
Proof.
  intros Hm w. unfold reify. destruct (Hm w) as (e1 & T1 & P1).
  destruct (m w) as [r w1]. exists e1. auto.
Qed.

Lemma quiet_request (p : event -> Prop) (e : event) : p e -> quiet p (request e).
Proof. intros H w. exists [e]. split; [reflexivity | now constructor]. Qed.

Lemma quiet_sleep (p : event -> Prop) (secs : Z) : p (EvSleep secs) -> quiet p (sleep secs).
Proof. intros H w. exists [EvSleep secs]. split; [reflexivity | now constructor]. Qed.

Lemma _extract_aweme_id_quiet (input_str : string) : quiet is_head (_extract_aweme_id input_str).
Proof.
  unfold _extract_aweme_id. apply quiet_bind; [|intros; apply quiet_ret].
  unfold redirect_resolved.
  destruct (contains "http" (strip input_str)); [|apply quiet_ret].
  destruct (re_search url_here (strip input_str)) as [url|]; [|apply quiet_ret].
  unfold _resolve_redirects.
  destruct (contains "v.douyin.com" url || contains "douyin.com/share/" url);
    [|apply quiet_ret].
  apply quiet_catch; [|intros; apply quiet_ret].
  apply quiet_bind; [|intros; apply quiet_ret].
  apply quiet_request. now exists url.
Qed.

Lemma supplement_attempts_quiet (todo : list nat) (tik_data : json) :
  quiet is_supplement_event (supplement_attempts todo tik_data).
Proof.
  revert tik_data; induction todo as [|attempt rest IH]; intros tik_data; simpl.
  - apply quiet_ret.
  - apply quiet_bind.
    + unfold supplement_once. apply quiet_bind.
      * apply quiet_reify, quiet_request. now left.
      * intros r. destruct (let+ stats_response := r in app_stats_of stats_response)
          as [[app_stats|]|]; apply quiet_ret.
    + intros [done tik_data']. destruct done; [apply quiet_ret|].
      apply quiet_bind; [|intros; apply IH].
      destruct (attempt <? 2)%nat; [apply quiet_sleep; now right | apply quiet_ret].
Qed.

Lemma after_attempts_quiet (aweme_id : string) (st : attempt_state) :
  quiet is_supplement_event (after_attempts aweme_id st).
Proof.
  unfold after_attempts.
  destruct (response st); [|apply quiet_ret].
  destruct (negb (truthy (data st))); [apply quiet_ret|].
  apply quiet_bind; [apply quiet_lift|]. intros code.
  destruct (negb (eq_int 200 code)); [apply quiet_ret|].
  apply quiet_bind; [apply quiet_lift|]. intros data_data.
  apply quiet_bind; [apply quiet_lift|]. intros tik_data.
  destruct (negb (truthy tik_data)).
  - apply quiet_bind; [apply quiet_lift|]. intros filter_detail.
    destruct (truthy filter_detail); [|apply quiet_ret].
    apply quiet_bind; [apply quiet_lift|]. intros _.
    apply quiet_bind; [apply quiet_lift|]. intros id. apply quiet_ret.
  - apply quiet_bind; [apply supplement_attempts_quiet|]. intros; apply quiet_lift.
Qed.

Lemma mobile_fallback_log (w : world) :
  exists r,
    mobile_fallback w
    = (Ok r, {| tick := S (tick w); trace := trace w ++ [EvGet mobile_url 20] |}).
Proof.
  unfold mobile_fallback, catch, bind, request, any_exception, lift, ret.
  destruct (net rt (tick w)) as [mobile_resp|e]; [|eauto].
  destruct (status_code mobile_resp =? 200)%Z; [|eauto].
  destruct (body mobile_resp) as [mobile_data|e]; [|eauto].
  destruct (py_get mobile_data "code" JNull) as [code|e]; [|eauto].
  destruct (eq_int 200 code); [|eauto].
  destruct (py_get mobile_data "data" (JDict [])) as [d|e]; [|eauto].
  destruct (py_get d "aweme_detail" JNull) as [detail|e]; eauto.
Qed.

(** One attempt logs its request, and after a 404 the fallback request. *)
Lemma try_once_log (url aweme_id : string) (st : attempt_state) (w : world) :
  exists b,
    is_attempt_block url b /\
    trace (snd (try_once url aweme_id st w)) = trace w ++ b.
Proof.
  unfold try_once, bind, reify, request.
  set (w1 := {| tick := S (tick w); trace := trace w ++ [EvGet url 30] |}).
  destruct (net rt (tick w)) as [resp|e].
  - destruct (status_code resp =? 200)%Z.
    + exists [EvGet url 30]. split; [now left|].
      destruct (body resp) as [d|e]; [reflexivity|].
      now destruct (is_request_exception e).
    + destruct (status_code resp =? 404)%Z; [|exists [EvGet url 30]; split; [now left | reflexivity]].
      exists [EvGet url 30; EvGet mobile_url 20]. split; [now right|].
      destruct (mobile_fallback_log w1) as (r & ->).
      replace (trace w ++ [EvGet url 30; EvGet mobile_url 20])
        with ((trace w ++ [EvGet url 30]) ++ [EvGet mobile_url 20])
        by now rewrite <- app_assoc.
      destruct r as [mobile_data|]; [reflexivity|].
      now destruct (is_not_found resp).
  - exists [EvGet url 30]. split; [now left|]. now destruct (is_request_exception e).
Qed.

Lemma join_sleeps_cons (b : list event) (blocks : list (list event)) :
  blocks <> [] -> join_sleeps (b :: blocks) = b ++ EvSleep 2 :: join_sleeps blocks.
Proof. destruct blocks; [congruence | reflexivity]. Qed.

(** The retry loop from attempt [a] on: at most [n] blocks, 2 seconds apart. *)
Lemma attempts_log (url aweme_id : string) (n a : nat) (st : attempt_state) (w : world) :
  a + n = 3 ->
  exists blocks,
    List.length blocks <= n /\ (0 < n -> blocks <> []) /\
    Forall (is_attempt_block url) blocks /\
    trace (snd (attempts url aweme_id (seq a n) st w)) = trace w ++ join_sleeps blocks.
Proof.
  revert a st w; induction n as [|n IH]; intros a st w Ha.
  - exists []. simpl. rewrite app_nil_r. repeat split; auto; lia.
  - cbn [seq attempts]. unfold bind at 1.
    destruct (try_once_log url aweme_id st w) as (b & Hb & Tb).
    assert (One : forall w1 : world,
               trace w1 = trace w ++ b ->
               exists blocks,
                 List.length blocks <= S n /\ (0 < S n -> blocks <> []) /\
                 Forall (is_attempt_block url) blocks /\
                 trace w1 = trace w ++ join_sleeps blocks).
    { intros w1 T1. exists [b]. simpl. split; [lia|]. split; [discriminate|].
      split; [now constructor | exact T1]. }
    destruct (try_once url aweme_id st w) as [[[c st']|e] w1]; simpl in Tb;
      [|now apply One].
    destruct c; [|now apply One|now apply One].
    destruct n as [|n].
    + assert (a = 2) as -> by lia. simpl. now apply One.
    + assert (Hlt : (a <? 2)%nat = true) by (apply Nat.ltb_lt; lia).
      rewrite Hlt. unfold bind at 1, sleep at 1.
      destruct (IH (S a) st' {| tick := tick w1; trace := trace w1 ++ [EvSleep 2] |})
        as (blocks & L & Ne & F & T); [lia|].
      exists (b :: blocks). split; [simpl; lia|]. split; [discriminate|].
      split; [now constructor|].
      rewrite T. cbn [trace]. rewrite Tb, join_sleeps_cons by (apply Ne; lia).
      rewrite <- !app_assoc. reflexivity.
Qed.

Lemma extract_is_not_empty (input_str id : string) (w w1 : world) :
  _extract_aweme_id input_str w = (Ok (Some id), w1) -> is_empty id = false.
Proof.
  intros H. destruct (redirect_resolved_ok input_str w) as (s & w' & Hs).
  rewrite (_extract_aweme_id_eq _ _ _ _ Hs) in H. injection H as H _.
  apply extract_from_shape in H as (_ & [(_ & L)|(_ & L & _)]);
    destruct id; simpl in *; auto; lia.
Qed.

(** C8.  [fetch_video] never raises.  Its log is that of the extraction
    (at most a redirect lookup), then of at most three attempts with a sleep
    of 2 seconds between one attempt and the next, then of the statistics
    supplement.  When the three requests fail with a timeout or another
    request error, it returns [None] after exactly that log. *)
Theorem fetch_video_three_attempts (url : string) (w : world) :
  (exists v w', fetch_video url w = (Ok v, w') /\ none_or_record v) /\
  (exists before blocks after,
      trace (snd (fetch_video url w)) = trace w ++ before ++ join_sleeps blocks ++ after /\
      List.length blocks <= 3 /\
      (forall api, api_url rt = Some api -> Forall (is_attempt_block api) blocks) /\
      Forall is_head before /\
      Forall is_supplement_event after) /\
  (forall api aweme_id w1 e0 e1 e2,
      api_url rt = Some api -> is_empty api = false ->
      _extract_aweme_id url w = (Ok (Some aweme_id), w1) ->
      net rt (tick w1) = Raise e0 -> is_request_exception e0 = true ->
      net rt (S (tick w1)) = Raise e1 -> is_request_exception e1 = true ->
      net rt (S (S (tick w1))) = Raise e2 -> is_request_exception e2 = true ->
      fetch_video url w
      = (Ok JNull,
         {| tick := S (S (S (tick w1)));
            trace := trace w1 ++ [EvGet api 30; EvSleep 2; EvGet api 30; EvSleep 2;
                                  EvGet api 30] |})).
Proof.
  split; [|split].
  - apply total_post; [apply fetch_video_total | apply fetch_video_none_or_record].
  - assert (Early : forall (before : list event) (w' : world),
               trace w' = trace w ++ before -> Forall is_head before ->
               exists before blocks after,
                 trace w' = trace w ++ before ++ join_sleeps blocks ++ after /\
                 List.length blocks <= 3 /\
                 (forall api, api_url rt = Some api -> Forall (is_attempt_block api) blocks) /\
                 Forall is_head before /\
                 Forall is_supplement_event after).
    { intros before w' T F. exists before, [], []. simpl. rewrite app_nil_r.
      split; [exact T|]. split; [lia|]. split; [constructor|]. split; [exact F | constructor]. }
    assert (Here : trace w = trace w ++ []) by now rewrite app_nil_r.
    unfold fetch_video.
    destruct (api_url rt) as [api|] eqn:Hapi; [|now apply (Early [])].
    destruct (is_empty api); [now apply (Early [])|].
    unfold catch, any_exception, bind at 1.
    destruct (_extract_aweme_id_quiet url w) as (before & Tb & Fb).
    destruct (_extract_aweme_id url w) as [[id|e] w1]; simpl in Tb;
      [|now apply (Early before)].
    destruct id as [aweme_id|]; [|now apply (Early before)].
    destruct (is_empty aweme_id); [now apply (Early before)|].
    unfold bind at 1.
    destruct (attempts_log api aweme_id 3 0 {| data := JNull; response := None |} w1 eq_refl)
      as (blocks & L & _ & F & T).
    change (seq 0 3) with [0; 1; 2] in T.
    assert (Shape : forall (after : list event) (w' : world),
               trace w' = trace w ++ before ++ join_sleeps blocks ++ after ->
               Forall is_supplement_event after ->
               exists before blocks after,
                 trace w' = trace w ++ before ++ join_sleeps blocks ++ after /\
                 List.length blocks <= 3 /\
                 (forall api', Some api = Some api' -> Forall (is_attempt_block api') blocks) /\
                 Forall is_head before /\
                 Forall is_supplement_event after).
    { intros after w' Ta Fa. exists before, blocks, after.
      split; [exact Ta|]. split; [exact L|]. split; [|auto].
      now intros api' [= <-]. }
    destruct (attempts api aweme_id [0; 1; 2] {| data := JNull; response := None |} w1)
      as [[[c st]|e] w2]; simpl in T.
    + assert (Rest : forall m : M json,
                 quiet is_supplement_event m ->
                 exists after,
                   trace (snd (let (r, w') := m w2 in
                               match r with
                               | Ok a => (Ok a, w')
                               | Raise _ => ret JNull w'
                               end))
                   = trace w ++ before ++ join_sleeps blocks ++ after /\
                   Forall is_supplement_event after).
      { intros m Q. destruct (Q w2) as (after & Ta & Fa). exists after. split; [|exact Fa].
        destruct (m w2) as [[a|e] w3]; simpl in *; rewrite Ta, T, Tb, <- !app_assoc;
          reflexivity. }
      destruct c.
      * destruct (Rest _ (after_attempts_quiet aweme_id st)) as (after & Ta & Fa).
        now apply (Shape after).
      * destruct (Rest _ (after_attempts_quiet aweme_id st)) as (after & Ta & Fa).
        now apply (Shape after).
      * destruct (Rest _ (quiet_ret is_supplement_event v)) as (after & Ta & Fa).
        now apply (Shape after).
    + apply (Shape []); [|constructor].
      simpl. now rewrite app_nil_r, T, Tb, <- app_assoc.
  - intros api aweme_id w1 e0 e1 e2 Hapi Hne Hid N0 R0 N1 R1 N2 R2.
    unfold fetch_video. rewrite Hapi, Hne.
    unfold catch, any_exception, bind at 1. rewrite Hid.
    rewrite (extract_is_not_empty _ _ _ _ Hid).
    unfold attempts, try_once, bind, reify, request, sleep, ret. cbn [tick trace].
    rewrite N0, R0. cbn [Nat.ltb Nat.leb tick trace].
    rewrite N1, R1. cbn [Nat.ltb Nat.leb tick trace].
    rewrite N2, R2. cbn [Nat.ltb Nat.leb tick trace].
    unfold after_attempts. cbn [response].
    rewrite <- !app_assoc. reflexivity.
Qed.

(** ** The statistics merge of [_supplement_statistics] *)

Lemma dget_or_dset_same (d : dict) (k : string) (v default : json) :
  dget_or k default (dset k v d) = v.
Proof. unfold dget_or. now rewrite dget_dset_same. Qed.

Lemma dget_or_dset_other (d : dict) (k k' : string) (v default : json) :
  k <> k' -> dget_or k default (dset k' v d) = dget_or k default d.
Proof. intros N. unfold dget_or. now rewrite dget_dset_other. Qed.

(** For one key, the merged value is the larger of the two counters. *)
Lemma merge_key_takes_max (app_stats statistics : dict) (key : string) (a w : Z) :
  as_number (dget_or key (JInt 0) app_stats) = Some a ->
  as_number (dget_or key (JInt 0) statistics) = Some w ->
  (0 <= a)%Z -> (0 <= w)%Z ->
  exists statistics',
    merge_key app_stats key statistics = Ok statistics' /\
    as_number (dget_or key (JInt 0) statistics') = Some (Z.max a w) /\
    forall k, k <> key -> dget_or k (JInt 0) statistics' = dget_or k (JInt 0) statistics.
Proof.
  intros Ha Hw Pa Pw. unfold merge_key. rewrite Ha, Hw.
  destruct (0 <? Z.max a w)%Z eqn:Pos.
  - eexists. split; [reflexivity|]. split.
    + rewrite dget_or_dset_same.
      destruct (a <? w)%Z eqn:L.
      * rewrite Hw. f_equal. apply Z.ltb_lt in L. lia.
      * rewrite Ha. f_equal. apply Z.ltb_ge in L. lia.
    + intros k N. now apply dget_or_dset_other.
  - eexists. split; [reflexivity|]. split; [|reflexivity].
    rewrite Hw. f_equal. apply Z.ltb_ge in Pos. lia.
Qed.

(** For the five keys, when both sources give non-negative counters: the loop
    ends without an exception, and every key holds the larger counter. *)
Lemma merge_keys_takes_max (keys : list string) (app_stats statistics : dict) :
  NoDup keys ->
  (forall key, In key keys ->
     exists a w,
       as_number (dget_or key (JInt 0) app_stats) = Some a /\
       as_number (dget_or key (JInt 0) statistics) = Some w /\
       (0 <= a)%Z /\ (0 <= w)%Z) ->
  exists statistics',
    merge_keys keys app_stats statistics = (statistics', None) /\
    (forall key, In key keys ->
       exists a w,
         as_number (dget_or key (JInt 0) app_stats) = Some a /\
         as_number (dget_or key (JInt 0) statistics) = Some w /\
         as_number (dget_or key (JInt 0) statistics') = Some (Z.max a w)) /\
    (forall k, ~ In k keys ->
       dget_or k (JInt 0) statistics' = dget_or k (JInt 0) statistics).
Proof.
  intros ND. revert statistics.
  induction keys as [|key rest IH]; intros statistics H; simpl.
  - exists statistics. split; [reflexivity|]. split; [intros ? [] | reflexivity].
  - apply NoDup_cons in ND as [Nin ND]. rewrite list_elem_of_In in Nin.
    destruct (H key (or_introl eq_refl)) as (a & w & Ha & Hw & Pa & Pw).
    destruct (merge_key_takes_max _ _ _ _ _ Ha Hw Pa Pw) as (s1 & E1 & M1 & O1).
    rewrite E1.
    destruct (IH ND s1) as (s2 & E2 & M2 & O2).
    { intros k Hk. destruct (H k (or_intror Hk)) as (a' & w' & Ha' & Hw' & P).
      exists a', w'. rewrite O1 by (intros ->; contradiction). auto. }
    exists s2. split; [exact E2|]. split.
    + intros k [<-|Hk].
      * exists a, w. rewrite O2 by exact Nin. auto.
      * destruct (M2 k Hk) as (a' & w' & Ha' & Hw' & Hm).
        exists a', w'. rewrite O1 in Hw' by (intros ->; contradiction). auto.
    + intros k Hk. rewrite O2 by tauto. apply O1. intros ->. apply Hk. now left.
Qed.

(** ** Batches *)

Lemma chunks_fuel_concat {A} (fuel n : nat) (l : list A) :
  0 < n -> List.length l <= fuel ->
  concat (chunks_fuel fuel n l) = l /\
  Forall (fun c => 1 <= List.length c <= n) (chunks_fuel fuel n l).
Proof.
  intros Hn. revert l; induction fuel as [|fuel IH]; intros l Hl.
  - destruct l; [split; [reflexivity | constructor] | simpl in Hl; lia].
  - destruct l as [|y l]; [split; [reflexivity | constructor]|].
    cbn [chunks_fuel concat].
    destruct (IH (skipn n (y :: l))) as [C F].
    { rewrite length_skipn. simpl in *. lia. }
    split.
    + rewrite C. apply firstn_skipn.
    + constructor; [|exact F].
      rewrite length_firstn. simpl. lia.
Qed.

Lemma chunks_fuel_length {A} (fuel n : nat) (l : list A) :
  0 < n -> List.length l <= fuel ->
  List.length (chunks_fuel fuel n l) = (List.length l + n - 1) / n.
Proof.
  intros Hn. revert l; induction fuel as [|fuel IH]; intros l Hl.
  - destruct l; [|simpl in Hl; lia]. simpl.
    symmetry. apply Nat.div_small. lia.
  - destruct l as [|y l].
    + simpl. symmetry. apply Nat.div_small. lia.
    + cbn [chunks_fuel List.length]. rewrite IH.
      * rewrite length_skipn.
        destruct (le_lt_dec (List.length (y :: l)) n) as [Le|Gt].
        -- replace (List.length (y :: l) - n) with 0 by lia.
           rewrite (Nat.div_small (0 + n - 1) n) by lia.
           simpl in Le. cbn [List.length].
           apply (Nat.div_unique _ n 1 (List.length l)); lia.
        -- cbn [List.length] in *.
           replace (S (List.length l) + n - 1) with ((S (List.length l) - n + n - 1) + 1 * n)
             by lia.
           rewrite Nat.div_add by lia. lia.
      * rewrite length_skipn. simpl in *. lia.
Qed.

(** X1.  The slices [l[i:i+n]] for [i] in [range(0, len(l), n)], with [n]
    positive: put end to end they give [l] back, every slice holds between
    1 and [n] elements, and there are [len(l) / n], rounded up, of them. *)
Theorem chunks_partition {A} (n : nat) (l : list A) :
  0 < n ->
  concat (chunks n l) = l /\
  Forall (fun c => 1 <= List.length c <= n) (chunks n l) /\
  List.length (chunks n l) = (List.length l + n - 1) / n.
Proof.
  intros Hn. unfold chunks.
  destruct (chunks_fuel_concat (List.length l) n l Hn (le_n _)) as [C F].
  split; [exact C|]. split; [exact F|]. now apply chunks_fuel_length.
Qed.

(** ** More on [_supplement_statistics] *)

Lemma not_lowered_refl (d : dict) : not_lowered d d.
Proof. intros key w H. exists w. split; [exact H | lia]. Qed.

Lemma not_lowered_trans (a b c : dict) :
  not_lowered a b -> not_lowered b c -> not_lowered a c.
Proof.
  intros H1 H2 key w H. destruct (H1 key w H) as (w1 & E1 & L1).
  destruct (H2 key w1 E1) as (w2 & E2 & L2). exists w2. split; [exact E2 | lia].
Qed.

Lemma merge_key_not_lowered (app_stats statistics statistics' : dict) (key : string) :
  merge_key app_stats key statistics = Ok statistics' ->
  not_lowered statistics statistics'.
Proof.
  unfold merge_key.
  destruct (as_number (dget_or key (JInt 0) app_stats)) as [a|] eqn:Ha; [|discriminate].
  destruct (as_number (dget_or key (JInt 0) statistics)) as [w|] eqn:Hw; [|discriminate].
  destruct (0 <? Z.max a w)%Z; intros [= <-]; [|apply not_lowered_refl].
  intros k v Hv. destruct (String.eqb_spec k key) as [->|N].
  - rewrite dget_or_dset_same. rewrite Hw in Hv. injection Hv as <-.
    destruct (a <? w)%Z eqn:L.
    + exists w. split; [exact Hw | lia].
    + exists a. split; [exact Ha | apply Z.ltb_ge in L; lia].
  - rewrite dget_or_dset_other by exact N. exists v. split; [exact Hv | lia].
Qed.

Lemma merge_keys_not_lowered (keys : list string) (app_stats statistics : dict) :
  not_lowered statistics (fst (merge_keys keys app_stats statistics)).
Proof.
  revert statistics; induction keys as [|key rest IH]; intros statistics; simpl.
  - apply not_lowered_refl.
  - destruct (merge_key app_stats key statistics) as [s1|e] eqn:E; [|apply not_lowered_refl].
    eapply not_lowered_trans; [eapply merge_key_not_lowered; eauto | apply IH].
Qed.

Lemma gently_changed_refl (tik_data : json) : gently_changed tik_data tik_data.
Proof.
  split; [apply not_lowered_refl|]. split; [|reflexivity].
  intros t ->. exists t. auto.
Qed.

Lemma gently_changed_trans (a b c : json) :
  gently_changed a b -> gently_changed b c -> gently_changed a c.
Proof.
  intros (N1 & D1 & O1) (N2 & D2 & O2). split; [eapply not_lowered_trans; eauto|]. split.
  - intros t ->. destruct (D1 t eq_refl) as (t1 & -> & F1).
    destruct (D2 t1 eq_refl) as (t2 & -> & F2). exists t2. split; [reflexivity|].
    intros k N. now rewrite F2, F1.
  - intros H. rewrite O2; rewrite O1; auto.
Qed.

Lemma merge_into_gently (app_stats : dict) (tik_data : json) :
  gently_changed tik_data (snd (merge_into app_stats tik_data)).
Proof.
  unfold merge_into. destruct tik_data as [| | | | |t]; try apply gently_changed_refl.
  unfold has_key.
  destruct (dget "statistics" t) as [[| | | | |statistics]|] eqn:S;
    try (rewrite S; apply gently_changed_refl).
  - rewrite S.
    pose proof (merge_keys_not_lowered stat_keys app_stats statistics) as N.
    destruct (merge_keys stat_keys app_stats statistics) as [statistics' e]. simpl in *.
    split; [|split].
    + unfold statistics_in. rewrite S, dget_dset_same. exact N.
    + intros t0 [= <-]. eexists. split; [reflexivity|].
      intros k Nk. now apply dget_dset_other.
    + intros H. now destruct (H t).
  - rewrite dget_dset_same.
    pose proof (merge_keys_not_lowered stat_keys app_stats []) as N.
    destruct (merge_keys stat_keys app_stats []) as [statistics' e]. simpl in *.
    split; [|split].
    + unfold statistics_in. rewrite S, dget_dset_same. exact N.
    + intros t0 [= <-]. eexists. split; [reflexivity|].
      intros k Nk. rewrite !dget_dset_other by exact Nk. reflexivity.
    + intros H. now destruct (H t).
Qed.

(** One attempt of the supplement: one request, no exception. *)
Lemma supplement_once_spec (tik_data : json) (w : world) :
  exists done tik_data',
    supplement_once tik_data w
    = (Ok (done, tik_data'),
       {| tick := S (tick w); trace := trace w ++ [EvGet stats_url 10] |}) /\
    gently_changed tik_data tik_data'.
Proof.
  unfold supplement_once, bind, reify, request, ret.
  destruct (let+ stats_response := net rt (tick w) in app_stats_of stats_response)
    as [[app_stats|]|e].
  - pose proof (merge_into_gently app_stats tik_data) as G.
    destruct (merge_into app_stats tik_data) as [done tik_data']. eauto.
  - exists false, tik_data. split; [reflexivity | apply gently_changed_refl].
  - exists false, tik_data. split; [reflexivity | apply gently_changed_refl].
Qed.

Lemma request_train_more (e pause : event) (k : nat) :
  0 < k -> request_train e pause (S k) = e :: pause :: request_train e pause k.
Proof. destruct k; [lia | reflexivity]. Qed.

Lemma supplement_attempts_spec (n a : nat) (tik_data : json) (w : world) :
  a + n = 3 -> 0 < n ->
  exists tik_data' k,
    1 <= k <= n /\
    supplement_attempts (seq a n) tik_data w
    = (Ok tik_data',
       {| tick := tick w + k;
          trace := trace w ++ request_train (EvGet stats_url 10) (EvSleep 1) k |}) /\
    gently_changed tik_data tik_data'.
Proof.
  revert a tik_data w; induction n as [|n IH]; intros a tik_data w Ha Hn; [lia|].
  cbn [seq supplement_attempts]. unfold bind at 1.
  destruct (supplement_once_spec tik_data w) as (done & t1 & -> & G1).
  destruct done.
  - exists t1, 1. split; [lia|]. split; [|exact G1].
    unfold ret. simpl. now rewrite Nat.add_1_r.
  - destruct n as [|n].
    + assert (a = 2) as -> by lia. simpl. unfold bind, ret. simpl.
      exists t1, 1. split; [lia|]. split; [|exact G1]. now rewrite Nat.add_1_r.
    + assert (Hlt : (a <? 2)%nat = true) by (apply Nat.ltb_lt; lia).
      rewrite Hlt. unfold bind at 1, sleep at 1. cbn [tick trace].
      destruct (IH (S a) t1
                  {| tick := S (tick w);
                     trace := (trace w ++ [EvGet stats_url 10]) ++ [EvSleep 1] |})
        as (t2 & k & Hk & -> & G2); [lia | lia |].
      exists t2, (S k). split; [lia|]. split; [|eapply gently_changed_trans; eauto].
      cbn [tick trace]. rewrite request_train_more by lia.
      rewrite <- !app_assoc. simpl. f_equal. f_equal. lia.
Qed.

(** X2.  The merge of [_supplement_statistics], when both sources give
    non-negative numbers for the five counters: [break] is reached, and every
    counter holds the larger of the Web value and the App value.  A
    [tik_data] without [statistics] counts as all zeros. *)
Theorem supplement_merge_takes_max (app_stats t statistics : dict) :
  dget "statistics" t = Some (JDict statistics) \/
  (dget "statistics" t = None /\ statistics = []) ->
  (forall key, In key stat_keys ->
     exists a w,
       as_number (dget_or key (JInt 0) app_stats) = Some a /\
       as_number (dget_or key (JInt 0) statistics) = Some w /\
       (0 <= a)%Z /\ (0 <= w)%Z) ->
  exists statistics',
    merge_into app_stats (JDict t)
    = (true, JDict (dset "statistics" (JDict statistics')
                      (if has_key "statistics" t then t
                       else dset "statistics" (JDict []) t))) /\
    forall key, In key stat_keys ->
      exists a w,
        as_number (dget_or key (JInt 0) app_stats) = Some a /\
        as_number (dget_or key (JInt 0) statistics) = Some w /\
        as_number (dget_or key (JInt 0) statistics') = Some (Z.max a w).
Proof.
  intros Hs Hnum.
  assert (ND : NoDup stat_keys).
  { unfold stat_keys. repeat (apply NoDup_cons; split; [rewrite list_elem_of_In; simpl; intuition discriminate|]).
    apply NoDup_nil. exact I. }
  destruct (merge_keys_takes_max stat_keys app_stats statistics ND Hnum) as (s' & E & M & _).
  exists s'. split; [|exact M].
  unfold merge_into, has_key. destruct Hs as [S|[S ->]]; rewrite S.
  - rewrite S, E. reflexivity.
  - rewrite dget_dset_same, E. reflexivity.
Qed.

(** X3.  Whatever the App API answers, [_supplement_statistics] returns
    without an exception, lowers no counter of [statistics] that was a number,
    and changes no other entry of [tik_data]; a [tik_data] that is not a dict
    comes back as it was. *)
Theorem supplement_never_lowers (tik_data : json) (w : world) :
  exists tik_data' w',
    _supplement_statistics tik_data w = (Ok tik_data', w') /\
    not_lowered (statistics_in tik_data) (statistics_in tik_data') /\
    (forall t, tik_data = JDict t ->
       exists t', tik_data' = JDict t' /\
                  forall k, k <> "statistics" -> dget k t' = dget k t) /\
    ((forall t, tik_data <> JDict t) -> tik_data' = tik_data).
Proof.
  destruct (supplement_attempts_spec 3 0 tik_data w eq_refl ltac:(lia))
    as (t' & k & _ & E & G).
  exists t'. eexists. split; [exact E | exact G].
Qed.

(** X4.  The log of [_supplement_statistics]: one to three requests to the
    statistics endpoint, each with timeout 10, with a sleep of 1 second
    between one request and the next and none after the last. *)
Theorem supplement_log (tik_data : json) (w : world) :
  exists tik_data' k,
    1 <= k <= 3 /\
    _supplement_statistics tik_data w
    = (Ok tik_data',
       {| tick := tick w + k;
          trace := trace w ++ request_train (EvGet stats_url 10) (EvSleep 1) k |}).
Proof.
  destruct (supplement_attempts_spec 3 0 tik_data w eq_refl ltac:(lia))
    as (t' & k & Hk & E & _).
  exists t', k. split; [exact Hk | exact E].
Qed.

(** ** More on the identifier extractor *)

Lemma digit_not_space (c : ascii) : is_digit c = true -> is_space c = false.
Proof.
  intros H. destruct (is_space c) eqn:E; [|reflexivity].
  apply space_not_digit in E. congruence.
Qed.

Lemma digits_have_no_space (s : string) :
  all_chars is_digit s = true -> all_chars (fun c => negb (is_space c)) s = true.
Proof.
  induction s as [|c s IH]; simpl; [reflexivity|]. intros H.
  apply andb_true_iff in H as [Hc H]. now rewrite (digit_not_space _ Hc), IH.
Qed.

Lemma strip_without_space (s : string) :
  all_chars (fun c => negb (is_space c)) s = true -> strip s = s.
Proof.
  intros H. unfold strip.
  assert (L : lstrip s = s).
  { destruct s as [|c s]; [reflexivity|]. simpl in *.
    apply andb_true_iff in H as [Hc _]. apply negb_true_iff in Hc. now rewrite Hc. }
  rewrite L. induction s as [|c s IH]; [reflexivity|]. simpl in *.
  apply andb_true_iff in H as [Hc H]. apply negb_true_iff in Hc.
  rewrite Hc. simpl. rewrite IH; [reflexivity | exact H |].
  destruct s as [|d s]; [reflexivity|]. simpl in *.
  apply andb_true_iff in H as [Hd _]. apply negb_true_iff in Hd. now rewrite Hd.
Qed.

Lemma take_while_whole (p : ascii -> bool) (s : string) :
  all_chars p s = true -> take_while p s = s.
Proof.
  induction s as [|c s IH]; simpl; [reflexivity|]. intros H.
  apply andb_true_iff in H as [-> H]. now rewrite IH.
Qed.

Lemma take_while_app_whole (p : ascii -> bool) (a b : string) :
  all_chars p a = true -> take_while p (a +:+ b) = a +:+ take_while p b.
Proof.
  induction a as [|c a IH]; simpl; [reflexivity|]. intros H.
  apply andb_true_iff in H as [-> H]. now rewrite IH.
Qed.

Lemma take_whole (n : nat) (s : string) : String.length s <= n -> take n s = s.
Proof.
  revert s; induction n as [|n IH]; intros [|c s] H; simpl in *; try reflexivity; try lia.
  rewrite IH; [reflexivity | lia].
Qed.

Lemma take_length_le_whole (n : nat) (s : string) :
  String.length (take n s) <= String.length s.
Proof.
  revert s; induction n as [|n IH]; intros [|c s]; simpl; try lia.
  specialize (IH s). lia.
Qed.

(** A string of digits holds no text that starts with another character. *)
Lemma contains_in_digits (c : ascii) (sub s : string) :
  is_digit c = false -> all_chars is_digit s = true -> contains (String c sub) s = false.
Proof.
  intros Hc. induction s as [|d s IH]; intros H; rewrite contains_unfold.
  - reflexivity.
  - simpl in H. apply andb_true_iff in H as [Hd H].
    rewrite (IH H), orb_false_r. unfold startswith. simpl.
    destruct (ascii_dec c d) as [->|]; [congruence | reflexivity].
Qed.

Lemma startswith_in_digits (c : ascii) (sub s : string) :
  is_digit c = false -> all_chars is_digit s = true -> startswith (String c sub) s = false.
Proof.
  intros Hc H. destruct s as [|d s]; [reflexivity|]. simpl in H.
  apply andb_true_iff in H as [Hd _]. unfold startswith. simpl.
  destruct (ascii_dec c d) as [->|]; [congruence | reflexivity].
Qed.

Lemma all_chars_skip (p : ascii -> bool) (i : nat) (s : string) :
  all_chars p s = true -> all_chars p (skip i s) = true.
Proof.
  revert s; induction i as [|i IH]; intros [|c s] H; simpl in *; auto.
  apply andb_true_iff in H as [_ H]. now apply IH.
Qed.

Lemma re_search_nowhere (here : string -> option string) (s : string) :
  (forall i, here (skip i s) = None) -> re_search here s = None.
Proof.
  intros H. destruct (re_search here s) eqn:E; [|reflexivity].
  apply re_search_some in E as (i & Hi & _). now rewrite H in Hi.
Qed.

Lemma d19_here_short (s : string) : String.length s < 19 -> d19_here s = None.
Proof.
  intros H. destruct (d19_here s) eqn:E; [|reflexivity].
  apply d19_here_spec in E as (<- & L & _).
  pose proof (take_length_le_whole 19 s). lia.
Qed.

Lemma skip_length_le (i : nat) (s : string) : String.length (skip i s) <= String.length s.
Proof.
  revert s; induction i as [|i IH]; intros [|c s]; simpl; try lia.
  specialize (IH s). lia.
Qed.

Lemma re_search_d19_short (s : string) :
  String.length s < 19 -> re_search d19_here s = None.
Proof.
  intros H. apply re_search_nowhere. intros i. apply d19_here_short.
  pose proof (skip_length_le i s). lia.
Qed.

Lemma d19_here_nondigit (c : ascii) (s : string) :
  is_digit c = false -> d19_here (String c s) = None.
Proof.
  intros Hc. destruct (d19_here (String c s)) eqn:E; [|reflexivity].
  apply d19_here_spec in E as (<- & _ & D). simpl in D. now rewrite Hc in D.
Qed.

(** Characters that are no digits, before a string, add no window. *)
Lemma re_search_d19_after_nondigits (a b : string) :
  all_chars (fun c => negb (is_digit c)) a = true ->
  re_search d19_here (a +:+ b) = re_search d19_here b.
Proof.
  induction a as [|c a IH]; intros H; [reflexivity|].
  simpl in H. apply andb_true_iff in H as [Hc H]. apply negb_true_iff in Hc.
  change (String c a +:+ b) with (String c (a +:+ b)).
  cbn [re_search]. rewrite (d19_here_nondigit _ _ Hc). now apply IH.
Qed.

Lemma legacy_nowhere_in_digits (s : string) :
  all_chars is_digit s = true -> first_legacy_match legacy_patterns s = None.
Proof.
  intros H. unfold legacy_patterns, first_legacy_match.
  rewrite !re_search_nowhere; [reflexivity| | |];
    intros i; unfold lit_digits_here;
    rewrite startswith_in_digits; auto using all_chars_skip.
Qed.

(** X6.  A bare number of fewer than 19 digits is not taken as an id: the
    extractor returns [None], and sends nothing. *)
Theorem extract_short_number_unresolved (s : string) (w : world) :
  all_chars is_digit s = true ->
  String.length s < 19 ->
  _extract_aweme_id s w = (Ok None, w).
Proof.
  intros D L.
  assert (strip s = s) as S by now apply strip_without_space, digits_have_no_space.
  assert (P : contains "http" (strip s) = false)
    by (rewrite S; now apply contains_in_digits).
  rewrite (_extract_aweme_id_eq _ _ _ _ (redirect_resolved_plain _ w P)), S.
  unfold extract_from. rewrite re_search_d19_short by exact L.
  now rewrite legacy_nowhere_in_digits.
Qed.

Lemma canonical_url_resolved (id : string) (w : world) :
  all_chars is_digit id = true ->
  redirect_resolved ("https://www.douyin.com/video/" +:+ id) w
  = (Ok ("https://www.douyin.com/video/" +:+ id), w).
Proof.
  intros D. set (url := "https://www.douyin.com/video/" +:+ id).
  assert (NS : all_chars (fun c => negb (is_space c)) url = true).
  { unfold url. rewrite all_chars_app, (digits_have_no_space _ D). reflexivity. }
  unfold redirect_resolved. rewrite (strip_without_space _ NS).
  assert (contains "http" url = true) as ->.
  { apply (contains_skip _ _ 0).
    change (skip 0 url) with ("http" +:+ ("s://www.douyin.com/video/" +:+ id)).
    apply startswith_app. }
  assert (re_search url_here url = Some url) as ->.
  { apply (re_search_first _ _ _ 0); [|intros j Hj; lia].
    change (skip 0 url) with ("https://" +:+ ("www.douyin.com/video/" +:+ id)).
    unfold url_here. rewrite startswith_app, skip_app_exact.
    rewrite take_while_whole.
    - reflexivity.
    - rewrite all_chars_app, (digits_have_no_space _ D). reflexivity. }
  unfold _resolve_redirects.
  assert (contains "v.douyin.com" url = false) as ->.
  { unfold url. simpl. now apply contains_in_digits. }
  assert (contains "douyin.com/share/" url = false) as ->.
  { unfold url. simpl. now apply contains_in_digits. }
  reflexivity.
Qed.

Lemma canonical_url_extracts (id : string) (w : world) :
  all_chars is_digit id = true ->
  1 <= String.length id <= 19 ->
  _extract_aweme_id ("https://www.douyin.com/video/" +:+ id) w = (Ok (Some id), w).
Proof.
  intros D L.
  rewrite (_extract_aweme_id_eq _ _ _ _ (canonical_url_resolved id w D)).
  unfold extract_from. rewrite re_search_d19_after_nondigits by reflexivity.
  destruct (Nat.eq_dec (String.length id) 19) as [L19|N19].
  - rewrite (re_search_first d19_here id id 0); [reflexivity | | intros j Hj; lia].
    apply d19_here_spec. repeat split; auto. apply take_whole. simpl. lia.
  - rewrite re_search_d19_short by lia.
    unfold legacy_patterns, first_legacy_match.
    rewrite (re_search_first _ ("https://www.douyin.com/video/" +:+ id) id 22).
    + reflexivity.
    + change (skip 22 ("https://www.douyin.com/video/" +:+ id)) with ("/video/" +:+ id).
      unfold lit_digits_here. rewrite startswith_app, skip_app_exact.
      rewrite take_while_whole by exact D.
      destruct id; [simpl in L; lia | reflexivity].
    + intros j Hj. do 22 (destruct j as [|j]; [reflexivity|]). lia.
Qed.

(** X7.  The canonical URL of an id leads back to the id: for an id of 1 to 19
    digits, the extractor applied to "https://www.douyin.com/video/" followed
    by the id returns the id, and sends nothing.  An id of exactly 19 digits
    is also returned as it is. *)
Theorem extract_canonical_url_round_trip (id : string) (w : world) :
  all_chars is_digit id = true ->
  1 <= String.length id <= 19 ->
  _extract_aweme_id ("https://www.douyin.com/video/" +:+ id) w = (Ok (Some id), w) /\
  (String.length id = 19 -> _extract_aweme_id id w = (Ok (Some id), w)).
Proof.
  intros D L. split; [now apply canonical_url_extracts|].
  intros L19.
  assert (strip id = id) as S by now apply strip_without_space, digits_have_no_space.
  assert (P : contains "http" (strip id) = false)
    by (rewrite S; now apply contains_in_digits).
  rewrite (_extract_aweme_id_eq _ _ _ _ (redirect_resolved_plain _ w P)), S.
  unfold extract_from.
  rewrite (re_search_first d19_here id id 0); [reflexivity | | intros j Hj; lia].
  apply d19_here_spec. repeat split; auto. apply take_whole. simpl. lia.
Qed.

(** ** More on [fetch_video] *)

(** X5.  A 404 whose body says "Not Found", with a fallback that finds
    nothing: [fetch_video] returns the record of a removed video at once,
    after the one request and the one fallback request, without a retry and
    without a sleep. *)
Theorem fetch_video_not_found (url api aweme_id : string) (w w1 : world) (resp : reply) :
  api_url rt = Some api -> is_empty api = false ->
  _extract_aweme_id url w = (Ok (Some aweme_id), w1) ->
  net rt (tick w1) = Ok resp ->
  status_code resp = 404%Z ->
  is_not_found resp = true ->
  fst (mobile_fallback {| tick := S (tick w1); trace := trace w1 ++ [EvGet api 30] |})
  = Ok None ->
  fetch_video url w
  = (Ok (deleted_record (JStr aweme_id) "视频不存在或已下架"),
     {| tick := S (S (tick w1));
        trace := trace w1 ++ [EvGet api 30; EvGet mobile_url 20] |}).
Proof.
  intros Hapi Hne Hid Hnet H404 Hnf Hmob.
  unfold fetch_video. rewrite Hapi, Hne.
  unfold catch, any_exception, bind at 1. rewrite Hid.
  rewrite (extract_is_not_empty _ _ _ _ Hid).
  cbn [attempts]. unfold bind at 1. unfold bind at 1.
  unfold try_once, bind at 1, reify, request. rewrite Hnet, H404.
  change (404 =? 200)%Z with false. change (404 =? 404)%Z with true. cbv iota.
  unfold bind at 1.
  destruct (mobile_fallback_log {| tick := S (tick w1); trace := trace w1 ++ [EvGet api 30] |})
    as (r & E).
  rewrite E in Hmob. simpl in Hmob. injection Hmob as ->.
  rewrite E, Hnf. unfold ret. cbn [tick trace]. rewrite <- app_assoc. reflexivity.
Qed.

(** ** More on [fetch_videos_batch] *)

Lemma statistic_of_dset_other (results : dict) (vid vid' key : string) (v : json) :
  vid' <> vid -> statistic_of (dset vid v results) vid' key = statistic_of results vid' key.
Proof. intros N. unfold statistic_of. now rewrite dget_dset_other. Qed.

Lemma set_play_count_frame (vid : string) (play_count : Z) (results results' : dict) :
  set_play_count vid play_count results = Ok results' ->
  map fst results' = map fst results /\
  (forall vid' key,
      key <> "play_count" ->
      statistic_of results' vid' key = statistic_of results vid' key) /\
  (forall vid', dget vid' results = Some JNull -> dget vid' results' = Some JNull).
Proof.
  unfold set_play_count. intros H.
  destruct (dget vid results) as [record|] eqn:V; [|injection H as <-; auto].
  destruct (truthy record) eqn:T; [|injection H as <-; auto].
  destruct record as [| | | | |r]; try discriminate H.
  destruct (dget "data" r) as [[| | | | |dd]|] eqn:D; try discriminate H.
  destruct (dget "statistics" dd) as [[| | | | |st]|] eqn:S; try discriminate H.
  injection H as <-. split; [|split].
  - rewrite keys_dset. unfold has_key. now rewrite V.
  - intros vid' key N. destruct (String.eqb_spec vid' vid) as [->|N'];
      [|now apply statistic_of_dset_other].
    unfold statistic_of. rewrite dget_dset_same, V. unfold py_get, rbind, dget_or.
    rewrite dget_dset_same, D.
    rewrite dget_dset_other by discriminate. rewrite dget_dset_same, S.
    now rewrite dget_dset_other.
  - intros vid' H. destruct (String.eqb_spec vid' vid) as [->|N'];
      [congruence | now rewrite dget_dset_other].
Qed.

Lemma absorb_stats_frame (stats_list : list json) (results : dict) :
  map fst (absorb_stats stats_list results) = map fst results /\
  (forall vid key,
      key <> "play_count" ->
      statistic_of (absorb_stats stats_list results) vid key = statistic_of results vid key) /\
  (forall vid, dget vid results = Some JNull ->
               dget vid (absorb_stats stats_list results) = Some JNull).
Proof.
  revert results; induction stats_list as [|stat rest IH]; intros results; simpl; [auto|].
  unfold rbind.
  destruct (py_get stat "aweme_id" JNull) as [id|]; [|auto].
  destruct (py_get stat "play_count" (JInt 0)) as [raw|]; [|auto].
  destruct (set_play_count (py_str id) (int_or_zero raw) results) as [results'|] eqn:E; [|auto].
  destruct (set_play_count_frame _ _ _ _ E) as (K1 & F1 & N1).
  destruct (IH results') as (K2 & F2 & N2).
  split; [congruence|]. split.
  - intros vid key N. now rewrite F2, F1.
  - intros vid H. auto.
Qed.

(** X8.  The play-count supplement of the batch, whatever the App API
    answers: it returns without an exception, adds and removes no id, leaves
    every counter other than the play count as it was, and leaves an id bound
    to [None] bound to [None]. *)
Theorem stats_batches_frame (batches : list (list string)) (results : dict) (w : world) :
  exists results' w',
    stats_batches batches results w = (Ok results', w') /\
    map fst results' = map fst results /\
    (forall vid key,
        key <> "play_count" ->
        statistic_of results' vid key = statistic_of results vid key) /\
    (forall vid, dget vid results = Some JNull -> dget vid results' = Some JNull).
Proof.
  revert results w; induction batches as [|batch_ids rest IH]; intros results w; simpl.
  - exists results, w. auto.
  - unfold bind at 1, reify, request.
    set (absorbed :=
           match (let+ stats_response := net rt (tick w) in stats_list_of stats_response) with
           | Ok (JList stats_list) => absorb_stats stats_list results
           | _ => results
           end).
    assert (map fst absorbed = map fst results /\
            (forall vid key, key <> "play_count" ->
               statistic_of absorbed vid key = statistic_of results vid key) /\
            (forall vid, dget vid results = Some JNull -> dget vid absorbed = Some JNull))
      as (K1 & F1 & N1).
    { unfold absorbed.
      destruct (let+ stats_response := net rt (tick w) in stats_list_of stats_response)
        as [[| | | |l|]|]; auto. apply absorb_stats_frame. }
    destruct (IH absorbed {| tick := S (tick w); trace := trace w ++ [EvGet stats_url 30] |})
      as (r' & w' & E & K2 & F2 & N2).
    exists r', w'. split; [exact E|]. split; [congruence|]. split.
    + intros vid key N. now rewrite F2, F1.
    + auto.
Qed.

Lemma mark_missing_keeps (batch_ids : list string) (results results' : dict) (w w' : world) :
  mark_missing batch_ids results w = (Ok results', w') ->
  forall k, has_key k results = true -> dget k results' = dget k results.
Proof.
  revert results w; induction batch_ids as [|aweme_id rest IH]; intros results w H k Hk;
    cbn [mark_missing] in H.
  - now injection H as <- _.
  - destruct (has_key aweme_id results) eqn:K; [eapply IH; eauto|].
    unfold bind at 1 in H.
    destruct (fetch_video ("https://www.douyin.com/video/" +:+ aweme_id) w)
      as [[single_data|e] w1]; [|discriminate].
    unfold bind at 1 in H.
    match type of H with
    | context [match ?m w1 with _ => _ end] => destruct (m w1) as [[rescued|e] w2]
    end; [|discriminate].
    assert (N : k <> aweme_id) by (intros ->; congruence).
    rewrite (IH _ _ H k).
    + destruct rescued; now rewrite ?dget_dset_other by exact N.
    + destruct rescued; repeat apply has_key_dset; exact Hk.
Qed.

Lemma mark_missing_all_found (batch_ids : list string) (results : dict) (w : world) :
  (forall id, In id batch_ids -> has_key id results = true) ->
  mark_missing batch_ids results w = (Ok results, w).
Proof.
  induction batch_ids as [|aweme_id rest IH]; intros H; cbn [mark_missing]; [reflexivity|].
  rewrite (H aweme_id (or_introl eq_refl)). apply IH. intros id Hid. apply H. now right.
Qed.

(** X9.  The single-video fallback of the batch is for missing ids only: an
    id that already has an entry keeps that entry, and when every id of the
    batch has one, nothing is sent and the mapping is returned as it is.
    On a mapping of records the pass never raises. *)
Theorem mark_missing_spares_found (batch_ids : list string) (results : dict) (w : world) :
  good results ->
  exists results' w',
    mark_missing batch_ids results w = (Ok results', w') /\
    (forall k, has_key k results = true -> dget k results' = dget k results) /\
    ((forall id, In id batch_ids -> has_key id results = true) ->
     results' = results /\ w' = w).
Proof.
  intros G. destruct (mark_missing_spec batch_ids results w G) as (r' & w' & E & _).
  exists r', w'. split; [exact E|]. split.
  - eapply mark_missing_keeps; eauto.
  - intros H. rewrite (mark_missing_all_found _ _ _ H) in E. now injection E as <- <-.
Qed.

(** ** More on the sync planner *)

Lemma rstrip_spaces (b : string) : all_chars is_space b = true -> rstrip b = EmptyString.
Proof.
  induction b as [|c b IH]; simpl; [reflexivity|]. intros H.
  apply andb_true_iff in H as [-> H]. now rewrite IH.
Qed.

Lemma rstrip_app_spaces (x b : string) :
  all_chars is_space b = true -> rstrip (x +:+ b) = rstrip x.
Proof.
  intros H. induction x as [|c x IH]; simpl; [now apply rstrip_spaces | now rewrite IH].
Qed.

Lemma lstrip_spaces (a : string) : all_chars is_space a = true -> lstrip a = EmptyString.
Proof.
  induction a as [|c a IH]; simpl; [reflexivity|]. intros H.
  apply andb_true_iff in H as [-> H]. now apply IH.
Qed.

Lemma lstrip_app_spaces (a x : string) :
  all_chars is_space a = true -> lstrip (a +:+ x) = lstrip x.
Proof.
  induction a as [|c a IH]; simpl; [reflexivity|]. intros H.
  apply andb_true_iff in H as [-> H]. now apply IH.
Qed.

Lemma strip_app_spaces (s b : string) :
  all_chars is_space b = true -> strip (s +:+ b) = strip s.
Proof.
  intros H. unfold strip. induction s as [|c s IH].
  - simpl. now rewrite lstrip_spaces.
  - simpl. destruct (is_space c); [exact IH|].
    change (String c (s +:+ b)) with (String c s +:+ b). now apply rstrip_app_spaces.
Qed.

Lemma rstrip_idempotent (s : string) : rstrip (rstrip s) = rstrip s.
Proof.
  induction s as [|c s IH]; simpl; [reflexivity|].
  destruct (is_space c && is_empty (rstrip s)) eqn:E; [reflexivity|].
  simpl. now rewrite IH, E.
Qed.

Lemma strip_idempotent (s : string) : strip (strip s) = strip s.
Proof.
  unfold strip.
  assert (L : lstrip (rstrip (lstrip s)) = rstrip (lstrip s)).
  { induction s as [|c s IH]; [reflexivity|]. simpl.
    destruct (is_space c) eqn:Hc; [exact IH|].
    simpl. rewrite Hc. simpl. now rewrite Hc. }
  now rewrite L, rstrip_idempotent.
Qed.

(** X10.  The id that [extract_video_id] reads off a cell is stripped, does
    not depend on white space around the text of the cell, and is the same
    for a plain-text cell and for a rich-text cell with that text. *)
Theorem extract_video_id_normalizes :
  (forall raw_value, strip (extract_video_id raw_value) = extract_video_id raw_value) /\
  (forall a s b,
      all_chars is_space a = true -> all_chars is_space b = true ->
      extract_video_id (JStr (a +:+ s +:+ b)) = extract_video_id (JStr s)) /\
  (forall first_item rest s,
      dget "text" first_item = Some (JStr s) ->
      extract_video_id (JList (JDict first_item :: rest)) = extract_video_id (JStr s)).
Proof.
  assert (Plain : forall s, extract_video_id (JStr s) = strip s).
  { intros s. unfold extract_video_id. simpl. now destruct s. }
  split; [|split].
  - intros raw_value. unfold extract_video_id.
    destruct (negb (truthy raw_value)); [reflexivity|].
    destruct raw_value as [| | | |l|]; try apply strip_idempotent.
    destruct l as [|[| | | | |first_item] rest]; try apply strip_idempotent. reflexivity.
  - intros a s b Ha Hb. rewrite !Plain.
    unfold strip at 1. rewrite lstrip_app_spaces by exact Ha.
    now apply strip_app_spaces.
  - intros first_item rest s H. rewrite Plain. unfold extract_video_id. simpl.
    unfold dget_or. now rewrite H.
Qed.

Lemma select_subset (force : bool) (video_groups : list (string * group)) (ids : list string) :
  select_videos_to_fetch force video_groups = Ok ids ->
  forall k, In k ids -> In k (map fst video_groups).
Proof.
  revert ids; induction video_groups as [|[vid g] rest IH]; simpl; intros ids.
  - now intros [= <-].
  - destruct (is_complete (fields (master g))) as [c|]; simpl; [|discriminate].
    destruct (select_videos_to_fetch force rest) as [more|]; simpl; [|discriminate].
    intros [= <-] k Hk.
    destruct (force || negb c); [destruct Hk as [->|Hk]; auto|]; right; now apply (IH more).
Qed.

Lemma select_is_fetched_keys (force : bool) (video_groups : list (string * group))
    (sel ids : list string) :
  NoDup (map fst video_groups) ->
  select_videos_to_fetch force video_groups = Ok sel ->
  (forall k, In k (map fst video_groups) -> (In k ids <-> In k sel)) ->
  map fst (fetched_groups ids video_groups) = sel.
Proof.
  revert sel; induction video_groups as [|[vid g] rest IH]; simpl; intros sel ND H Hids.
  - now injection H as <-.
  - apply NoDup_cons in ND as [Nin ND]. rewrite list_elem_of_In in Nin.
    destruct (is_complete (fields (master g))) as [c|]; simpl in H; [|discriminate].
    destruct (select_videos_to_fetch force rest) as [more|] eqn:E; simpl in H; [|discriminate].
    injection H as <-.
    assert (Nmore : ~ In vid more) by (intros Hm; apply Nin; eapply select_subset; eauto).
    assert (Rest : map fst (fetched_groups ids rest) = more).
    { apply IH; [exact ND | reflexivity|]. intros k Hk.
      rewrite (Hids k (or_intror Hk)).
      assert (k <> vid) by (intros ->; contradiction).
      destruct (force || negb c); simpl; intuition congruence. }
    destruct (existsb (String.eqb vid) ids) eqn:X.
    + apply existsb_eqb_in in X. apply (Hids vid (or_introl eq_refl)) in X.
      destruct (force || negb c); [simpl; now rewrite Rest | contradiction].
    + assert (~ In vid ids) as Nids by (rewrite <- existsb_eqb_in; congruence).
      destruct (force || negb c); [|exact Rest].
      exfalso. apply Nids. apply (Hids vid (or_introl eq_refl)). now left.
Qed.

Lemma build_updates_targets (ids : list string) (parsed : gmap string json)
    (video_groups : list (string * group)) :
  map update_record_id (build_updates ids parsed video_groups)
  = map (fun kg => record_id (master (snd kg))) (fetched_groups ids video_groups).
Proof.
  induction video_groups as [|[vid g] rest IH]; simpl; [reflexivity|].
  rewrite map_app, IH. unfold update_for.
  destruct (existsb (String.eqb vid) ids); [|reflexivity].
  destruct (parsed !! vid) as [p|]; [destruct (truthy p)|]; reflexivity.
Qed.

(** X11.  The updates of a sync run go to the master rows of the videos
    marked for refresh, one update for each, in the order of
    [videos_to_fetch]; no duplicate row and no group left out of
    [videos_to_fetch] is written. *)
Theorem updates_target_master_rows (force : bool) (video_groups : list (string * group))
    (videos_to_fetch : list string) (parsed_results : gmap string json) :
  NoDup (map fst video_groups) ->
  select_videos_to_fetch force video_groups = Ok videos_to_fetch ->
  map fst (fetched_groups videos_to_fetch video_groups) = videos_to_fetch /\
  map update_record_id (build_updates videos_to_fetch parsed_results video_groups)
  = map (fun kg => record_id (master (snd kg)))
        (fetched_groups videos_to_fetch video_groups) /\
  List.length (build_updates videos_to_fetch parsed_results video_groups)
  = List.length videos_to_fetch.
Proof.
  intros ND H.
  assert (F : map fst (fetched_groups videos_to_fetch video_groups) = videos_to_fetch)
    by (eapply select_is_fetched_keys; eauto; tauto).
  split; [exact F|]. split; [apply build_updates_targets|].
  rewrite <- (length_map update_record_id), build_updates_targets, length_map.
  rewrite <- F at 2. now rewrite length_map.
Qed.

(** X12.  Without [force] a video is fetched exactly when the master row of
    its group is classified incomplete; with [force] every video is.  No id
    is listed twice. *)
Theorem select_membership (force : bool) (video_groups : list (string * group))
    (videos_to_fetch : list string) :
  NoDup (map fst video_groups) ->
  select_videos_to_fetch force video_groups = Ok videos_to_fetch ->
  NoDup videos_to_fetch /\
  forall vid,
    In vid videos_to_fetch <->
    exists g,
      In (vid, g) video_groups /\
      (force = true \/ is_complete (fields (master g)) = Ok false).
Proof.
  revert videos_to_fetch; induction video_groups as [|[k g] rest IH]; simpl;
    intros ids ND H.
  - injection H as <-. split; [constructor|]. intros vid. split; [intros [] | now intros (? & [] & _)].
  - apply NoDup_cons in ND as [Nin ND]. rewrite list_elem_of_In in Nin.
    destruct (is_complete (fields (master g))) as [c|] eqn:C; simpl in H; [|discriminate].
    destruct (select_videos_to_fetch force rest) as [more|] eqn:E; simpl in H; [|discriminate].
    injection H as <-. destruct (IH more ND eq_refl) as [NDm M].
    assert (Nmore : ~ In k more) by (intros Hm; apply Nin; eapply select_subset; eauto).
    split.
    + destruct (force || negb c); [|exact NDm].
      apply NoDup_cons. split; [now rewrite list_elem_of_In | exact NDm].
    + intros vid. split.
      * intros Hin.
        assert (Hcase : (vid = k /\ (force || negb c) = true) \/ In vid more).
        { destruct (force || negb c); [destruct Hin as [<-|Hin]; auto | auto]. }
        destruct Hcase as [[-> Hc]|Hm].
        -- exists g. split; [now left|]. apply orb_true_iff in Hc as [Hc|Hc]; [now left|].
           right. apply negb_true_iff in Hc. now subst c.
        -- apply M in Hm as (g' & Hg' & Hc). exists g'. split; [now right | exact Hc].
      * intros (g' & [Eq|Hg'] & Hc).
        -- injection Eq as <- <-.
           assert ((force || negb c) = true) as ->.
           { destruct Hc as [->|Hc]; [reflexivity|]. rewrite C in Hc.
             injection Hc as ->. apply orb_true_r. }
           now left.
        -- assert (In vid more) by (apply M; eauto).
           destruct (force || negb c); [now right | assumption].
Qed.

Lemma updated_count_bounds (ids : list string) (parsed : gmap string json)
    (video_groups : list (string * group)) :
  (0 <= updated_count ids parsed video_groups
   <= Z.of_nat (List.length (fetched_groups ids video_groups)))%Z.
Proof.
  induction video_groups as [|[vid g] rest IH]; simpl; [lia|].
  destruct (existsb (String.eqb vid) ids); simpl; [|lia].
  destruct (parsed !! vid) as [p|]; [destruct (truthy p)|]; lia.
Qed.

Lemma add_record_length (video_groups : list (string * group)) (r : record) :
  List.length (add_record video_groups r) <= S (List.length video_groups).
Proof.
  unfold add_record. destruct (is_empty (video_id_of r)); [lia|].
  assert (L : forall g, List.length (dset (video_id_of r) g video_groups)
                        <= S (List.length video_groups)).
  { intros g. rewrite <- (length_map fst), keys_dset.
    destruct (has_key (video_id_of r) video_groups);
      rewrite ?length_app, length_map; simpl; lia. }
  destruct (dget (video_id_of r) video_groups); apply L.
Qed.

Lemma group_records_length (records : list record) :
  List.length (group_records records) <= List.length records.
Proof.
  unfold group_records.
  assert (forall acc,
             List.length (fold_left add_record records acc)
             <= List.length acc + List.length records) as H.
  { induction records as [|r rs IH]; intros acc; simpl; [lia|].
    specialize (IH (add_record acc r)). pose proof (add_record_length acc r). lia. }
  apply (H []).
Qed.

(** X13.  The numbers that [cmd_sync] reports add up: none is negative, the
    videos updated, skipped and failed together are the unique videos, the
    unique videos are no more than the rows, and the updates sent are the
    videos updated plus the videos failed. *)
Theorem sync_result_adds_up (force : bool) (records : list record)
    (videos_to_fetch : list string) (parsed_results : gmap string json) :
  select_videos_to_fetch force (group_records records) = Ok videos_to_fetch ->
  let r := sync_result_of records (group_records records) videos_to_fetch parsed_results in
  (0 <= updated r /\ 0 <= skipped r /\ 0 <= failed r)%Z /\
  (updated r + skipped r + failed r = unique_videos r)%Z /\
  (unique_videos r <= total_records r)%Z /\
  Z.of_nat (List.length (build_updates videos_to_fetch parsed_results (group_records records)))
  = (updated r + failed r)%Z.
Proof.
  intros H r.
  assert (ND : NoDup (map fst (group_records records)))
    by (apply fold_add_record_keys; constructor).
  assert (F : map fst (fetched_groups videos_to_fetch (group_records records))
              = videos_to_fetch)
    by (eapply select_is_fetched_keys; eauto; tauto).
  pose proof (updated_count_bounds videos_to_fetch parsed_results (group_records records)) as B.
  rewrite <- (length_map fst), F in B.
  assert (Sub : List.length videos_to_fetch <= List.length (group_records records)).
  { rewrite <- F, length_map. unfold fetched_groups. apply filter_length_le. }
  pose proof (group_records_length records) as G.
  assert (U : List.length (build_updates videos_to_fetch parsed_results (group_records records))
              = List.length videos_to_fetch).
  { rewrite <- (length_map update_record_id), build_updates_targets, length_map.
    rewrite <- F at 2. now rewrite length_map. }
  unfold r, sync_result_of. cbn [updated skipped failed unique_videos total_records].
  rewrite U. repeat split; lia.
Qed.

(** ** More on the brand registry *)

Lemma load_after_add_brand (brand_key name aadvid industry : string) (st : brand_store) :
  load_brands_config (add_brand brand_key name aadvid industry st)
  = <[brand_key := brand_entry name aadvid industry]> (load_brands_config st).
Proof. reflexivity. Qed.

(** X14.  In the registry that [load_brands_config] reads, a second
    [add_brand] of a key replaces the first, and two [add_brand] of different
    keys give the same registry in either order. *)
Theorem add_brand_overwrites_and_commutes (st : brand_store)
    (k1 n1 a1 i1 k2 n2 a2 i2 : string) :
  load_brands_config (add_brand k1 n2 a2 i2 (add_brand k1 n1 a1 i1 st))
  = load_brands_config (add_brand k1 n2 a2 i2 st) /\
  (k1 <> k2 ->
   load_brands_config (add_brand k1 n1 a1 i1 (add_brand k2 n2 a2 i2 st))
   = load_brands_config (add_brand k2 n2 a2 i2 (add_brand k1 n1 a1 i1 st))).
Proof.
  rewrite !load_after_add_brand. split.
  - apply insert_insert_eq.
  - intros N. now apply insert_insert_ne.
Qed.

Lemma brand_entry_well_formed (name aadvid industry : string) :
  well_formed_entry (brand_entry name aadvid industry).
Proof. eexists _, name, aadvid. repeat split. Qed.

Lemma well_formed_insert (brands : gmap string json) (k : string) (e : json) :
  well_formed brands -> well_formed_entry e -> well_formed (<[k := e]> brands).
Proof.
  intros W E k' e'. rewrite lookup_insert.
  destruct (decide (k = k')); [now intros [= <-] | apply W].
Qed.

(** X15.  The registry keeps its shape: the default registry is well formed,
    [add_brand] keeps the stored registry and the default object well formed,
    and on a well-formed registry [get_brand_url] never raises: it returns
    [None] for an unknown key, and for a known key the dashboard URL of the
    advertiser id stored under that key. *)
Theorem registry_stays_well_formed (st : brand_store) :
  well_formed default_brands /\
  (well_formed (load_brands_config st) -> well_formed (DEFAULT_BRANDS st) ->
   forall brand_key name aadvid industry,
     well_formed (load_brands_config (add_brand brand_key name aadvid industry st)) /\
     well_formed (DEFAULT_BRANDS (add_brand brand_key name aadvid industry st))) /\
  (well_formed (load_brands_config st) ->
   forall brand_key,
     (load_brands_config st !! brand_key = None /\ get_brand_url brand_key st = Ok JNull) \/
     (exists d aadvid,
         load_brands_config st !! brand_key = Some (JDict d) /\
         dget "aadvid" d = Some (JStr aadvid) /\
         get_brand_url brand_key st = Ok (JStr (yuntu_base +:+ aadvid)))).
Proof.
  split; [|split].
  - intros k e. unfold default_brands. rewrite lookup_singleton.
    destruct (decide ("lego" = k)); [|discriminate].
    intros [= <-]. eexists _, _, "1731407744628743". repeat split.
  - intros WL WD brand_key name aadvid industry. split.
    + rewrite load_after_add_brand.
      apply well_formed_insert; [exact WL | apply brand_entry_well_formed].
    + unfold add_brand. cbn [DEFAULT_BRANDS].
      destruct (config_file st) eqn:C; [exact WD|].
      apply well_formed_insert; [|apply brand_entry_well_formed].
      unfold load_brands_config. rewrite C. exact WD.
  - intros W brand_key. unfold get_brand_url.
    destruct (load_brands_config st !! brand_key) as [e|] eqn:L; [|now left].
    right. destruct (W _ _ L) as (d & name & aadvid & -> & _ & A & U).
    exists d, aadvid. rewrite U. auto.
Qed.

(** ** Configuration *)

(** X16.  [validate_config] on the configuration read from the environment:
    it accepts exactly when DOUYIN_API_KEY is set to a non-empty value and,
    if the spreadsheet is needed, FEISHU_APP_ID and FEISHU_APP_SECRET are too;
    the message is empty when it accepts; the variables it reports missing are
    exactly the required ones that are not set; DOUYIN_API_URL is never
    required. *)
Theorem validate_config_reads_environment (environ : string -> option string)
    (require_feishu : bool) :
  let v := validate_config (get_config environ) require_feishu in
  (fst v = true <->
   is_set environ "DOUYIN_API_KEY" = true /\
   (require_feishu = true ->
    is_set environ "FEISHU_APP_ID" = true /\ is_set environ "FEISHU_APP_SECRET" = true)) /\
  (fst v = true -> snd v = "") /\
  (forall name,
      In name (missing_variables (get_config environ) require_feishu) <->
      is_set environ name = false /\
      (name = "DOUYIN_API_KEY" \/
       (require_feishu = true /\ (name = "FEISHU_APP_ID" \/ name = "FEISHU_APP_SECRET")))).
Proof.
  assert (T : forall name,
             truthy (environ_get environ name) = is_set environ name).
  { intros name. unfold environ_get, is_set. now destruct (environ name). }
  unfold validate_config, missing_variables, get_config, dget_or. simpl.
  rewrite !T.
  destruct (is_set environ "DOUYIN_API_KEY") eqn:K;
    destruct (is_set environ "FEISHU_APP_ID") eqn:A;
    destruct (is_set environ "FEISHU_APP_SECRET") eqn:S;
    destruct require_feishu; simpl;
    (split; [split; [intros H; try discriminate H; auto
                    | intros [H1 H2]; try discriminate H1;
                      try (destruct (H2 eq_refl) as [H3 H4]; discriminate); auto]
            |split; [intros H; try discriminate H; reflexivity|]]);
    intros name; split;
    try (intros H; repeat (destruct H as [<-|H]); try destruct H; auto; fail);
    intros [N [-> | [R [-> | ->]]]]; simpl; auto; congruence.
Qed.

(** ** The TikHub fallback *)

Lemma converted_single_envelope (aweme_id : string) (tik_data v : json) :
  converted_single ("https://www.douyin.com/video/" +:+ aweme_id) tik_data = Ok v ->
  is_envelope aweme_id v.
Proof.
  unfold converted_single, duration_of, author_of, statistics_of. intros H.
  split_gets H. injection H as <-. eexists. split; [reflexivity|]. right. reflexivity.
Qed.

Lemma deleted_record_envelope (aweme_id : string) (id : json) (desc : string) :
  is_envelope aweme_id (deleted_record id desc).
Proof. eexists. split; [reflexivity|]. left. reflexivity. Qed.

Lemma try_once_returns_envelope (url aweme_id : string) (st : attempt_state) :
  post (try_once url aweme_id st) (returns_envelope aweme_id).
Proof.
  unfold try_once. apply post_bind_any. intros [resp|e].
  - destruct (status_code resp =? 200)%Z.
    + destruct (body resp) as [d|e].
      * apply post_ret. unfold returns_envelope. simpl. now destruct (truthy d).
      * destruct (is_request_exception e); [now apply post_ret | apply post_raise].
    + destruct (status_code resp =? 404)%Z; [|now apply post_ret].
      apply post_bind_any. intros [mobile_data|]; [now apply post_ret|].
      destruct (is_not_found resp); apply post_ret;
        [apply deleted_record_envelope | exact I].
  - destruct (is_request_exception e); [now apply post_ret | apply post_raise].
Qed.

Lemma attempts_returns_envelope (url aweme_id : string) (todo : list nat)
    (st : attempt_state) :
  post (attempts url aweme_id todo st) (returns_envelope aweme_id).
Proof.
  revert st; induction todo as [|attempt rest IH]; intros st; simpl.
  - now apply post_ret.
  - eapply post_bind; [apply try_once_returns_envelope|].
    intros [c st'] Hc. destruct c.
    + apply post_bind_any. intros _. apply IH.
    + now apply post_ret.
    + now apply post_ret.
Qed.

Lemma after_attempts_none_or_envelope (aweme_id : string) (st : attempt_state) :
  post (after_attempts aweme_id st) (none_or_envelope aweme_id).
Proof.
  unfold after_attempts.
  destruct (response st); [|apply post_ret; now left].
  destruct (negb (truthy (data st))); [apply post_ret; now left|].
  apply post_bind_any; intros code.
  destruct (negb (eq_int 200 code)); [apply post_ret; now left|].
  apply post_bind_any; intros data_data.
  apply post_bind_any; intros tik_data.
  destruct (negb (truthy tik_data)).
  - apply post_bind_any; intros filter_detail.
    destruct (truthy filter_detail); [|apply post_ret; now left].
    apply post_bind_any; intros _.
    apply post_bind_any; intros id.
    apply post_ret. right. apply deleted_record_envelope.
  - apply post_bind_any; intros tik_data'.
    apply post_lift. intros v Hv. right. now apply converted_single_envelope in Hv.
Qed.

(** [fetch_video] returns [None], or the envelope of the id it extracted. *)
Lemma fetch_video_envelope (url : string) (w : world) :
  exists v w',
    fetch_video url w = (Ok v, w') /\
    (v = JNull \/
     exists aweme_id w1,
       _extract_aweme_id url w = (Ok (Some aweme_id), w1) /\ is_envelope aweme_id v).
Proof.
  unfold fetch_video.
  destruct (api_url rt) as [api|]; [|exists JNull, w; split; [reflexivity | now left]].
  destruct (is_empty api); [exists JNull, w; split; [reflexivity | now left]|].
  unfold catch, any_exception, bind at 1.
  destruct (_extract_aweme_id url w) as [[[aweme_id|]|e] w1] eqn:E;
    try (eexists JNull, _; split; [reflexivity | now left]).
  destruct (is_empty aweme_id);
    [eexists JNull, _; split; [reflexivity | now left]|].
  unfold bind at 1.
  pose proof (attempts_returns_envelope api aweme_id [0; 1; 2]
                {| data := JNull; response := None |} w1) as P.
  destruct (attempts api aweme_id [0; 1; 2] {| data := JNull; response := None |} w1)
    as [[[c st]|e] w2];
    [|eexists JNull, _; split; [reflexivity | now left]].
  assert (After : exists v w',
             (let (r, w') := after_attempts aweme_id st w2 in
              match r with
              | Ok a => (Ok a, w')
              | Raise _ => ret JNull w'
              end) = (Ok v, w') /\
             (v = JNull \/
              exists id w0, (Ok (Some aweme_id), w1) = (Ok (Some id), w0) /\ is_envelope id v)).
  { pose proof (after_attempts_none_or_envelope aweme_id st w2) as Q.
    destruct (after_attempts aweme_id st w2) as [[v|e] w3];
      [|eexists JNull, _; split; [reflexivity | now left]].
    exists v, w3. split; [reflexivity|]. destruct Q as [->|Q]; [now left | right; eauto]. }
  destruct c; [exact After | exact After|].
  exists v, w2. split; [reflexivity|]. right. eauto.
Qed.

(** X17.  [fetch_video_from_tikhub] never raises, and what it returns is
    [None] or a record whose title, views, talent name, talent followers and
    douyin id are all the empty string, whatever the API said: it reads them
    at the top level of the result of [fetch_video], which holds only [code]
    and [data]. *)
Theorem tikhub_fallback_reads_nothing (video_id scraped_at : string) (w : world) :
  exists v w',
    fetch_video_from_tikhub video_id scraped_at w = (Ok v, w') /\
    (v = JNull \/
     exists d,
       v = JDict d /\
       dget "video_id" d = Some (JStr video_id) /\
       forall key,
         In key ["title"; "views"; "talent_name"; "talent_followers"; "douyin_id"] ->
         dget key d = Some (JStr "")).
Proof.
  unfold fetch_video_from_tikhub, catch, any_exception, bind.
  destruct (fetch_video_envelope video_id w) as (v & w' & -> & H).
  destruct H as [->|(id & w1 & _ & d & -> & _)];
    [exists JNull, w'; split; [reflexivity | now left]|].
  eexists _, w'. split; [reflexivity|]. right.
  eexists. split; [reflexivity|]. split; [reflexivity|].
  intros key [<-|[<-|[<-|[<-|[<-|[]]]]]]; reflexivity.
Qed.

(** ** [update_records] *)

Lemma world_eta (w : world) : {| tick := tick w + 0; trace := trace w ++ [] |} = w.
Proof. destruct w. simpl. now rewrite Nat.add_0_r, app_nil_r. Qed.

Lemma accepted_spec (r : result reply) :
  accepted r = true ->
  exists resp d,
    r = Ok resp /\
    ((400 <=? status_code resp) && (status_code resp <? 600))%Z = false /\
    body resp = Ok (JDict d).
Proof.
  unfold accepted. destruct r as [resp|e]; [|discriminate].
  intros H. apply andb_true_iff in H as [H1 H2]. apply negb_true_iff in H1.
  destruct (body resp) as [[| | | | |d]|] eqn:B; try discriminate H2.
  exists resp, d. auto.
Qed.

Lemma update_batches_step (url : string) (batch : list update)
    (rest : list (list update)) (w : world) :
  accepted (net rt (tick w)) = true ->
  update_batches url (batch :: rest) w
  = update_batches url rest {| tick := S (tick w); trace := trace w ++ [EvPost url 60] |}.
Proof.
  intros H. apply accepted_spec in H as (resp & d & E & S & B).
  cbn [update_batches]. unfold bind at 1, request. rewrite E.
  unfold bind at 1, raise_for_status. rewrite S.
  unfold ret at 1. unfold bind at 1, lift at 1. rewrite B.
  unfold bind at 1, lift at 1. reflexivity.
Qed.

Lemma update_batches_refused (url : string) (batch : list update)
    (rest : list (list update)) (w : world) :
  accepted (net rt (tick w)) = false ->
  exists e,
    update_batches url (batch :: rest) w
    = (Raise e, {| tick := S (tick w); trace := trace w ++ [EvPost url 60] |}).
Proof.
  intros H. cbn [update_batches]. unfold bind at 1, request. unfold accepted in H.
  destruct (net rt (tick w)) as [resp|e]; [|eauto].
  unfold bind at 1, raise_for_status.
  destruct ((400 <=? status_code resp) && (status_code resp <? 600))%Z; [unfold raise; eauto|].
  unfold ret at 1. unfold bind at 1, lift at 1.
  destruct (body resp) as [data|e]; [|eauto].
  unfold bind at 1, lift at 1.
  destruct data; simpl in *; try discriminate; eauto.
Qed.

Lemma repeat_snoc {A} (x : A) (n : nat) : [x] ++ repeat x n = repeat x (S n).
Proof. reflexivity. Qed.

Lemma update_batches_run (url : string) (batches : list (list update)) (w : world) :
  (forall i, i < List.length batches -> accepted (net rt (tick w + i)) = true) ->
  update_batches url batches w
  = (Ok tt,
     {| tick := tick w + List.length batches;
        trace := trace w ++ repeat (EvPost url 60) (List.length batches) |}).
Proof.
  revert w; induction batches as [|batch rest IH]; intros w H.
  - simpl. unfold ret. now rewrite world_eta.
  - rewrite update_batches_step
      by (specialize (H 0 ltac:(simpl; lia)); now rewrite Nat.add_0_r in H).
    rewrite IH.
    + cbn [tick trace List.length repeat]. rewrite <- app_assoc. simpl.
      f_equal. f_equal. lia.
    + intros i Hi. cbn [tick]. specialize (H (S i) ltac:(simpl; lia)).
      now replace (S (tick w) + i) with (tick w + S i) by lia.
Qed.

Lemma update_batches_stop (url : string) (batches : list (list update)) (w : world)
    (i : nat) :
  i < List.length batches ->
  (forall j, j < i -> accepted (net rt (tick w + j)) = true) ->
  accepted (net rt (tick w + i)) = false ->
  exists e,
    update_batches url batches w
    = (Raise e,
       {| tick := tick w + S i; trace := trace w ++ repeat (EvPost url 60) (S i) |}).
Proof.
  revert w i; induction batches as [|batch rest IH]; intros w i Hi Hok Hbad;
    [simpl in Hi; lia|].
  destruct i as [|i].
  - rewrite Nat.add_0_r in Hbad.
    destruct (update_batches_refused url batch rest w Hbad) as (e & E).
    exists e. rewrite E. f_equal. f_equal. lia.
  - rewrite update_batches_step
      by (specialize (Hok 0 ltac:(lia)); now rewrite Nat.add_0_r in Hok).
    destruct (IH {| tick := S (tick w); trace := trace w ++ [EvPost url 60] |} i)
      as (e & E).
    + simpl in Hi. lia.
    + intros j Hj. cbn [tick]. specialize (Hok (S j) ltac:(lia)).
      now replace (S (tick w) + j) with (tick w + S j) by lia.
    + cbn [tick]. now replace (S (tick w) + i) with (tick w + S i) by lia.
    + exists e. rewrite E. cbn [tick trace]. rewrite <- app_assoc. simpl.
      f_equal. f_equal. lia.
Qed.

(** X18.  [update_records] sends the updates in batches of up to 500, one
    POST for each batch.  When every reply is accepted (no exception, a status
    outside 400..599, a JSON object as body) it returns after the last batch,
    whatever [code] the replies carry: a batch that the backend rejects in its
    body is logged and nothing more.  At the first reply that is not accepted
    it raises, and the batches after that one are not sent. *)
Theorem update_records_batches (app_token table_id : string)
    (records_updates : list update) (w : world) :
  let url := batch_update_url app_token table_id in
  let n := List.length (chunks 500 records_updates) in
  ((forall i, i < n -> accepted (net rt (tick w + i)) = true) ->
   update_records app_token table_id records_updates w
   = (Ok tt, {| tick := tick w + n; trace := trace w ++ repeat (EvPost url 60) n |})) /\
  (forall i,
      i < n ->
      (forall j, j < i -> accepted (net rt (tick w + j)) = true) ->
      accepted (net rt (tick w + i)) = false ->
      exists e,
        update_records app_token table_id records_updates w
        = (Raise e,
           {| tick := tick w + S i;
              trace := trace w ++ repeat (EvPost url 60) (S i) |})).
Proof.
  intros url n. unfold update_records.
  destruct records_updates as [|u rest].
  - split.
    + intros _. unfold ret. simpl. now rewrite world_eta.
    + intros i Hi. unfold n in Hi. simpl in Hi. lia.
  - split.
    + intros H. now apply update_batches_run.
    + intros i Hi Hok Hbad. now apply update_batches_stop.
Qed.

(** ** [translate_content] *)

Lemma py_len_prefix (n : nat) (s : string) : py_len (py_prefix n s) <= n.
Proof.
  revert n; induction s as [|c s IH]; intros n; simpl; [lia|].
  destruct (is_continuation c) eqn:C; simpl.
  - rewrite C. apply IH.
  - destruct n; simpl; [lia|]. rewrite C. specialize (IH n). lia.
Qed.

Lemma py_len_prefix_min (n : nat) (s : string) :
  py_len (py_prefix n s) = Nat.min n (py_len s).
Proof.
  revert n; induction s as [|c s IH]; intros n; simpl; [lia|].
  destruct (is_continuation c) eqn:C; simpl.
  - rewrite C. apply IH.
  - destruct n; simpl; [lia|]. rewrite C. specialize (IH n). lia.
Qed.

Lemma py_prefix_is_prefix (n : nat) (s : string) :
  exists rest, s = py_prefix n s +:+ rest.
Proof.
  revert n; induction s as [|c s IH]; intros n; simpl; [now exists EmptyString|].
  destruct (is_continuation c).
  - destruct (IH n) as (rest & E). exists rest. simpl. now rewrite <- E.
  - destruct n; [now exists (String c s)|].
    destruct (IH n) as (rest & E). exists rest. simpl. now rewrite <- E.
Qed.

Lemma py_prefix_whole (n : nat) (s : string) : py_len s <= n -> py_prefix n s = s.
Proof.
  revert n; induction s as [|c s IH]; intros n H; simpl in *; [reflexivity|].
  destruct (is_continuation c).
  - rewrite IH; [reflexivity | lia].
  - destruct n; [lia|]. rewrite IH; [reflexivity | lia].
Qed.

(** X19.  [translate_content] returns [None] for empty content and sends
    nothing.  For other content it sends one request and never raises; the
    dict it returns holds as [source] the content cut to its first 5000
    characters, which is the content itself when that has at most 5000; and
    [success] is true exactly when the reply has status 200 and a JSON
    object with [code] 200. *)
Theorem translate_content_truncates (content target_lang : string) (w : world) :
  translate_content EmptyString target_lang w = (Ok JNull, w) /\
  (is_empty content = false ->
   exists d source success,
     translate_content content target_lang w
     = (Ok (JDict d),
        {| tick := S (tick w); trace := trace w ++ [EvPost translate_url 30] |}) /\
     dget "source" d = Some (JStr source) /\
     py_len source = Nat.min 5000 (py_len content) /\
     (exists rest, content = source +:+ rest) /\
     (py_len content <= 5000 -> source = content) /\
     dget "success" d = Some (JBool success) /\
     (success = true <->
      exists resp data code,
        net rt (tick w) = Ok resp /\ status_code resp = 200%Z /\
        body resp = Ok data /\ py_get data "code" JNull = Ok code /\
        eq_int 200 code = true)).
Proof.
  split; [reflexivity|]. intros Hne. unfold translate_content. rewrite Hne.
  set (src := if (5000 <? py_len content)%nat then py_prefix 5000 content else content).
  assert (Hlen : py_len src = Nat.min 5000 (py_len content)).
  { unfold src. destruct (5000 <? py_len content)%nat eqn:L;
      [apply py_len_prefix_min | apply Nat.ltb_ge in L; lia]. }
  assert (Hpre : exists rest, content = src +:+ rest).
  { unfold src. destruct (5000 <? py_len content)%nat;
      [apply py_prefix_is_prefix | exists EmptyString].
    clear. induction content as [|c s IH]; simpl; [reflexivity | now rewrite <- IH]. }
  assert (Hwhole : py_len content <= 5000 -> src = content).
  { intros L. unfold src. destruct (5000 <? py_len content)%nat eqn:E; [|reflexivity].
    apply Nat.ltb_lt in E. lia. }
  unfold catch, any_exception, bind at 1, request.
  destruct (net rt (tick w)) as [resp|e] eqn:N.
  - destruct (status_code resp =? 200)%Z eqn:S.
    + apply Z.eqb_eq in S. unfold bind at 1, lift at 1.
      destruct (body resp) as [data|e] eqn:B.
      * unfold bind at 1, lift at 1.
        destruct (py_get data "code" JNull) as [code|e] eqn:C.
        -- destruct (eq_int 200 code) eqn:Q.
           ++ unfold bind at 1, lift at 1.
              destruct data as [| | | | |dd]; try discriminate C.
              cbn [py_get]. unfold ret.
              eexists _, src, true. split; [reflexivity|].
              repeat (split; [first [reflexivity | assumption]|]).
              split; [intros _; eauto 10 | reflexivity].
           ++ unfold bind at 1, lift at 1.
              destruct data as [| | | | |dd]; try discriminate C.
              cbn [py_get]. unfold ret.
              eexists _, src, false. split; [reflexivity|].
              repeat (split; [first [reflexivity | assumption]|]).
              split; [discriminate|].
              intros (r' & d' & c' & [= <-] & _ & B' & C' & Q'). congruence.
        -- unfold ret. eexists _, src, false. split; [reflexivity|].
           repeat (split; [first [reflexivity | assumption]|]).
           split; [discriminate|].
           intros (r' & d' & c' & [= <-] & _ & B' & C' & Q'). congruence.
      * unfold ret. eexists _, src, false. split; [reflexivity|].
        repeat (split; [first [reflexivity | assumption]|]).
        split; [discriminate|].
        intros (r' & d' & c' & [= <-] & _ & B' & _). congruence.
    + unfold ret. eexists _, src, false. split; [reflexivity|].
      repeat (split; [first [reflexivity | assumption]|]).
      split; [discriminate|].
      intros (r' & d' & c' & [= <-] & S' & _). apply Z.eqb_neq in S. contradiction.
  - unfold ret. eexists _, src, false. split; [reflexivity|].
    repeat (split; [first [reflexivity | assumption]|]).
    split; [discriminate|].
    intros (r' & d' & c' & [=] & _).
Qed.

(** ** The share URL of a fetched record *)

(** X20.  A record that [fetch_video] returns is built for the id that the
    extractor read off the input: its [share_url] is empty (a removed video)
    or the canonical URL of that id, whatever URL the API reported, and the
    extractor applied to that canonical URL gives the same id again. *)
Theorem fetch_video_share_url (url : string) (w : world) :
  exists v w',
    fetch_video url w = (Ok v, w') /\
    (v = JNull \/
     exists aweme_id w1 d,
       _extract_aweme_id url w = (Ok (Some aweme_id), w1) /\
       v = JDict [("code", JInt 0); ("data", JDict d)] /\
       (dget "share_url" d = Some (JStr "") \/
        dget "share_url" d = Some (JStr ("https://www.douyin.com/video/" +:+ aweme_id))) /\
       forall w2,
         _extract_aweme_id ("https://www.douyin.com/video/" +:+ aweme_id) w2
         = (Ok (Some aweme_id), w2)).
Proof.
  destruct (fetch_video_envelope url w) as (v & w' & E & H).
  exists v, w'. split; [exact E|].
  destruct H as [->|(id & w1 & Hid & d & -> & Hs)]; [now left|].
  right. exists id, w1, d. repeat split; auto.
  intros w2.
  destruct (redirect_resolved_ok url w) as (s & w0 & Hr).
  rewrite (_extract_aweme_id_eq _ _ _ _ Hr) in Hid. injection Hid as Hx _.
  apply extract_from_shape in Hx as (D & [(_ & L)|(_ & L & _)]);
    apply canonical_url_extracts; auto; lia.
Qed.

(** ** The parser *)

Ltac step_body H :=
  repeat match type of H with
         | context [rbind ?r _] =>
             destruct r eqn:?; cbn [rbind] in H; [|discriminate H]
         end.

Lemma counters_of_spec (stats : json) (counters : dict) :
  counters_of stats = Ok counters ->
  exists s,
    stats = JDict s /\
    ((exists play digg comment share collect,
         py_int (dget_or "play_count" (JInt 0) s) = Ok play /\
         py_int (dget_or "digg_count" (JInt 0) s) = Ok digg /\
         py_int (dget_or "comment_count" (JInt 0) s) = Ok comment /\
         py_int (dget_or "share_count" (JInt 0) s) = Ok share /\
         py_int (dget_or "collect_count" (JInt 0) s) = Ok collect /\
         counters = [("播放量", JInt play); ("点赞数", JInt digg); ("评论数", JInt comment);
                     ("分享数", JInt share); ("收藏数", JInt collect)])
     \/
     ((exists column key e,
          In (column, key) counter_columns /\
          py_int (dget_or key (JInt 0) s) = Raise e) /\
      counters = zero_counters)).
Proof.
  unfold counters_of, read_counters. intros H.
  destruct stats as [| | | | |s]; try discriminate H.
  exists s. split; [reflexivity|].
  cbn [py_get rbind] in H.
  assert (Z : forall e : exn,
             match e with
             | ValueError | TypeError => Ok zero_counters
             | _ => Raise e
             end = Ok counters -> counters = zero_counters).
  { intros e. destruct e; intros [=]; auto. }
  destruct (py_int (dget_or "play_count" (JInt 0) s)) as [play|e] eqn:E1; cbn [rbind] in H;
    [|right; split; [exists "播放量", "play_count", e; split; [simpl; auto 10 | exact E1]
                    | exact (Z e H)]].
  destruct (py_int (dget_or "digg_count" (JInt 0) s)) as [digg|e] eqn:E2; cbn [rbind] in H;
    [|right; split; [exists "点赞数", "digg_count", e; split; [simpl; auto 10 | exact E2]
                    | exact (Z e H)]].
  destruct (py_int (dget_or "comment_count" (JInt 0) s)) as [comment|e] eqn:E3;
    cbn [rbind] in H;
    [|right; split; [exists "评论数", "comment_count", e; split; [simpl; auto 10 | exact E3]
                    | exact (Z e H)]].
  destruct (py_int (dget_or "share_count" (JInt 0) s)) as [share|e] eqn:E4;
    cbn [rbind] in H;
    [|right; split; [exists "分享数", "share_count", e; split; [simpl; auto 10 | exact E4]
                    | exact (Z e H)]].
  destruct (py_int (dget_or "collect_count" (JInt 0) s)) as [collect|e] eqn:E5;
    cbn [rbind] in H;
    [|right; split; [exists "收藏数", "collect_count", e; split; [simpl; auto 10 | exact E5]
                    | exact (Z e H)]].
  injection H as <-. left. exists play, digg, comment, share, collect. auto 10.
Qed.

Lemma product_columns_spec (pe : parser_env) (promotions : json) (product : dict) :
  product_columns pe promotions = Ok product ->
  exists cart title price sales link,
    product = [("是否挂车", JBool cart); ("商品标题", title); ("商品价格(元)", price);
               ("商品销量", sales); ("商品链接", link)].
Proof.
  unfold product_columns. intros H.
  destruct (truthy promotions).
  - step_body H. injection H as <-. eauto 10.
  - injection H as <-. eauto 10.
Qed.

(** What a record that the parser returns is made of. *)
Lemma parse_video_body_inv (pe : parser_env) (api_response v : json) :
  parse_video_body pe api_response = Ok v ->
  v = JNull \/
  exists (r d : dict) (id tags : string) (created : Z)
         (link desc nick uid seconds source : json) (counters product : dict),
    api_response = JDict r /\
    dget_or "data" (JDict []) r = JDict d /\
    counters_of (dget_or "statistics" (JDict []) d) = Ok counters /\
    product_columns pe (dget_or "promotions" (JList []) d) = Ok product /\
    v = JDict ([("视频ID", JStr id); ("视频链接", link); ("标题描述", desc);
                ("作者昵称", nick); ("作者ID", uid); ("发布时间", JInt created);
                ("视频时长(秒)", seconds); ("采集时间", JInt (now_ms pe))]
               ++ counters
               ++ [("数据来源", source); ("话题标签", JStr tags)] ++ product) /\
    title_for_log desc = Ok tt /\
    (truthy desc = true \/ desc = JStr "").
Proof.
  unfold parse_video_body. intros H.
  destruct api_response as [| | | | |r]; try discriminate H.
  cbn [py_get rbind] in H.
  destruct (truthy (dget_or "data" (JDict []) r)) eqn:T; cbn [negb] in H;
    [|injection H as <-; now left].
  destruct (dget_or "data" (JDict []) r) as [| | | | |d] eqn:D; try discriminate H.
  cbn [py_get rbind] in H.
  step_body H.
  injection H as <-. right.
  match goal with u : unit |- _ => destruct u end.
  do 13 eexists.
  split; [reflexivity|]. split; [exact D|].
  split; [eassumption|]. split; [eassumption|].
  split; [reflexivity|].
  split; [match goal with E : title_for_log _ = Ok tt |- _ => exact E end|].
  match goal with
  | |- truthy (if ?c then _ else _) = true \/ _ => destruct c; [now left|]
  end.
  unfold py_or. destruct (truthy (dget_or "desc" JNull d)) eqn:Y; [left; exact Y | now right].
Qed.

Lemma nonempty_truthy (d : dict) (k : string) (v : json) :
  dget k d = Some v -> truthy (JDict d) = true.
Proof. destruct d; [discriminate | reflexivity]. Qed.

Lemma parse_video_body_deleted (pe : parser_env) (r d st : dict) (v : json) :
  dget "data" r = Some (JDict d) ->
  dget "status" d = Some (JDict st) ->
  dget "is_delete" st = Some (JBool true) ->
  parse_video_body pe (JDict r) = Ok v ->
  exists fields, v = JDict fields /\ dget "标题描述" fields = Some (JStr "视频已下架").
Proof.
  intros Hd Hs Hi H. unfold parse_video_body in H.
  cbn [py_get rbind] in H.
  assert (D : dget_or "data" (JDict []) r = JDict d) by (unfold dget_or; now rewrite Hd).
  assert (S : dget_or "status" (JDict []) d = JDict st) by (unfold dget_or; now rewrite Hs).
  rewrite D in H. rewrite (nonempty_truthy d _ _ Hs) in H. cbn [negb py_get rbind] in H.
  rewrite S in H. rewrite (nonempty_truthy st _ _ Hi) in H. cbn [py_get rbind] in H.
  assert (I : dget_or "is_delete" JNull st = JBool true) by (unfold dget_or; now rewrite Hi).
  rewrite I in H. cbn [rbind orb] in H.
  step_body H. injection H as <-.
  eexists. split; reflexivity.
Qed.

Lemma is_complete_removed (master_fields : dict) :
  dget "标题描述" master_fields = Some (JStr "视频已下架") ->
  is_complete master_fields = Ok false.
Proof.
  intros H. unfold is_complete, dget_or. rewrite H. reflexivity.
Qed.

(** X21.  A removed video stays marked for refresh.  For every record that
    [fetch_video] builds for a removed video, whatever id and message it
    carries, the parser returns a row with the title "视频已下架", no link and
    the five counters 0; for any response whose [status] says [is_delete], a
    row that the parser returns has that title; and the planner of [cmd_sync]
    classifies a row with that title as incomplete. *)
Theorem parse_video_marks_removed (pe : parser_env) :
  (forall (aweme_id : json) (desc : string),
      exists fields,
        DouyinParser_parse_video pe (deleted_record aweme_id desc) = JDict fields /\
        dget "标题描述" fields = Some (JStr "视频已下架") /\
        dget "视频链接" fields = Some JNull /\
        forall column key,
          In (column, key) counter_columns -> dget column fields = Some (JInt 0)) /\
  (forall (api_response : json) (r d st : dict),
      api_response = JDict r ->
      dget "data" r = Some (JDict d) ->
      dget "status" d = Some (JDict st) ->
      dget "is_delete" st = Some (JBool true) ->
      DouyinParser_parse_video pe api_response = JNull \/
      exists fields,
        DouyinParser_parse_video pe api_response = JDict fields /\
        dget "标题描述" fields = Some (JStr "视频已下架")) /\
  (forall master_fields,
      dget "标题描述" master_fields = Some (JStr "视频已下架") ->
      is_complete master_fields = Ok false).
Proof.
  split; [|split].
  - intros aweme_id desc. eexists. split; [reflexivity|].
    split; [reflexivity|]. split; [reflexivity|].
    intros column key Hin. simpl in Hin.
    destruct Hin as [[= <- <-] | [[= <- <-] | [[= <- <-] | [[= <- <-] | [[= <- <-] | []]]]]];
      reflexivity.
  - intros api_response r d st -> Hd Hs Hi. unfold DouyinParser_parse_video.
    destruct (parse_video_body pe (JDict r)) as [v|e] eqn:E; [|now left].
    destruct (parse_video_body_deleted pe r d st v Hd Hs Hi E) as (fields & -> & T).
    right. exists fields. split; [reflexivity | exact T].
  - exact is_complete_removed.
Qed.

(** X22.  The five counters of a parsed row are all or nothing.  When the
    parser returns a row, the response is a dict whose [data] is a dict with
    a dict of [statistics] (or none), and either every counter of the row is
    [int] of the statistic of its name, 0 where the statistic is missing, or
    one of the five conversions fails and every counter of the row is 0, the
    well-formed ones too. *)
Theorem parse_video_counters_all_or_nothing (pe : parser_env) (api_response : json)
    (fields : dict) :
  DouyinParser_parse_video pe api_response = JDict fields ->
  exists r d stats,
    api_response = JDict r /\
    dget_or "data" (JDict []) r = JDict d /\
    dget_or "statistics" (JDict []) d = JDict stats /\
    ((forall column key,
         In (column, key) counter_columns ->
         exists n,
           py_int (dget_or key (JInt 0) stats) = Ok n /\
           dget column fields = Some (JInt n))
     \/
     ((exists column key e,
          In (column, key) counter_columns /\
          py_int (dget_or key (JInt 0) stats) = Raise e) /\
      forall column key,
        In (column, key) counter_columns -> dget column fields = Some (JInt 0))).
Proof.
  unfold DouyinParser_parse_video. intros H.
  destruct (parse_video_body pe api_response) as [v|e] eqn:E; [subst v | discriminate H].
  destruct (parse_video_body_inv pe api_response (JDict fields) E)
    as [N | (r & d & id & tags & created & link & desc & nick & uid & seconds & source
             & counters & product & -> & D & C & _ & F & _ & _)];
    [discriminate N|].
  injection F as ->.
  destruct (counters_of_spec _ _ C) as (stats & S & Cases).
  exists r, d, stats. split; [reflexivity|]. split; [exact D|]. split; [exact S|].
  destruct Cases as [(play & digg & comment & share & collect & E1 & E2 & E3 & E4 & E5 & ->)
                    | (Bad & ->)].
  - left. intros column key Hin. simpl in Hin.
    destruct Hin as [[= <- <-] | [[= <- <-] | [[= <- <-] | [[= <- <-] | [[= <- <-] | []]]]]];
      eexists; (split; [eassumption | reflexivity]).
  - right. split; [exact Bad|]. intros column key Hin. simpl in Hin.
    destruct Hin as [[= <- <-] | [[= <- <-] | [[= <- <-] | [[= <- <-] | [[= <- <-] | []]]]]];
      reflexivity.
Qed.

(** X23.  The parser never raises, and what it returns is [None] or a row
    with exactly the twenty columns, in the order they are written, in which
    the video id and the hashtags are strings, the publication time, the
    collection time and the five counters are integers, the shopping-cart
    flag is a boolean, and the title is a string or a list.  It returns
    [None] for a response that is not a dict, and for one whose [data] is
    missing or falsy. *)
Theorem parse_video_row_shape (pe : parser_env) (api_response : json) :
  (DouyinParser_parse_video pe api_response = JNull \/
   exists fields id tags created cart,
     DouyinParser_parse_video pe api_response = JDict fields /\
     map fst fields = parsed_columns /\
     dget "视频ID" fields = Some (JStr id) /\
     dget "话题标签" fields = Some (JStr tags) /\
     dget "发布时间" fields = Some (JInt created) /\
     dget "采集时间" fields = Some (JInt (now_ms pe)) /\
     dget "是否挂车" fields = Some (JBool cart) /\
     (forall column key,
         In (column, key) counter_columns -> exists n, dget column fields = Some (JInt n)) /\
     ((exists s, dget "标题描述" fields = Some (JStr s)) \/
      (exists l, dget "标题描述" fields = Some (JList l)))) /\
  ((forall r, api_response <> JDict r) -> DouyinParser_parse_video pe api_response = JNull) /\
  (forall r,
      api_response = JDict r ->
      truthy (dget_or "data" (JDict []) r) = false ->
      DouyinParser_parse_video pe api_response = JNull).
Proof.
  split; [|split].
  - unfold DouyinParser_parse_video.
    destruct (parse_video_body pe api_response) as [v|e] eqn:E; [|now left].
    destruct (parse_video_body_inv pe api_response v E)
      as [-> | (r & d & id & tags & created & link & desc & nick & uid & seconds & source
                & counters & product & -> & D & C & P & -> & L & Y)];
      [now left|].
    right.
    destruct (product_columns_spec _ _ _ P) as (cart & title & price & sales & plink & ->).
    assert (Title : (exists s, desc = JStr s) \/ (exists l, desc = JList l)).
    { destruct Y as [Y | ->]; [|left; eauto].
      destruct desc; try discriminate L; try discriminate Y; eauto.
      - destruct b; discriminate.
      - unfold title_for_log in L. rewrite Y in L. discriminate L.
      - unfold title_for_log in L. rewrite Y in L. discriminate L. }
    destruct (counters_of_spec _ _ C)
      as (stats & S & [(play & digg & comment & share & collect & _ & _ & _ & _ & _ & ->)
                      | (_ & ->)]).
    + eexists _, id, tags, created, cart. split; [reflexivity|].
      repeat (split; [reflexivity|]).
      split.
      * intros column key Hin. simpl in Hin.
        destruct Hin as [[= <- <-] | [[= <- <-] | [[= <- <-] | [[= <- <-] | [[= <- <-] | []]]]]];
          eexists; reflexivity.
      * destruct Title as [(s & ->) | (l & ->)]; [left | right]; eexists; reflexivity.
    + eexists _, id, tags, created, cart. split; [reflexivity|].
      repeat (split; [reflexivity|]).
      split.
      * intros column key Hin. simpl in Hin.
        destruct Hin as [[= <- <-] | [[= <- <-] | [[= <- <-] | [[= <- <-] | [[= <- <-] | []]]]]];
          eexists; reflexivity.
      * destruct Title as [(s & ->) | (l & ->)]; [left | right]; eexists; reflexivity.
  - intros N. unfold DouyinParser_parse_video, parse_video_body.
    destruct api_response as [| | | | |r]; try reflexivity. now destruct (N r).
  - intros r -> T. unfold DouyinParser_parse_video, parse_video_body.
    cbn [py_get rbind]. rewrite T. reflexivity.
Qed.
End Program.

(** * Concrete runs *)




Example table_groups :
  group_records offline table
  = [(video_a, {| master := row_a1; duplicates := [row_a2] |});
     (video_b, {| master := row_b; duplicates := [] |})].
Proof. reflexivity. Qed.



(** The three cases the specification lists. *)
Example classification_cases :
  is_complete offline [("标题描述", JStr "某标题"); ("点赞数", JInt 120)] = Ok true /\
  is_complete offline [("标题描述", JStr ""); ("点赞数", JInt 120)] = Ok false /\
  is_complete offline [("标题描述", JStr "视频已下架"); ("点赞数", JInt 120)] = Ok false /\
  is_complete offline [("标题描述", JList [JDict [("text", JStr "⚠️ 获取失败")]]); ("播放量", JInt 9)]
  = Ok false.
Proof. repeat split. Qed.

Lemma force_marks_every_group_witness :
  exists ids,
    select_videos_to_fetch offline true (group_records offline table) = Ok ids /\
    forall k g, In (k, g) (group_records offline table) -> In k ids.
Proof.
  apply (proj2 (force_marks_every_group offline (group_records offline table))).
  intros k g [E|[E|[]]]; injection E as <- <-; eexists; reflexivity.
Defined.

(** Without [force], only the incomplete group is fetched. *)
Example table_plan :
  select_videos_to_fetch offline false (group_records offline table) = Ok [video_b] /\
  select_videos_to_fetch offline true (group_records offline table) = Ok [video_a; video_b].
Proof. split; reflexivity. Qed.

Lemma updates_for_fetched_groups_only_witness :
  update_for [video_b] (parse_results parse_data {[ video_b := JNull ]})
    video_a {| master := row_a1; duplicates := [row_a2] |} = [] /\
  update_for [video_b] (parse_results parse_data {[ video_b := JNull ]})
    video_b {| master := row_b; duplicates := [] |}
  = [{| update_record_id := "recB";
        update_fields := JDict [("标题描述", JStr "视频已下架")] |}].
Proof.
  destruct (updates_for_fetched_groups_only parse_data [video_b] {[ video_b := JNull ]}
              (group_records offline table)) as (_ & Off & Gone).
  split.
  - apply Off. intros [E|[]]. discriminate.
  - apply (Gone video_b {| master := row_b; duplicates := [] |}).
    + now left.
    + right. apply lookup_singleton_eq.
Defined.

(** The end-to-end scenario of the specification: ids A, A, B, with A
    complete; B is fetched and its master row gets the one update. *)
Example end_to_end :
  map update_record_id
    (build_updates [video_b]
       (parse_results parse_data
          {[ video_b := JDict [("code", JInt 0); ("data", JDict [("标题描述", JStr "b")])] ]})
       (group_records offline table))
  = ["recB"].
Proof. vm_compute. reflexivity. Qed.

Lemma add_brand_then_get_brand_url_witness :
  load_brands_config
    (add_brand "lego" "LEGO" "1731407744628743" "toys"
       {| config_file := None; DEFAULT_BRANDS := {[ "duplo" := JNull ]} |}) !! "duplo"
  = Some JNull.
Proof.
  rewrite (proj2 (add_brand_then_get_brand_url "lego" "LEGO" "1731407744628743" "toys"
                    {| config_file := None; DEFAULT_BRANDS := {[ "duplo" := JNull ]} |})
                 "duplo"); [|discriminate].
  apply lookup_singleton_eq.
Defined.

(** The merge of the specification's example, on the path of
    [_supplement_statistics]. *)
Example merge_example :
  merge_keys stat_keys
    [("play_count", JInt 80); ("digg_count", JInt 5)]
    [("play_count", JInt 100); ("digg_count", JInt 0)]
  = ([("play_count", JInt 100); ("digg_count", JInt 5)], None).
Proof. reflexivity. Qed.

(** C1.  On the batch path the merge is not the maximum: the Web API reports
    100 plays for a video and the App API 80 (or 0), and the record that
    [fetch_videos_batch] returns holds 80 (or 0), where the maximum is 100. *)
Theorem batch_supplement_overwrites_play_count :
  (let+ results := fst (fetch_videos_batch (two_sources 100 80) [video_a] fresh_world) in
   statistic_of results video_a "play_count") = Ok (JInt 80) /\
  (let+ results := fst (fetch_videos_batch (two_sources 100 0) [video_a] fresh_world) in
   statistic_of results video_a "play_count") = Ok (JInt 0) /\
  Z.max 100 80 = 100%Z /\ Z.max 100 0 = 100%Z.
Proof. repeat split; vm_compute; reflexivity. Qed.

Lemma fetch_video_three_attempts_witness :
  fetch_video offline video_a fresh_world
  = (Ok JNull,
     {| tick := 3;
        trace := [] ++ [EvGet default_api_url 30; EvSleep 2;
                        EvGet default_api_url 30; EvSleep 2;
                        EvGet default_api_url 30] |}).
Proof.
  apply (proj2 (proj2 (fetch_video_three_attempts offline video_a fresh_world))
           default_api_url video_a fresh_world Timeout Timeout Timeout);
    reflexivity.
Defined.

Lemma batch_binds_every_requested_id_witness :
  exists results w',
    fetch_videos_batch offline [video_a; video_b] fresh_world = (Ok results, w') /\
    results = all_none [video_a; video_b] /\
    dget video_b results = Some JNull.
Proof.
  destruct (batch_binds_every_requested_id offline [video_a; video_b] fresh_world)
    as (results & w' & E & _ & _ & Exc).
  exists results, w'. split; [exact E|].
  destruct (Exc Timeout {| tick := 1; trace := [EvPost web_batch_url 60] |})
    as (R & _ & N); [discriminate | reflexivity |].
  split; [exact R|]. apply N. right. now left.
Defined.

(** A failed item does not stop the batch: the first video is served by the
    Web API, the second is missing there and the single fetch does not find it
    either; the mapping binds the first to its record and the second to
    [None]. *)
Example batch_survives_failed_item :
  match fst (fetch_videos_batch (two_sources 100 80) [video_a; video_b] fresh_world) with
  | Ok results =>
      option_map is_metadata_record (dget video_a results) = Some true /\
      dget video_b results = Some JNull
  | Raise _ => False
  end.
Proof. vm_compute. split; reflexivity. Qed.

(** ** The further properties at concrete inputs *)

Lemma chunks_partition_witness :
  concat (chunks 2 [1; 2; 3; 4; 5]%nat) = [1; 2; 3; 4; 5]%nat /\
  Forall (fun c => (1 <= List.length c <= 2)%nat) (chunks 2 [1; 2; 3; 4; 5]%nat) /\
  List.length (chunks 2 [1; 2; 3; 4; 5]%nat) = ((5 + 2 - 1) / 2)%nat.
Proof. apply (chunks_partition 2 [1; 2; 3; 4; 5]%nat). lia. Defined.

Lemma supplement_merge_takes_max_witness :
  exists statistics',
    merge_into app_example (JDict tik_example)
    = (true, JDict (dset "statistics" (JDict statistics') tik_example)) /\
    as_number (dget_or "play_count" (JInt 0) statistics') = Some 100%Z /\
    as_number (dget_or "digg_count" (JInt 0) statistics') = Some 5%Z.
Proof.
  destruct (supplement_merge_takes_max app_example tik_example
              [("play_count", JInt 100); ("digg_count", JInt 0)])
    as (s' & E & K).
  - left. reflexivity.
  - intros key Hk. simpl in Hk.
    destruct Hk as [<- | [<- | [<- | [<- | [<- | []]]]]];
      eexists _, _; (split; [reflexivity |]); (split; [reflexivity |]); lia.
  - exists s'. split; [exact E |]. split.
    + destruct (K "play_count") as (a & w & A & W & R); [now left |].
      injection A as <-. injection W as <-. exact R.
    + destruct (K "digg_count") as (a & w & A & W & R); [right; now left |].
      injection A as <-. injection W as <-. exact R.
Defined.

Lemma supplement_never_lowers_witness :
  exists tik_data' w',
    _supplement_statistics offline (JDict tik_example) fresh_world = (Ok tik_data', w') /\
    exists t', tik_data' = JDict t' /\ dget "desc" t' = Some (JStr "a").
Proof.
  destruct (supplement_never_lowers offline (JDict tik_example) fresh_world)
    as (tik_data' & w' & E & _ & F & _).
  exists tik_data', w'. split; [exact E |].
  destruct (F tik_example eq_refl) as (t' & T & K).
  exists t'. split; [exact T |]. rewrite K; [reflexivity | discriminate].
Defined.

Lemma fetch_video_not_found_witness :
  fetch_video gone_runtime video_a fresh_world
  = (Ok (deleted_record (JStr video_a) "视频不存在或已下架"),
     {| tick := 2; trace := [] ++ [EvGet default_api_url 30; EvGet mobile_url 20] |}).
Proof.
  apply (fetch_video_not_found gone_runtime video_a default_api_url video_a
           fresh_world fresh_world gone_reply); reflexivity.
Defined.

Lemma extract_short_number_unresolved_witness :
  _extract_aweme_id offline "12345" fresh_world = (Ok None, fresh_world).
Proof.
  apply (extract_short_number_unresolved offline "12345" fresh_world);
    [reflexivity | simpl; lia].
Defined.

Lemma extract_canonical_url_round_trip_witness :
  _extract_aweme_id offline ("https://www.douyin.com/video/" +:+ video_a) fresh_world
  = (Ok (Some video_a), fresh_world) /\
  _extract_aweme_id offline video_a fresh_world = (Ok (Some video_a), fresh_world).
Proof.
  destruct (extract_canonical_url_round_trip offline video_a fresh_world) as [U I];
    [reflexivity | vm_compute; lia |].
  split; [exact U | apply I; reflexivity].
Defined.

Lemma stats_batches_frame_witness :
  exists results' w',
    stats_batches (runtime_with (fun _ => Ok (app_reports 80))) [[video_a]]
      [(video_a, JDict [("code", JInt 0);
                        ("data", JDict [("statistics",
                                         JDict [("play_count", JInt 100);
                                                ("digg_count", JInt 7)])])])]
      fresh_world
    = (Ok results', w') /\
    statistic_of results' video_a "digg_count" = Ok (JInt 7).
Proof.
  destruct (stats_batches_frame (runtime_with (fun _ => Ok (app_reports 80))) [[video_a]]
              [(video_a, JDict [("code", JInt 0);
                                ("data", JDict [("statistics",
                                                 JDict [("play_count", JInt 100);
                                                        ("digg_count", JInt 7)])])])]
              fresh_world)
    as (results' & w' & E & _ & F & _).
  exists results', w'. split; [exact E |].
  rewrite F; [reflexivity | discriminate].
Defined.

Lemma mark_missing_spares_found_witness :
  exists results' w',
    mark_missing offline [video_a; video_b] (all_none [video_a]) fresh_world
    = (Ok results', w') /\
    dget video_a results' = Some JNull.
Proof.
  destruct (mark_missing_spares_found offline [video_a; video_b] (all_none [video_a])
              fresh_world)
    as (results' & w' & E & K & _).
  - apply (good_dset [] video_a JNull); [apply good_nil | left; reflexivity].
  - exists results', w'. split; [exact E |]. rewrite K; reflexivity.
Defined.

Lemma extract_video_id_normalizes_witness :
  extract_video_id offline (JStr ("  " +:+ video_a +:+ " "))
  = extract_video_id offline (JStr video_a).
Proof.
  apply (proj1 (proj2 (extract_video_id_normalizes offline)) "  " video_a " ");
    reflexivity.
Defined.

Lemma table_groups_distinct : NoDup (map fst (group_records offline table)).
Proof.
  vm_compute.
  repeat (constructor;
          [intros H; apply list_elem_of_In in H; simpl in H; intuition discriminate |]).
  constructor.
Qed.

Lemma updates_target_master_rows_witness :
  map fst (fetched_groups [video_b] (group_records offline table)) = [video_b] /\
  map update_record_id (build_updates [video_b] ∅ (group_records offline table))
  = map (fun kg => record_id (master (snd kg)))
        (fetched_groups [video_b] (group_records offline table)) /\
  List.length (build_updates [video_b] ∅ (group_records offline table))
  = List.length [video_b].
Proof.
  apply (updates_target_master_rows offline false (group_records offline table)
           [video_b] ∅); [exact table_groups_distinct | reflexivity].
Defined.

Lemma select_membership_witness :
  NoDup [video_b] /\
  forall vid,
    In vid [video_b] <->
    exists g,
      In (vid, g) (group_records offline table) /\
      (false = true \/ is_complete offline (fields (master g)) = Ok false).
Proof.
  apply (select_membership offline false (group_records offline table) [video_b]);
    [exact table_groups_distinct | reflexivity].
Defined.

Lemma sync_result_adds_up_witness :
  let r := sync_result_of table (group_records offline table) [video_b] ∅ in
  (0 <= updated r /\ 0 <= skipped r /\ 0 <= failed r)%Z /\
  (updated r + skipped r + failed r = unique_videos r)%Z /\
  (unique_videos r <= total_records r)%Z /\
  Z.of_nat (List.length (build_updates [video_b] ∅ (group_records offline table)))
  = (updated r + failed r)%Z.
Proof.
  apply (sync_result_adds_up offline false table [video_b] ∅). reflexivity.
Defined.

Lemma add_brand_overwrites_and_commutes_witness :
  load_brands_config
    (add_brand "nike" "Nike" "42" "sport" (add_brand "puma" "Puma" "43" "" initial_store))
  = load_brands_config
      (add_brand "puma" "Puma" "43" "" (add_brand "nike" "Nike" "42" "sport" initial_store)).
Proof.
  apply (proj2 (add_brand_overwrites_and_commutes initial_store
                  "nike" "Nike" "42" "sport" "puma" "Puma" "43" "")).
  discriminate.
Defined.

Lemma registry_stays_well_formed_witness :
  well_formed (load_brands_config (add_brand "nike" "Nike" "42" "sport" initial_store)) /\
  get_brand_url "lego" initial_store = Ok (JStr (yuntu_base +:+ "1731407744628743")).
Proof.
  destruct (registry_stays_well_formed initial_store) as (D & A & G).
  split.
  - apply (A D D "nike" "Nike" "42" "sport").
  - destruct (G D "lego") as [[N _] | (d & aadvid & L & I & U)].
    + discriminate N.
    + vm_compute in L. injection L as <-. injection I as <-. exact U.
Defined.

Lemma validate_config_reads_environment_witness :
  fst (validate_config (get_config key_only_environ) false) = true /\
  snd (validate_config (get_config key_only_environ) false) = "" /\
  In "FEISHU_APP_ID" (missing_variables (get_config key_only_environ) true).
Proof.
  destruct (validate_config_reads_environment key_only_environ false) as (I & S & _).
  destruct (validate_config_reads_environment key_only_environ true) as (_ & _ & N).
  assert (V : fst (validate_config (get_config key_only_environ) false) = true).
  { apply I. split; [reflexivity | discriminate]. }
  split; [exact V |]. split; [exact (S V) |].
  apply N. split; [reflexivity |]. right. split; [reflexivity |]. now left.
Defined.

Lemma tikhub_fallback_reads_nothing_witness :
  exists d w',
    fetch_video_from_tikhub gone_runtime video_a "2026-01-01T00:00:00" fresh_world
    = (Ok (JDict d), w') /\
    dget "video_id" d = Some (JStr video_a) /\
    dget "title" d = Some (JStr "").
Proof.
  destruct (tikhub_fallback_reads_nothing gone_runtime video_a "2026-01-01T00:00:00"
              fresh_world)
    as (v & w' & E & [-> | (d & -> & I & K)]).
  - vm_compute in E. discriminate E.
  - exists d, w'. split; [exact E |]. split; [exact I |]. apply K. now left.
Defined.

Lemma update_records_batches_witness :
  update_records accepting "app" "tbl" two_updates fresh_world
  = (Ok tt, {| tick := 1; trace := [EvPost (batch_update_url "app" "tbl") 60] |}) /\
  exists e,
    update_records offline "app" "tbl" two_updates fresh_world
    = (Raise e, {| tick := 1; trace := [EvPost (batch_update_url "app" "tbl") 60] |}).
Proof.
  split.
  - apply (proj1 (update_records_batches accepting "app" "tbl" two_updates fresh_world)).
    intros i _. reflexivity.
  - apply (proj2 (update_records_batches offline "app" "tbl" two_updates fresh_world) 0).
    + vm_compute. lia.
    + intros j Hj. lia.
    + reflexivity.
Defined.

Lemma translate_content_truncates_witness :
  exists d,
    translate_content translator exn_name "hi" "zh-Hans" fresh_world
    = (Ok (JDict d), {| tick := 1; trace := [EvPost translate_url 30] |}) /\
    dget "source" d = Some (JStr "hi") /\
    dget "success" d = Some (JBool true).
Proof.
  destruct (proj2 (translate_content_truncates translator exn_name "hi" "zh-Hans"
                     fresh_world) eq_refl)
    as (d & source & success & E & S & _ & _ & W & B & T).
  exists d. split; [exact E |].
  rewrite S, B, (W ltac:(simpl; lia)).
  split; [reflexivity |].
  rewrite (proj2 T); [reflexivity |].
  exists translated_reply, (JDict [("code", JInt 200);
                                   ("data", JDict [("translated_text", JStr "hello")])]),
    (JInt 200).
  repeat split; reflexivity.
Defined.

Lemma parse_video_marks_removed_witness :
  exists fields,
    DouyinParser_parse_video offline whole_quotients
      (deleted_record (JStr video_a) "视频不存在或已下架")
    = JDict fields /\
    is_complete offline fields = Ok false.
Proof.
  destruct (parse_video_marks_removed offline whole_quotients) as (R & _ & C).
  destruct (R (JStr video_a) "视频不存在或已下架") as (fields & E & T & _).
  exists fields. split; [exact E | apply C; exact T].
Defined.

Lemma parse_video_counters_all_or_nothing_witness :
  exists fields,
    DouyinParser_parse_video offline whole_quotients response_with_bad_count = JDict fields /\
    dget "播放量" fields = Some (JInt 0).
Proof.
  destruct (DouyinParser_parse_video offline whole_quotients response_with_bad_count)
    as [| | | | |fields] eqn:E; try (vm_compute in E; discriminate E).
  exists fields. split; [reflexivity|].
  destruct (parse_video_counters_all_or_nothing offline whole_quotients _ fields E)
    as (r & d & stats & R & D & S & [All | [_ Zero]]).
  - exfalso. unfold response_with_bad_count in R. injection R as <-.
    vm_compute in D. injection D as <-. vm_compute in S. injection S as <-.
    destruct (All "点赞数" "digg_count") as (n & Bad & _); [simpl; tauto|].
    vm_compute in Bad. discriminate Bad.
  - apply (Zero "播放量" "play_count"). simpl; tauto.
Defined.

Lemma parse_video_row_shape_witness :
  DouyinParser_parse_video offline whole_quotients (JList []) = JNull /\
  DouyinParser_parse_video offline whole_quotients (JDict [("code", JInt 0)]) = JNull.
Proof.
  split.
  - apply (proj1 (proj2 (parse_video_row_shape offline whole_quotients (JList [])))).
    discriminate.
  - apply (proj2 (proj2 (parse_video_row_shape offline whole_quotients
                           (JDict [("code", JInt 0)])))
             [("code", JInt 0)]); reflexivity.
Defined.
